(** * Abyss quant trainer: the filter engine, the detail session and the
      training session of [App.tsx]

    A shallow embedding of the state logic of the React component [App]
    (quant-trainer-frontend/src/App.tsx) and of the data declarations of
    [api.ts]:

    - a [Question] and the [Filters] value are records with the fields of
      the TypeScript interfaces; an optional field ([title?: string]) is an
      [option], and JavaScript truthiness of a string is written out
      ([truthy]);
    - strings are [string]; [String.prototype.toLowerCase] is a parameter
      of the filter ([toLowerCase], a [Section] variable), so that every
      statement holds for the lowering the engine implements;
      [String.prototype.includes] is [str_includes];
    - [Date.now()] is an integer number of milliseconds ([Z]); for an
      integer [d], [Math.floor (d / 1000)] is [d / 1000] on [Z] (floor
      division) and [Math.round (d / 1000)] is [(d + 500) / 1000] (halves
      go up), which is what the double division gives for every [d] that a
      double holds exactly;
    - [Math.random()] is a double of [[0, 1)], held as the rational
      number it denotes ([Q]); its product with the pool length is the
      double product: the exact product rounded to the nearest double,
      halves to the even significand ([round_double]);
    - an event handler reads the state of the render that created it (its
      closure, the argument [st0]) and writes through the setters; the
      writes are threaded by the monad [M], which also records the calls
      made to the remote service and carries the rejection of a promise. *)

From Stdlib Require Import ZArith QArith Qround Qpower Lia Lqa.
From Stdlib Require Import Bool List String Ascii.
From Stdlib Require Import Sorted Permutation DecimalString DecimalZ.
From stdpp Require Import base list.
Import ListNotations.

Local Open Scope Z_scope.

(** ** Data of [api.ts] *)

Record Question := mkQuestion {
  id : Z;
  title : option string;
  url : option string;
  topic : option string;
  tags : list string;
  difficulty : option string;
  companies : list string;
  task_text : option string;
  task_html : option string;
  hint : option string;
  solution : option string;
  answer : option string;
  is_solved : bool;
  attempts : Z;
  avg_time_seconds : option Q
}.

(** Of [Stats] the component only stores the snapshot it was sent; the
    maps by topic and company and the daily series are display data and
    are left out. *)
Record Stats := mkStats {
  total_questions : Z;
  solved_questions : Z;
  solved_by_difficulty : list (string * Z)
}.

(** ** Filter criteria ([interface Filters]) *)

Module Filters.
Record t := mk {
  difficulty : string;
  company : string;
  topics : list string;
  tags : list string;
  search : string;
  onlyUnsolved : bool
}.
End Filters.

Definition defaultFilters : Filters.t :=
  Filters.mk EmptyString EmptyString [] [] EmptyString false.

(** ** JavaScript strings and arrays *)

(** [Boolean(s)] for a string: only the empty string is falsy. *)
Definition truthy (s : string) : bool :=
  match s with EmptyString => false | String _ _ => true end.

(** [Boolean(x)] for [x : string | undefined]. *)
Definition truthy_opt (x : option string) : bool :=
  match x with Some s => truthy s | None => false end.

(** [x || ""] for [x : string | undefined]. *)
Definition or_empty (x : option string) : string :=
  match x with Some s => s | None => EmptyString end.

(** [x !== s] for [x : string | undefined] and a string [s]. *)
Definition strict_neq (x : option string) (s : string) : bool :=
  match x with Some y => negb (String.eqb y s) | None => true end.

(** [arr.includes(x)] on an array of strings. *)
Definition arr_includes (arr : list string) (x : string) : bool :=
  existsb (String.eqb x) arr.

(** [hay.includes(needle)]: [needle] occurs in [hay] at some position. *)
Fixpoint str_includes (hay needle : string) : bool :=
  String.prefix needle hay ||
  match hay with
  | EmptyString => false
  | String _ rest => str_includes rest needle
  end.

(** The template literal [`${a} ${b}`]. *)
Definition haystack_of (a b : string) : string :=
  String.append a (String " " b).

(** A lower-casing that agrees with [toLowerCase] on ASCII text; it is the
    instance at which the statements below are evaluated. *)
Definition ascii_lower (c : ascii) : ascii :=
  let n := nat_of_ascii c in
  if (Nat.leb 65 n && Nat.leb n 90)%bool then ascii_of_nat (n + 32) else c.

Fixpoint asciiToLowerCase (s : string) : string :=
  match s with
  | EmptyString => EmptyString
  | String c rest => String (ascii_lower c) (asciiToLowerCase rest)
  end.

(** ** The filter engine ([filteredQuestions], App.tsx 271-292) *)

Section FilterEngine.

Variable toLowerCase : string -> string.

(** The callback given to [questions.filter], one early [return false]
    per dimension. *)
Definition matchesFilters (filters : Filters.t) (q : Question) : bool :=
  if (truthy (Filters.difficulty filters)
      && strict_neq (difficulty q) (Filters.difficulty filters))%bool
  then false
  else if (negb (Nat.eqb (List.length (Filters.topics filters)) 0)
           && (negb (truthy_opt (topic q))
               || negb (arr_includes (Filters.topics filters)
                                     (or_empty (topic q)))))%bool
  then false
  else if (truthy (Filters.company filters)
           && negb (arr_includes (companies q) (Filters.company filters)))%bool
  then false
  else if (negb (Nat.eqb (List.length (Filters.tags filters)) 0)
           && negb (forallb (fun t => arr_includes (tags q) t)
                            (Filters.tags filters)))%bool
  then false
  else if (Filters.onlyUnsolved filters && is_solved q)%bool
  then false
  else if (truthy (Filters.search filters)
           && negb (str_includes
                      (toLowerCase
                         (haystack_of (or_empty (title q))
                                      (or_empty (task_text q))))
                      (toLowerCase (Filters.search filters))))%bool
  then false
  else true.

Definition filteredQuestions (questions : list Question)
    (filters : Filters.t) : list Question :=
  List.filter (matchesFilters filters) questions.

End FilterEngine.

(** ** Time and chance *)

(** [Math.round((later - earlier) / 1000)] on integer milliseconds. *)
Definition round_seconds (later earlier : Z) : Z :=
  (later - earlier + 500) / 1000.

(** [Math.floor((later - earlier) / 1000)] on integer milliseconds. *)
Definition floor_seconds (later earlier : Z) : Z :=
  (later - earlier) / 1000.

(** The value submitted as [time_spent_seconds] (App.tsx 422-423 and
    519-522): [start !== null ? Math.max(1, Math.round(...)) : 60]. *)
Definition deltaSec (now : Z) (start : option Z) : Z :=
  match start with
  | Some s => Z.max 1 (round_seconds now s)
  | None => 60
  end.

(** *** Doubles

    A finite double is [m * 2^e] for integers [|m| < 2^53] and
    [-1074 <= e <= 971].  The product of two doubles is the exact product
    rounded to the nearest double, halves to the even significand (IEEE
    754 round-to-nearest-even, the rounding of every [Number] operation
    of ECMAScript).  Only the product of a draw and an array length
    occurs below: it is not negative and far from the overflow, so the
    sign and the infinities are left out. *)

Definition pow2 (e : Z) : Q := (2 ^ e)%Q.

(** [floor (log2 x)] for a positive [x]. *)
Definition Qlog2 (x : Q) : Z :=
  let k := Z.log2 (Qnum x) - Z.log2 (Zpos (Qden x)) in
  if Qle_bool (pow2 k) x then k else k - 1.

(** The nearest integer, halves to the even one. *)
Definition round_half_even (s : Q) : Z :=
  let f := Qfloor s in
  match (s - inject_Z f ?= 1 # 2)%Q with
  | Lt => f
  | Gt => f + 1
  | Eq => if Z.even f then f else f + 1
  end.

(** The exponent of the unit in the last place of the doubles around a
    positive [x]: 53 significant bits, and [-1074] for the subnormal
    ones. *)
Definition ulp_exponent (x : Q) : Z := Z.max (-1074) (Qlog2 x - 52).

(** The double nearest to a non-negative [x]. *)
Definition round_double (x : Q) : Q :=
  if Qle_bool x 0 then 0%Q
  else inject_Z (round_half_even (x / pow2 (ulp_exponent x)))
       * pow2 (ulp_exponent x).

(** A non-negative number that a double holds. *)
Definition is_double (r : Q) : Prop :=
  exists m e : Z,
    0 <= m < 2 ^ 53 /\ -1074 <= e /\ (r == inject_Z m * pow2 e)%Q.

(** [2^-53]: half the distance between one and the next double, the
    largest relative error of a rounding. *)
Definition double_eps : Q := 1 # (2 ^ 53).

(** [2^-1075]: half the distance between two subnormal doubles. *)
Definition double_tiny : Q := 1 # (2 ^ 1075).

(** [Math.floor(Math.random() * n)] for a draw [r] of [Math.random()]:
    the floor of the double product. *)
Definition random_index (r : Q) (n : nat) : nat :=
  Z.to_nat (Qfloor (round_double (r * inject_Z (Z.of_nat n)))).

(** What [Math.random()] may return: a double of [[0, 1)]. *)
Definition unit_draw (r : Q) : Prop :=
  (0 <= r)%Q /\ (r < 1)%Q /\ is_double r.

(** ** Selection policy ([pickRandomTrainingQuestion], App.tsx 446-453) *)

Definition unsolved_of (questions : list Question) : list Question :=
  List.filter (fun q => negb (is_solved q)) questions.

(** [unsolved.length ? unsolved : questions]. *)
Definition training_pool (questions : list Question) : list Question :=
  match unsolved_of questions with
  | [] => questions
  | _ :: _ => unsolved_of questions
  end.

Definition pickRandomTrainingQuestion (questions : list Question) (r : Q)
    : option Question :=
  match questions with
  | [] => None
  | _ :: _ =>
      let pool := training_pool questions in
      match pool with
      | [] => None
      | _ :: _ => nth_error pool (random_index r (List.length pool))
      end
  end.

(** ** Component state (the [useState] cells of [App], App.tsx 121-157)

    The cells of the authentication form and of the pickers take no part
    in the three sessions and are left out.  The cells of the detail view
    and those of the training view are grouped in a record each. *)

Inductive ViewMode := ViewQuestions | ViewStats | ViewTraining.

(** The texts shown to the user, one constructor per literal of the
    source. *)
Inductive Message :=
| MsgAlreadySolved                    (* detail: already marked as solved *)
| MsgMarkedSolved (seconds : Z)       (* detail: marked as solved, time ~n *)
| MsgAttemptSaved (seconds : Z)       (* detail: attempt saved, time ~n *)
| MsgSaveError (message : string)     (* both views: error while saving *)
| MsgTrainingAlreadySolved            (* training: was already solved *)
| MsgLoadFailed                       (* training: could not load *)
| MsgNoQuestions                      (* training: nothing to train on *)
| MsgAllSolved.                       (* training: everything is solved *)

Record DetailState := mkDetail {
  selectedQuestion : option Question;
  startTime : option Z;
  showHint : bool;
  showSolution : bool;
  showAnswer : bool;
  infoMessage : option Message
}.

Record TrainingState := mkTraining {
  trainingQuestion : option Question;
  trainingModeRunning : bool;
  trainingStartTime : option Z;
  trainingElapsedSec : Z;
  trainingShowHint : bool;
  trainingShowSolution : bool;
  trainingShowAnswer : bool;
  trainingInfoMessage : option Message
}.

Record AppState := mkApp {
  questions : list Question;
  stats : option Stats;
  filters : Filters.t;
  view : ViewMode;
  detail : DetailState;
  training : TrainingState;
  recentSolvedId : option Z;
  confettiPieces : nat
}.

Definition on_detail (f : DetailState -> DetailState) (st : AppState) : AppState :=
  mkApp (questions st) (stats st) (filters st) (view st) (f (detail st))
        (training st) (recentSolvedId st) (confettiPieces st).

Definition on_training (f : TrainingState -> TrainingState) (st : AppState)
    : AppState :=
  mkApp (questions st) (stats st) (filters st) (view st) (detail st)
        (f (training st)) (recentSolvedId st) (confettiPieces st).

(** *** Setters *)

Definition setQuestions (qs : list Question) (st : AppState) : AppState :=
  mkApp qs (stats st) (filters st) (view st) (detail st) (training st)
        (recentSolvedId st) (confettiPieces st).

Definition setStats (s : option Stats) (st : AppState) : AppState :=
  mkApp (questions st) s (filters st) (view st) (detail st) (training st)
        (recentSolvedId st) (confettiPieces st).

Definition setView (v : ViewMode) (st : AppState) : AppState :=
  mkApp (questions st) (stats st) (filters st) v (detail st) (training st)
        (recentSolvedId st) (confettiPieces st).

Definition setRecentSolvedId (i : option Z) (st : AppState) : AppState :=
  mkApp (questions st) (stats st) (filters st) (view st) (detail st)
        (training st) i (confettiPieces st).

Definition setConfettiPieces (n : nat) (st : AppState) : AppState :=
  mkApp (questions st) (stats st) (filters st) (view st) (detail st)
        (training st) (recentSolvedId st) n.

Definition setSelectedQuestion (q : option Question) : AppState -> AppState :=
  on_detail (fun d => mkDetail q (startTime d) (showHint d) (showSolution d)
                               (showAnswer d) (infoMessage d)).

Definition setStartTime (t : option Z) : AppState -> AppState :=
  on_detail (fun d => mkDetail (selectedQuestion d) t (showHint d)
                               (showSolution d) (showAnswer d) (infoMessage d)).

Definition setShowHint (b : bool) : AppState -> AppState :=
  on_detail (fun d => mkDetail (selectedQuestion d) (startTime d) b
                               (showSolution d) (showAnswer d) (infoMessage d)).

Definition setShowSolution (b : bool) : AppState -> AppState :=
  on_detail (fun d => mkDetail (selectedQuestion d) (startTime d) (showHint d)
                               b (showAnswer d) (infoMessage d)).

Definition setShowAnswer (b : bool) : AppState -> AppState :=
  on_detail (fun d => mkDetail (selectedQuestion d) (startTime d) (showHint d)
                               (showSolution d) b (infoMessage d)).

Definition setInfoMessage (m : option Message) : AppState -> AppState :=
  on_detail (fun d => mkDetail (selectedQuestion d) (startTime d) (showHint d)
                               (showSolution d) (showAnswer d) m).

Definition setTrainingQuestion (q : option Question) : AppState -> AppState :=
  on_training (fun t =>
    mkTraining q (trainingModeRunning t) (trainingStartTime t)
               (trainingElapsedSec t) (trainingShowHint t)
               (trainingShowSolution t) (trainingShowAnswer t)
               (trainingInfoMessage t)).

Definition setTrainingModeRunning (b : bool) : AppState -> AppState :=
  on_training (fun t =>
    mkTraining (trainingQuestion t) b (trainingStartTime t)
               (trainingElapsedSec t) (trainingShowHint t)
               (trainingShowSolution t) (trainingShowAnswer t)
               (trainingInfoMessage t)).

Definition setTrainingStartTime (s : option Z) : AppState -> AppState :=
  on_training (fun t =>
    mkTraining (trainingQuestion t) (trainingModeRunning t) s
               (trainingElapsedSec t) (trainingShowHint t)
               (trainingShowSolution t) (trainingShowAnswer t)
               (trainingInfoMessage t)).

Definition setTrainingElapsedSec (n : Z) : AppState -> AppState :=
  on_training (fun t =>
    mkTraining (trainingQuestion t) (trainingModeRunning t)
               (trainingStartTime t) n (trainingShowHint t)
               (trainingShowSolution t) (trainingShowAnswer t)
               (trainingInfoMessage t)).

Definition setTrainingShowHint (b : bool) : AppState -> AppState :=
  on_training (fun t =>
    mkTraining (trainingQuestion t) (trainingModeRunning t)
               (trainingStartTime t) (trainingElapsedSec t) b
               (trainingShowSolution t) (trainingShowAnswer t)
               (trainingInfoMessage t)).

Definition setTrainingShowSolution (b : bool) : AppState -> AppState :=
  on_training (fun t =>
    mkTraining (trainingQuestion t) (trainingModeRunning t)
               (trainingStartTime t) (trainingElapsedSec t)
               (trainingShowHint t) b (trainingShowAnswer t)
               (trainingInfoMessage t)).

Definition setTrainingShowAnswer (b : bool) : AppState -> AppState :=
  on_training (fun t =>
    mkTraining (trainingQuestion t) (trainingModeRunning t)
               (trainingStartTime t) (trainingElapsedSec t)
               (trainingShowHint t) (trainingShowSolution t) b
               (trainingInfoMessage t)).

Definition setTrainingInfoMessage (m : option Message) : AppState -> AppState :=
  on_training (fun t =>
    mkTraining (trainingQuestion t) (trainingModeRunning t)
               (trainingStartTime t) (trainingElapsedSec t)
               (trainingShowHint t) (trainingShowSolution t)
               (trainingShowAnswer t) m).

(** ** The remote service and the handler monad

    A promise of [api.ts] either resolves or rejects with an [Error] whose
    [message] the handlers show.  [World] holds what one run of a handler
    receives from outside: its reads of [Date.now()], its draw of
    [Math.random()] and the replies of the service. *)

Inductive Outcome (A : Type) :=
| Resolved (a : A)
| Rejected (message : string).
Arguments Resolved {A} a.
Arguments Rejected {A} message.

Inductive Call :=
| UpdateProgress (questionId time_spent_seconds : Z) (solved : bool)
| FetchQuestions
| FetchStats.

Record World := mkWorld {
  clockFirst : Z;
  clockSecond : Z;
  randomDraw : Q;
  updateProgressReply : Outcome unit;
  fetchQuestionsReply : Outcome (list Question);
  fetchStatsReply : Outcome Stats
}.

(** A computation writes the state, may reject, and logs its calls. *)
Definition M (A : Type) : Type :=
  AppState -> Outcome A * AppState * list Call.

#[global] Instance M_ret : MRet M :=
  fun A a st => (Resolved a, st, []).

#[global] Instance M_bind : MBind M :=
  fun A B k m st =>
    match m st with
    | (Resolved a, st1, calls1) =>
        match k a st1 with
        | (r, st2, calls2) => (r, st2, calls1 ++ calls2)
        end
    | (Rejected e, st1, calls1) => (Rejected e, st1, calls1)
    end.

(** [try { body } catch (err) { handler(err.message) }]. *)
Definition try_catch {A} (body : M A) (handler : string -> M A) : M A :=
  fun st =>
    match body st with
    | (Resolved a, st1, calls1) => (Resolved a, st1, calls1)
    | (Rejected e, st1, calls1) =>
        match handler e st1 with
        | (r, st2, calls2) => (r, st2, calls1 ++ calls2)
        end
    end.

(** A setter call. *)
Definition write (f : AppState -> AppState) : M unit :=
  fun st => (Resolved tt, f st, []).

Definition skip : M unit := mret tt.

(** The state and the calls a handler leaves behind. *)
Definition run {A} (m : M A) (st : AppState) : AppState * list Call :=
  match m st with (_, st1, calls) => (st1, calls) end.

Definition updateProgress (w : World) (questionId seconds : Z) (solved : bool)
    : M unit :=
  fun st => (updateProgressReply w, st, [UpdateProgress questionId seconds solved]).

Definition fetchQuestions (w : World) : M (list Question) :=
  fun st => (fetchQuestionsReply w, st, [FetchQuestions]).

Definition fetchStats (w : World) : M Stats :=
  fun st => (fetchStatsReply w, st, [FetchStats]).

(** [qs.find((q) => q.id === current.id)], then the setter when found. *)
Definition refresh_current (current : option Question) (qs : list Question)
    (set : option Question -> AppState -> AppState) : M unit :=
  match current with
  | Some c =>
      match List.find (fun q => id q =? id c) qs with
      | Some updated => write (set (Some updated))
      | None => skip
      end
  | None => skip
  end.

(** [reloadQuestions] (App.tsx 204-220), in the closure of the render [st0]. *)
Definition reloadQuestions (w : World) (st0 : AppState) : M unit :=
  qs ← fetchQuestions w;
  write (setQuestions qs);;
  refresh_current (selectedQuestion (detail st0)) qs setSelectedQuestion;;
  refresh_current (trainingQuestion (training st0)) qs setTrainingQuestion.

(** [reloadStats] (App.tsx 222-225). *)
Definition reloadStats (w : World) : M unit :=
  s ← fetchStats w;
  write (setStats (Some s)).

(** [triggerSolvedPulse] (App.tsx 348-357); the timeout that clears the
    cell 1200 ms later is a later event. *)
Definition triggerSolvedPulse (i : Z) : M unit :=
  write (setRecentSolvedId (Some i)).

(** [spawnConfetti] (App.tsx 359-382): 28 pieces, whose random geometry is
    not kept. *)
Definition spawnConfetti : M unit :=
  write (setConfettiPieces 28).

Definition celebrate (solved : bool) (i : Z) : M unit :=
  if solved then triggerSolvedPulse i;; spawnConfetti else skip.

(** ** Detail session *)

(** [handleSelectQuestion] (App.tsx 401-413). *)
Definition handleSelectQuestion (now : Z) (q : Question) (st0 : AppState)
    : AppState :=
  let same :=
    match selectedQuestion (detail st0) with
    | Some sq => id sq =? id q
    | None => false
    end in
  if same then setStartTime (Some now) st0
  else
    setInfoMessage None
      (setShowAnswer false
        (setShowSolution false
          (setShowHint false
            (setStartTime (Some now)
              (setSelectedQuestion (Some q) st0))))).

(** [handleMarkSolved] (App.tsx 415-442). *)
Definition handleMarkSolved (w : World) (solved : bool) (st0 : AppState)
    : AppState * list Call :=
  match selectedQuestion (detail st0) with
  | None => (st0, [])
  | Some sq =>
      if (solved && is_solved sq)%bool
      then (setInfoMessage (Some MsgAlreadySolved) st0, [])
      else
        let d := deltaSec (clockFirst w) (startTime (detail st0)) in
        run
          (try_catch
             (updateProgress w (id sq) d solved;;
              reloadQuestions w st0;;
              reloadStats w;;
              celebrate solved (id sq);;
              write (setInfoMessage
                       (Some (if solved then MsgMarkedSolved d
                              else MsgAttemptSaved d)));;
              write (setStartTime (Some (clockSecond w))))
             (fun message =>
                write (setInfoMessage (Some (MsgSaveError message)))))
          st0
  end.

(** ** Training session *)

(** [startTrainingSession] (App.tsx 455-483).  The catalog the selection
    reads is the one of the closure, also after [reloadQuestions]. *)
Definition startTrainingSession (w : World) (st0 : AppState)
    : AppState * list Call :=
  run
    (write (setView ViewTraining);;
     write (setTrainingInfoMessage None);;
     loaded ←
       match questions st0 with
       | [] =>
           try_catch
             (reloadQuestions w st0;; mret true)
             (fun _ =>
                write (setTrainingInfoMessage (Some MsgLoadFailed));;
                mret false)
       | _ :: _ => mret true
       end;
     if loaded : bool then
       match pickRandomTrainingQuestion (questions st0) (randomDraw w) with
       | None =>
           write (setTrainingModeRunning false);;
           write (setTrainingQuestion None);;
           write (setTrainingInfoMessage (Some MsgNoQuestions))
       | Some q =>
           write (setTrainingQuestion (Some q));;
           write (setTrainingModeRunning true);;
           write (setTrainingStartTime (Some (clockFirst w)));;
           write (setTrainingElapsedSec 0);;
           write (setTrainingShowHint false);;
           write (setTrainingShowSolution false);;
           write (setTrainingShowAnswer false)
       end
     else skip)
    st0.

(** The callback of the interval of the timer effect (App.tsx 497-509);
    the effect installs it only when [trainingModeRunning] holds and
    [trainingStartTime] is truthy (neither [null] nor [0]). *)
Definition timer_installed (st : AppState) : bool :=
  (trainingModeRunning (training st)
   && match trainingStartTime (training st) with
      | Some s => negb (s =? 0)
      | None => false
      end)%bool.

Definition timerTick (now : Z) (st : AppState) : AppState :=
  match trainingStartTime (training st) with
  | Some s =>
      if timer_installed st
      then setTrainingElapsedSec (Z.max 0 (floor_seconds now s)) st
      else st
  | None => st
  end.

(** [handleTrainingMark] (App.tsx 512-554). *)
Definition handleTrainingMark (w : World) (solved : bool) (st0 : AppState)
    : AppState * list Call :=
  match trainingQuestion (training st0) with
  | None => (st0, [])
  | Some tq =>
      if (solved && is_solved tq)%bool
      then (setTrainingInfoMessage (Some MsgTrainingAlreadySolved) st0, [])
      else
        let d := deltaSec (clockFirst w) (trainingStartTime (training st0)) in
        run
          (saved ←
             try_catch
               (updateProgress w (id tq) d solved;;
                reloadQuestions w st0;;
                reloadStats w;;
                celebrate solved (id tq);;
                mret true)
               (fun message =>
                  write (setTrainingInfoMessage (Some (MsgSaveError message)));;
                  mret false);
           if saved : bool then
             match pickRandomTrainingQuestion (questions st0) (randomDraw w) with
             | None =>
                 write (setTrainingModeRunning false);;
                 write (setTrainingQuestion None);;
                 write (setTrainingStartTime None);;
                 write (setTrainingElapsedSec 0);;
                 write (setTrainingInfoMessage (Some MsgAllSolved))
             | Some next =>
                 write (setTrainingQuestion (Some next));;
                 write (setTrainingStartTime (Some (clockSecond w)));;
                 write (setTrainingElapsedSec 0);;
                 write (setTrainingShowHint false);;
                 write (setTrainingShowSolution false);;
                 write (setTrainingShowAnswer false);;
                 write (setTrainingInfoMessage None)
             end
           else skip)
          st0
  end.

(** ** The filter dimensions, as the specification words them

    These propositions follow section 4.1 of the specification; the
    theorems below compare them with [matchesFilters].  A label that is
    the empty string counts as no label, as everywhere in the component:
    an empty [difficulty], [company] or [search] of the criteria is an
    inactive dimension, and an empty [topic] of a question is a missing
    topic. *)

(** [needle] occurs in [hay]. *)
Definition is_substring (needle hay : string) : Prop :=
  exists pre post, hay = String.append pre (String.append needle post).

Section FilterDimensions.

Variable toLowerCase : string -> string.

Definition difficulty_dim (f : Filters.t) (q : Question) : Prop :=
  Filters.difficulty f = EmptyString \/
  difficulty q = Some (Filters.difficulty f).

Definition topics_dim (f : Filters.t) (q : Question) : Prop :=
  Filters.topics f = [] \/
  exists t, topic q = Some t /\ t <> EmptyString /\ In t (Filters.topics f).

Definition company_dim (f : Filters.t) (q : Question) : Prop :=
  Filters.company f = EmptyString \/ In (Filters.company f) (companies q).

Definition tags_dim (f : Filters.t) (q : Question) : Prop :=
  forall t, In t (Filters.tags f) -> In t (tags q).

Definition unsolved_dim (f : Filters.t) (q : Question) : Prop :=
  Filters.onlyUnsolved f = true -> is_solved q = false.

(** The text searched: title, one space, plain-text body. *)
Definition haystack (q : Question) : string :=
  haystack_of (or_empty (title q)) (or_empty (task_text q)).

Definition search_dim (f : Filters.t) (q : Question) : Prop :=
  Filters.search f = EmptyString \/
  is_substring (toLowerCase (Filters.search f)) (toLowerCase (haystack q)).

Definition all_dims (f : Filters.t) (q : Question) : Prop :=
  difficulty_dim f q /\ topics_dim f q /\ company_dim f q /\
  tags_dim f q /\ unsolved_dim f q /\ search_dim f q.

End FilterDimensions.

(** [g] keeps every constraint of [f] and may add some: a dimension that
    is active in [f] is at least as strict in [g].  For the topics, which
    are alternatives, stricter means fewer of them. *)
Definition at_least_as_strict (f g : Filters.t) : Prop :=
  (Filters.difficulty f = EmptyString \/
   Filters.difficulty g = Filters.difficulty f) /\
  (Filters.topics f = [] \/
   (Filters.topics g <> [] /\ incl (Filters.topics g) (Filters.topics f))) /\
  (Filters.company f = EmptyString \/
   Filters.company g = Filters.company f) /\
  incl (Filters.tags f) (Filters.tags g) /\
  (Filters.onlyUnsolved f = true -> Filters.onlyUnsolved g = true) /\
  (Filters.search f = EmptyString \/ Filters.search g = Filters.search f).

(** The criteria with the search box emptied. *)
Definition clear_search (f : Filters.t) : Filters.t :=
  Filters.mk (Filters.difficulty f) (Filters.company f) (Filters.topics f)
             (Filters.tags f) EmptyString (Filters.onlyUnsolved f).

(** ** Calls of a mark: what the two mark handlers send, given the replies *)

Definition mark_calls (w : World) (questionId seconds : Z) (solved : bool)
    : list Call :=
  UpdateProgress questionId seconds solved ::
  match updateProgressReply w with
  | Rejected _ => []
  | Resolved _ =>
      FetchQuestions ::
      match fetchQuestionsReply w with
      | Rejected _ => []
      | Resolved _ => [FetchStats]
      end
  end.

Definition is_submission (c : Call) : bool :=
  match c with UpdateProgress _ _ _ => true | _ => false end.

(** Number of progress submissions among the calls. *)
Definition submissions (calls : list Call) : nat :=
  List.length (List.filter is_submission calls).

Definition reveal_hidden_detail (d : DetailState) : Prop :=
  showHint d = false /\ showSolution d = false /\ showAnswer d = false.

Definition reveal_hidden_training (t : TrainingState) : Prop :=
  trainingShowHint t = false /\ trainingShowSolution t = false /\
  trainingShowAnswer t = false.

(** ** State transformers of the handlers

    What the setter calls of one stretch of a handler amount to; the run
    lemmas below show that the handlers compute them. *)

(** The effect of [refresh_current]. *)
Definition refreshed (current : option Question) (qs : list Question)
    (set : option Question -> AppState -> AppState) (st : AppState)
    : AppState :=
  match current with
  | Some c =>
      match List.find (fun q => id q =? id c) qs with
      | Some updated => set (Some updated) st
      | None => st
      end
  | None => st
  end.

(** The effect of a [reloadQuestions] that received [qs]. *)
Definition reloaded (qs : list Question) (st0 st : AppState) : AppState :=
  refreshed (trainingQuestion (training st0)) qs setTrainingQuestion
    (refreshed (selectedQuestion (detail st0)) qs setSelectedQuestion
       (setQuestions qs st)).

(** The effect of [celebrate]. *)
Definition celebrated (solved : bool) (i : Z) (st : AppState) : AppState :=
  if solved then setConfettiPieces 28 (setRecentSolvedId (Some i) st) else st.

(** The last stretch of [handleTrainingMark]: exhaustion or advance. *)
Definition advanced (w : World) (st0 st : AppState) : AppState :=
  match pickRandomTrainingQuestion (questions st0) (randomDraw w) with
  | None =>
      setTrainingInfoMessage (Some MsgAllSolved)
        (setTrainingElapsedSec 0
          (setTrainingStartTime None
            (setTrainingQuestion None
              (setTrainingModeRunning false st))))
  | Some next =>
      setTrainingInfoMessage None
        (setTrainingShowAnswer false
          (setTrainingShowSolution false
            (setTrainingShowHint false
              (setTrainingElapsedSec 0
                (setTrainingStartTime (Some (clockSecond w))
                  (setTrainingQuestion (Some next) st))))))
  end.

(** The last stretch of [startTrainingSession] when a question [q] was
    picked. *)
Definition started (w : World) (q : Question) (st : AppState) : AppState :=
  setTrainingShowAnswer false
    (setTrainingShowSolution false
      (setTrainingShowHint false
        (setTrainingElapsedSec 0
          (setTrainingStartTime (Some (clockFirst w))
            (setTrainingModeRunning true
              (setTrainingQuestion (Some q) st)))))).

(** The identifier of the question a session is on. *)
Definition current_id (q : option Question) : option Z := option_map id q.

(** ** Sample data

    The catalog of scenario A of the specification, filled in with the
    labels the examples below need. *)

Definition q_dice : Question :=
  mkQuestion 1 (Some "Dice Game"%string) None (Some "prob"%string)
             ["a"%string] (Some "easy"%string) ["JS"%string]
             (Some "Roll two dice"%string) None None None None false 0 None.

Definition q_blank : Question :=
  mkQuestion 2 None None None [] (Some "hard"%string) [] None None None None
             None true 1 None.

Definition catalog_A : list Question := [q_dice; q_blank].

Definition f_easy : Filters.t :=
  Filters.mk "easy"%string EmptyString [] [] EmptyString false.

Definition f_tags_ab : Filters.t :=
  Filters.mk EmptyString EmptyString [] ["a"%string; "b"%string] EmptyString
             false.

Definition f_topics_prob_geo : Filters.t :=
  Filters.mk EmptyString EmptyString ["prob"%string; "geo"%string] []
             EmptyString false.

Definition f_space : Filters.t :=
  Filters.mk EmptyString EmptyString [] [] " "%string false.

(** A question whose tags are not in order, one of them shared with
    [q_dice]. *)
Definition q_tagged : Question :=
  mkQuestion 3 (Some "Coins"%string) None (Some "games"%string)
             ["puzzle"%string; "Optiver"%string; "JS"%string; ""%string]
             None ["Optiver"%string] None None None None None false 0 None.

(** [q_dice] as the service reports it once it is solved. *)
Definition q_dice_solved : Question :=
  mkQuestion 1 (Some "Dice Game"%string) None (Some "prob"%string)
             ["a"%string] (Some "easy"%string) ["JS"%string]
             (Some "Roll two dice"%string) None None None None true 1 None.

(** A state with [q_dice] open in the detail view since 5000 ms and in
    training since 1000 ms, some reveal blocks shown. *)
Definition st_open : AppState :=
  mkApp catalog_A None defaultFilters ViewQuestions
        (mkDetail (Some q_dice) (Some 5000) true false true None)
        (mkTraining (Some q_dice) true (Some 1000) 0 true false true None)
        None 0%nat.

(** The same with the solved [q_blank] as the current question of both
    views. *)
Definition st_blank : AppState :=
  mkApp catalog_A None defaultFilters ViewQuestions
        (mkDetail (Some q_blank) (Some 5000) true false true None)
        (mkTraining (Some q_blank) true (Some 1000) 0 true false true None)
        None 0%nat.

(** A run in which the clock reads 4000 ms then 9000 ms, the draw is one
    half, and the service accepts the submission and reports [q_dice]
    solved. *)
Definition w_ok : World :=
  mkWorld 4000 9000 (1 # 2) (Resolved tt)
          (Resolved [q_dice_solved; q_blank]) (Resolved (mkStats 2 2 [])).

(** A run in which the service reports [catalog_A]. *)
Definition w_load : World :=
  mkWorld 0 0 (1 # 2) (Resolved tt) (Resolved catalog_A)
          (Resolved (mkStats 2 1 [])).

(** Runs in which the clock reads 12000 ms then 15000 ms, and 21000 ms
    then 24000 ms, the service accepts the submission and reports [q_dice]
    solved. *)
Definition w_mark : World :=
  mkWorld 12000 15000 (1 # 2) (Resolved tt)
          (Resolved [q_dice_solved; q_blank]) (Resolved (mkStats 2 2 [])).

Definition w_mark_again : World :=
  mkWorld 21000 24000 (1 # 2) (Resolved tt)
          (Resolved [q_dice_solved; q_blank]) (Resolved (mkStats 2 2 [])).

(** A run in which the service rejects the submission. *)
Definition w_down : World :=
  mkWorld 4000 9000 (1 # 2) (Rejected "503"%string)
          (Resolved [q_dice_solved; q_blank]) (Resolved (mkStats 2 2 [])).

(** ** Plain text to markup ([formatPlainTextToHtml] and the content of
       [QuestionText], App.tsx 69-88) *)

(** [s.replace(/c/g, by)] for a one-character pattern. *)
Fixpoint replace_all (c : ascii) (by_ : string) (s : string) : string :=
  match s with
  | EmptyString => EmptyString
  | String a rest =>
      if Ascii.eqb a c then String.append by_ (replace_all c by_ rest)
      else String a (replace_all c by_ rest)
  end.

(** The line feed, ["\n"]. *)
Definition newline : ascii := ascii_of_nat 10.

Definition formatPlainTextToHtml (text : string) : string :=
  let escaped :=
    replace_all ">" "&gt;"
      (replace_all "<" "&lt;" (replace_all "&" "&amp;" text)) in
  replace_all newline "<br/>" escaped.

(** The memoised [content] of [QuestionText]: the markup when there is
    some, else the plain text formatted, else nothing. *)
Definition questionContent (html text : option string) : string :=
  match html with
  | Some h => if truthy h then h else
      match text with
      | Some t => if truthy t then formatPlainTextToHtml t else EmptyString
      | None => EmptyString
      end
  | None =>
      match text with
      | Some t => if truthy t then formatPlainTextToHtml t else EmptyString
      | None => EmptyString
      end
  end.

(** What the four replacements make of one character. *)
Definition escape_char (c : ascii) : string :=
  if Ascii.eqb c "&" then "&amp;"
  else if Ascii.eqb c "<" then "&lt;"
  else if Ascii.eqb c ">" then "&gt;"
  else if Ascii.eqb c newline then "<br/>"
  else String c EmptyString.

Fixpoint escape_each (s : string) : string :=
  match s with
  | EmptyString => EmptyString
  | String c rest => String.append (escape_char c) (escape_each rest)
  end.

(** A character that the formatting leaves alone. *)
Definition plain_char (c : ascii) : bool :=
  negb (Ascii.eqb c "&" || Ascii.eqb c "<" || Ascii.eqb c ">"
        || Ascii.eqb c newline).

Fixpoint plain_text (s : string) : bool :=
  match s with
  | EmptyString => true
  | String c rest => plain_char c && plain_text rest
  end.

(** ** Facets ([uniqueDifficulties], [uniqueTopics], [uniqueTags],
       App.tsx 229-254) *)

(** [set.add(x)]: a value already in the set is not added again. *)
Definition set_add (seen : list string) (x : string) : list string :=
  if arr_includes seen x then seen else seen ++ [x].

(** [Array.from(new Set(xs))]: the values of [xs] in the order in which
    they first occur. *)
Definition set_from (xs : list string) : list string :=
  fold_left set_add xs [].

(** [xs.filter((x): x is string => Boolean(x))] on optional strings. *)
Fixpoint truthy_values (xs : list (option string)) : list string :=
  match xs with
  | [] => []
  | Some s :: rest =>
      if truthy s then s :: truthy_values rest else truthy_values rest
  | None :: rest => truthy_values rest
  end.

Definition uniqueDifficulties (questions : list Question) : list string :=
  set_from (truthy_values (List.map difficulty questions)).

(** [xs.sort()] without a comparator orders strings by their sequences of
    UTF-16 code units.  That order is a parameter, [codeUnitLeb a b] for
    "[a] is [b] or comes before it", so that nothing depends on how a
    [string] encodes the code units.  The values sorted here are distinct,
    and the ascending arrangement of distinct values in a total order is
    unique ([ascending_unique] below), so that insertion stands for
    whichever algorithm the engine runs. *)
Section Facets.

Variable codeUnitLeb : string -> string -> bool.

Fixpoint sort_insert (x : string) (sorted : list string) : list string :=
  match sorted with
  | [] => [x]
  | y :: rest =>
      if codeUnitLeb x y then x :: y :: rest else y :: sort_insert x rest
  end.

Definition js_sort (xs : list string) : list string :=
  fold_right sort_insert [] xs.

Definition uniqueTopics (questions : list Question) : list string :=
  js_sort (set_from (truthy_values (List.map topic questions))).

Definition uniqueTags (questions : list Question) : list string :=
  js_sort (set_from (List.filter truthy (List.flat_map tags questions))).

(** Strictly ascending: each value comes before the next and differs from
    it. *)
Definition ascending (xs : list string) : Prop :=
  Sorted (fun a b => codeUnitLeb a b = true /\ a <> b) xs.

End Facets.

(** What makes a comparison a total order. *)
Definition order_total (leb : string -> string -> bool) : Prop :=
  forall a b, leb a b = true \/ leb b a = true.

Definition order_transitive (leb : string -> string -> bool) : Prop :=
  forall a b c, leb a b = true -> leb b c = true -> leb a c = true.

Definition order_antisymmetric (leb : string -> string -> bool) : Prop :=
  forall a b, leb a b = true -> leb b a = true -> a = b.

(** [hasActiveFilters] (App.tsx 256-262). *)
Definition hasActiveFilters (f : Filters.t) : bool :=
  (truthy (Filters.difficulty f)
   || truthy (Filters.company f)
   || negb (Nat.eqb (List.length (Filters.topics f)) 0)
   || negb (Nat.eqb (List.length (Filters.tags f)) 0)
   || Filters.onlyUnsolved f
   || truthy (Filters.search f))%bool.

(** Criteria with one dimension set, the others as in [defaultFilters]. *)
Definition only_difficulty (d : string) : Filters.t :=
  Filters.mk d EmptyString [] [] EmptyString false.

Definition only_topic (t : string) : Filters.t :=
  Filters.mk EmptyString EmptyString [t] [] EmptyString false.

Definition only_tag (t : string) : Filters.t :=
  Filters.mk EmptyString EmptyString [] [t] EmptyString false.

(** ** Filter controls (the [setFilters] updaters of the sidebar, of the
       active-filter chips and of the rows, App.tsx 756-950 and 1003-1190)

    Each control passes an updater to [setFilters]; the checkbox of a
    picker computes [checked] from the criteria of its render, taken
    here to be the criteria the updater receives. *)

Inductive FilterAction :=
| TypeSearch (s : string)        (* search box *)
| ClearSearch                    (* chip of the active search *)
| ClearDifficulty                (* the all-difficulties chip *)
| PickDifficulty (d : string)    (* a difficulty chip, of the sidebar or of a row *)
| RowCompany (c : string)        (* company chip of a row *)
| ClearCompany                   (* chip of the active company *)
| RemoveTopic (t : string)       (* chip of a selected topic *)
| CheckTopic (t : string)        (* checkbox of the topic picker *)
| RowTopic (qt : option string)  (* topic chip of a row, [qt] its topic *)
| RemoveTag (t : string)         (* chip of a selected tag *)
| CheckTag (t : string)          (* checkbox of the tag picker, tag chip of a row *)
| SetOnlyUnsolved (b : bool)     (* the only-unsolved checkbox and its chip *)
| ResetFilters.                  (* the two reset buttons *)

(** [xs.filter((x) => x !== t)]. *)
Definition without (t : string) (xs : list string) : list string :=
  List.filter (fun x => negb (String.eqb x t)) xs.

(** [checked ? xs.filter((x) => x !== t) : [...xs, t]]. *)
Definition toggle_in (t : string) (xs : list string) : list string :=
  if arr_includes xs t then without t xs else xs ++ [t].

Definition updateFilters (a : FilterAction) (prev : Filters.t) : Filters.t :=
  match a with
  | TypeSearch s =>
      Filters.mk (Filters.difficulty prev) (Filters.company prev)
                 (Filters.topics prev) (Filters.tags prev) s
                 (Filters.onlyUnsolved prev)
  | ClearSearch =>
      Filters.mk (Filters.difficulty prev) (Filters.company prev)
                 (Filters.topics prev) (Filters.tags prev) EmptyString
                 (Filters.onlyUnsolved prev)
  | ClearDifficulty =>
      Filters.mk EmptyString (Filters.company prev) (Filters.topics prev)
                 (Filters.tags prev) (Filters.search prev)
                 (Filters.onlyUnsolved prev)
  | PickDifficulty d =>
      Filters.mk (if String.eqb (Filters.difficulty prev) d
                  then EmptyString else d)
                 (Filters.company prev) (Filters.topics prev)
                 (Filters.tags prev) (Filters.search prev)
                 (Filters.onlyUnsolved prev)
  | RowCompany c =>
      Filters.mk (Filters.difficulty prev)
                 (if String.eqb (Filters.company prev) c
                  then EmptyString else c)
                 (Filters.topics prev) (Filters.tags prev)
                 (Filters.search prev) (Filters.onlyUnsolved prev)
  | ClearCompany =>
      Filters.mk (Filters.difficulty prev) EmptyString (Filters.topics prev)
                 (Filters.tags prev) (Filters.search prev)
                 (Filters.onlyUnsolved prev)
  | RemoveTopic t =>
      Filters.mk (Filters.difficulty prev) (Filters.company prev)
                 (without t (Filters.topics prev)) (Filters.tags prev)
                 (Filters.search prev) (Filters.onlyUnsolved prev)
  | CheckTopic t =>
      Filters.mk (Filters.difficulty prev) (Filters.company prev)
                 (toggle_in t (Filters.topics prev)) (Filters.tags prev)
                 (Filters.search prev) (Filters.onlyUnsolved prev)
  | RowTopic qt =>
      Filters.mk (Filters.difficulty prev) (Filters.company prev)
                 (if arr_includes (Filters.topics prev) (or_empty qt)
                  then match qt with
                       | Some t => without t (Filters.topics prev)
                       | None => Filters.topics prev
                       end
                  else if truthy_opt qt
                       then Filters.topics prev ++ [or_empty qt]
                       else Filters.topics prev)
                 (Filters.tags prev) (Filters.search prev)
                 (Filters.onlyUnsolved prev)
  | RemoveTag t =>
      Filters.mk (Filters.difficulty prev) (Filters.company prev)
                 (Filters.topics prev) (without t (Filters.tags prev))
                 (Filters.search prev) (Filters.onlyUnsolved prev)
  | CheckTag t =>
      Filters.mk (Filters.difficulty prev) (Filters.company prev)
                 (Filters.topics prev) (toggle_in t (Filters.tags prev))
                 (Filters.search prev) (Filters.onlyUnsolved prev)
  | SetOnlyUnsolved b =>
      Filters.mk (Filters.difficulty prev) (Filters.company prev)
                 (Filters.topics prev) (Filters.tags prev)
                 (Filters.search prev) b
  | ResetFilters => defaultFilters
  end.

(** What the view offers: the topic picker lists [uniqueTopics]; the
    other controls are not restricted here. *)
Definition offered (codeUnitLeb : string -> string -> bool)
    (questions : list Question) (a : FilterAction) : Prop :=
  match a with
  | CheckTopic t => In t (uniqueTopics codeUnitLeb questions)
  | _ => True
  end.

(** The criteria after a sequence of actions, from [defaultFilters]. *)
Definition filters_after (actions : list FilterAction) : Filters.t :=
  fold_left (fun f a => updateFilters a f) actions defaultFilters.

(** ** The other handlers of [App] *)

(** The cells as [useState] initialises them (App.tsx 121-157). *)
Definition initialState : AppState :=
  mkApp [] None defaultFilters ViewQuestions
        (mkDetail None None false false false None)
        (mkTraining None false None 0 false false false None)
        None 0%nat.

Definition setFilters (f : Filters.t) (st : AppState) : AppState :=
  mkApp (questions st) (stats st) f (view st) (detail st) (training st)
        (recentSolvedId st) (confettiPieces st).

(** [stopTrainingSession] (App.tsx 485-494). *)
Definition stopTrainingSession (st : AppState) : AppState :=
  setTrainingInfoMessage None
    (setTrainingShowAnswer false
      (setTrainingShowSolution false
        (setTrainingShowHint false
          (setTrainingElapsedSec 0
            (setTrainingStartTime None
              (setTrainingQuestion None
                (setTrainingModeRunning false st))))))).

(** The two buttons of the top bar that leave training (App.tsx
    686-713): [setView(v); setTrainingModeRunning(false)]. *)
Definition openView (v : ViewMode) (st : AppState) : AppState :=
  setTrainingModeRunning false (setView v st).

(** The reveal buttons: [setShowHint((v) => !v)] and the like (App.tsx
    1246-1254 and 1360-1381). *)
Inductive RevealKind := Hint | Solution | Answer.

Definition toggleReveal (k : RevealKind) (st : AppState) : AppState :=
  match k with
  | Hint => setShowHint (negb (showHint (detail st))) st
  | Solution => setShowSolution (negb (showSolution (detail st))) st
  | Answer => setShowAnswer (negb (showAnswer (detail st))) st
  end.

Definition toggleTrainingReveal (k : RevealKind) (st : AppState) : AppState :=
  match k with
  | Hint => setTrainingShowHint (negb (trainingShowHint (training st))) st
  | Solution =>
      setTrainingShowSolution (negb (trainingShowSolution (training st))) st
  | Answer =>
      setTrainingShowAnswer (negb (trainingShowAnswer (training st))) st
  end.

(** The cells [handleLogout] writes (App.tsx 318-328), apart from the
    user and the token. *)
Definition handleLogout (st : AppState) : AppState :=
  setTrainingQuestion None
    (setTrainingModeRunning false
      (setFilters defaultFilters
        (setStartTime None
          (setSelectedQuestion None
            (setStats None
              (setQuestions [] st)))))).

(** The loading that follows [getCurrentUser] in the initial effect and in
    [handleAuthSubmit] (App.tsx 189-195 and 307-315): both reloads inside
    a [try] whose [catch] writes none of the cells modelled here. *)
Definition loadCatalog (w : World) (st0 : AppState) : AppState * list Call :=
  run (try_catch (reloadQuestions w st0;; reloadStats w) (fun _ => skip)) st0.

(** [handleResetProgress] (App.tsx 330-346).  [confirmed] is the answer
    to [window.confirm], [reply] the outcome of [resetProgress()].  The
    flag [resettingProgress] is raised at the start and lowered in the
    [finally], so that it is down whenever the handler is over. *)
Record ResetRun := mkResetRun {
  resetState : AppState;          (* the cells afterwards *)
  resetSent : bool;               (* whether [resetProgress()] was called *)
  resetCalls : list Call;         (* the reloads that followed *)
  resetAlert : option string      (* the message of [alert], if any *)
}.

Definition handleResetProgress (confirmed : bool) (reply : Outcome unit)
    (w : World) (st0 : AppState) : ResetRun :=
  if confirmed then
    match reply with
    | Rejected e => mkResetRun st0 true [] (Some e)
    | Resolved _ =>
        match (write (setSelectedQuestion None);;
               write (setTrainingModeRunning false);;
               write (setTrainingQuestion None);;
               reloadQuestions w st0;;
               reloadStats w) st0 with
        | (Resolved _, st1, calls) => mkResetRun st1 true calls None
        | (Rejected e, st1, calls) => mkResetRun st1 true calls (Some e)
        end
    end
  else mkResetRun st0 false [] None.

(** The timeouts of [triggerSolvedPulse] and [spawnConfetti] firing. *)
Definition pulseEnds (st : AppState) : AppState := setRecentSolvedId None st.
Definition confettiEnds (st : AppState) : AppState := setConfettiPieces 0 st.

(** ** The component as a transition system

    One event is one handler run to its end, or one firing of a timer. *)

Inductive AppEvent :=
| EvLoad (w : World)
| EvFilter (a : FilterAction)
| EvSelect (now : Z) (q : Question)
| EvReveal (k : RevealKind)
| EvMark (w : World) (solved : bool)
| EvOpenView (v : ViewMode)
| EvStartTraining (w : World)
| EvStopTraining
| EvTrainingReveal (k : RevealKind)
| EvTrainingMark (w : World) (solved : bool)
| EvTick (now : Z)
| EvPulseEnds
| EvConfettiEnds
| EvReset (confirmed : bool) (reply : Outcome unit) (w : World)
| EvLogout.

Definition step (e : AppEvent) (st : AppState) : AppState :=
  match e with
  | EvLoad w => fst (loadCatalog w st)
  | EvFilter a => setFilters (updateFilters a (filters st)) st
  | EvSelect now q => handleSelectQuestion now q st
  | EvReveal k => toggleReveal k st
  | EvMark w solved => fst (handleMarkSolved w solved st)
  | EvOpenView v => openView v st
  | EvStartTraining w => fst (startTrainingSession w st)
  | EvStopTraining => stopTrainingSession st
  | EvTrainingReveal k => toggleTrainingReveal k st
  | EvTrainingMark w solved => fst (handleTrainingMark w solved st)
  | EvTick now => timerTick now st
  | EvPulseEnds => pulseEnds st
  | EvConfettiEnds => confettiEnds st
  | EvReset confirmed reply w =>
      resetState (handleResetProgress confirmed reply w st)
  | EvLogout => handleLogout st
  end.

(** ** The component between awaits

    A handler that awaits a promise gives the control back until the
    promise settles, and the other handlers and the timers run meanwhile
    on the same cells.  What runs without interruption is a stretch: the
    code of a handler from its event, or from the settling of the promise
    it awaited, to its next [await] or to its end.  A stretch that follows
    an [await] still reads the cells through the closure of the render in
    which its handler was created (the argument [closure]), whatever was
    written since; a stretch that starts at an event reads the current
    state, the one of the render that displays the control.  [stretch st
    st'] lists the stretches of [App] with what they write; the guards
    that only decide whether a call is made write nothing and are left
    out, as are the orders in which the stretches of one handler follow
    each other: every sequence of stretches is allowed, which covers
    every interleaving of the handlers. *)

(** [setTrainingModeRunning(false); setTrainingQuestion(null);
    setTrainingInfoMessage(...)] of [startTrainingSession] (App.tsx
    469-473). *)
Definition no_questions (st : AppState) : AppState :=
  setTrainingInfoMessage (Some MsgNoQuestions)
    (setTrainingQuestion None (setTrainingModeRunning false st)).

(** The three writes of [handleResetProgress] between [resetProgress()]
    and the reloads (App.tsx 336-338). *)
Definition reset_cleared (st : AppState) : AppState :=
  setTrainingQuestion None
    (setTrainingModeRunning false (setSelectedQuestion None st)).

Inductive stretch : AppState -> AppState -> Prop :=
(* handlers without [await], and the timers *)
| stretch_filter a st :
    stretch st (setFilters (updateFilters a (filters st)) st)
| stretch_select now q st :
    stretch st (handleSelectQuestion now q st)
| stretch_reveal k st :
    stretch st (toggleReveal k st)
| stretch_open_view v st :
    stretch st (openView v st)
| stretch_stop st :
    stretch st (stopTrainingSession st)
| stretch_training_reveal k st :
    stretch st (toggleTrainingReveal k st)
| stretch_logout st :
    stretch st (handleLogout st)
| stretch_pulse_ends st :
    stretch st (pulseEnds st)
| stretch_confetti_ends st :
    stretch st (confettiEnds st)
(* the callback of an interval installed with the start time [s] *)
| stretch_tick now s st :
    stretch st (setTrainingElapsedSec (Z.max 0 (floor_seconds now s)) st)
(* [reloadQuestions] and [reloadStats] once their fetch has resolved *)
| stretch_reloaded qs closure st :
    stretch st (reloaded qs closure st)
| stretch_stats s st :
    stretch st (setStats (Some s) st)
(* [handleResetProgress] once [resetProgress()] has resolved *)
| stretch_reset st :
    stretch st (reset_cleared st)
(* [handleMarkSolved]: the notice, the end of the [try], the [catch] *)
| stretch_mark_notice sq st :
    selectedQuestion (detail st) = Some sq -> is_solved sq = true ->
    stretch st (setInfoMessage (Some MsgAlreadySolved) st)
| stretch_mark_done (solved : bool) i d now st :
    stretch st
      (setStartTime (Some now)
         (setInfoMessage
            (Some (if solved then MsgMarkedSolved d else MsgAttemptSaved d))
            (celebrated solved i st)))
| stretch_mark_failed e st :
    stretch st (setInfoMessage (Some (MsgSaveError e)) st)
(* [startTrainingSession]: with a catalog, run to its end; without one,
   up to the [await], then after the reload or in the [catch] *)
| stretch_start w st :
    questions st <> [] ->
    stretch st
      (let st1 := setTrainingInfoMessage None (setView ViewTraining st) in
       match pickRandomTrainingQuestion (questions st) (randomDraw w) with
       | Some q => started w q st1
       | None => no_questions st1
       end)
| stretch_start_wait st :
    questions st = [] ->
    stretch st (setTrainingInfoMessage None (setView ViewTraining st))
| stretch_start_loaded w closure st :
    questions closure = [] ->
    stretch st
      (match pickRandomTrainingQuestion (questions closure) (randomDraw w)
       with
       | Some q => started w q st
       | None => no_questions st
       end)
| stretch_start_failed st :
    stretch st (setTrainingInfoMessage (Some MsgLoadFailed) st)
(* [handleTrainingMark]: the notice, the end of the [try] with the
   selection that follows, the [catch] *)
| stretch_training_notice tq st :
    trainingQuestion (training st) = Some tq -> is_solved tq = true ->
    stretch st (setTrainingInfoMessage (Some MsgTrainingAlreadySolved) st)
| stretch_training_next w closure solved i st :
    stretch st (advanced w closure (celebrated solved i st))
| stretch_training_failed e st :
    stretch st (setTrainingInfoMessage (Some (MsgSaveError e)) st).

(** A sequence of stretches. *)
Inductive stretches : AppState -> AppState -> Prop :=
| stretches_none st : stretches st st
| stretches_more st1 st2 st3 :
    stretch st1 st2 -> stretches st2 st3 -> stretches st1 st3.

(** The states the component can be in, however the handlers that await
    interleave. *)
Inductive interleaved : AppState -> Prop :=
| interleaved_initial : interleaved initialState
| interleaved_stretch st st' :
    interleaved st -> stretch st st' -> interleaved st'.


(** ** The timer display ([formatTime], App.tsx 556-562) *)

(** [String(n)] for an integer [n]: its decimal digits, with a minus sign
    when it is negative. *)
Definition js_number_string (n : Z) : string :=
  NilEmpty.string_of_int (Z.to_int n).

(** [n < 10 ? `0${n}` : String(n)]. *)
Definition pad2 (n : Z) : string :=
  if n <? 10 then String "0" (js_number_string n) else js_number_string n.

(** [Math.floor(sec / 60)] is the floor division of [Z], [sec % 60] the
    remainder that has the sign of [sec]. *)
Definition formatTime (sec : Z) : string :=
  let m := sec / 60 in
  let s := Z.rem sec 60 in
  String.append (pad2 m) (String ":" (pad2 s)).

(** ** The credential ([getToken], [setToken], [logout] and the
       [Authorization] header of [apiFetch], api.ts 50-60, 109-117, 150-152)

    [localStorage] is a map from keys to strings. *)

Definition Storage : Type := string -> option string.

Definition getItem (k : string) (st : Storage) : option string := st k.

Definition setItem (k v : string) (st : Storage) : Storage :=
  fun k' => if String.eqb k' k then Some v else st k'.

Definition removeItem (k : string) (st : Storage) : Storage :=
  fun k' => if String.eqb k' k then None else st k'.

Definition getToken (st : Storage) : option string := getItem "token" st.

Definition setToken (token : option string) (st : Storage) : Storage :=
  match token with
  | Some t => if truthy t then setItem "token" t st else removeItem "token" st
  | None => removeItem "token" st
  end.

Definition logout (st : Storage) : Storage := setToken None st.

(** The [Authorization] header [apiFetch] and [fetchQuestions] add:
    [if (token) headers["Authorization"] = `Bearer ${token}`]. *)
Definition authorization (st : Storage) : option string :=
  match getToken st with
  | Some t => if truthy t then Some (String.append "Bearer " t) else None
  | None => None
  end.

(** ** Auxiliary notions of the further properties *)

(** What every reachable criteria satisfies. *)
Definition tidy (f : Filters.t) : Prop :=
  List.NoDup (Filters.topics f) /\ List.NoDup (Filters.tags f) /\
  ~ In EmptyString (Filters.topics f).

(** The integer a decimal string stands for. *)
Definition decimal_value (s : string) : option Z :=
  option_map Z.of_int (NilEmpty.int_of_string s).

(** The catalog loaded; training started on it; and training stopped
    while a mark awaited its reloads, of which the first then succeeded
    and the second failed. *)
Definition st_loaded : AppState := fst (loadCatalog w_load initialState).

Definition st_training : AppState :=
  fst (startTrainingSession w_ok st_loaded).

(** The catalog loaded and [q_dice] opened in the detail view. *)
Definition st_selected : AppState := handleSelectQuestion 4000 q_dice st_loaded.

Definition st_stopped_mid_mark : AppState :=
  setTrainingInfoMessage (Some (MsgSaveError "offline"))
    (reloaded [q_dice_solved; q_blank] st_training
       (stopTrainingSession st_training)).

(** * Properties *)

(** ** Strings and arrays *)

Lemma truthy_true (s : string) : truthy s = true <-> s <> EmptyString.
Proof. destruct s; simpl; split; congruence. Qed.

Lemma truthy_false (s : string) : truthy s = false <-> s = EmptyString.
Proof. destruct s; simpl; split; congruence. Qed.

Lemma arr_includes_In (arr : list string) (x : string) :
  arr_includes arr x = true <-> In x arr.
Proof.
  unfold arr_includes. rewrite existsb_exists. split.
  - intros (y & Hy & Heq). apply String.eqb_eq in Heq. now subst.
  - intros H. exists x. split; [assumption | apply String.eqb_refl].
Qed.

Lemma arr_includes_false (arr : list string) (x : string) :
  arr_includes arr x = false <-> ~ In x arr.
Proof.
  rewrite <- arr_includes_In. destruct (arr_includes arr x); split; congruence.
Qed.

Lemma prefix_app (needle hay : string) :
  String.prefix needle hay = true <->
  exists post, hay = String.append needle post.
Proof.
  revert hay. induction needle as [|c needle IH]; intros hay.
  - destruct hay; simpl; split; eauto.
  - destruct hay as [|c' hay]; simpl.
    + split; [discriminate | intros (post & H); discriminate].
    + destruct (ascii_dec c c') as [->|Hne].
      * rewrite IH. split; intros (post & H); exists post; congruence.
      * split; [discriminate | intros (post & H); congruence].
Qed.

Lemma str_includes_substring (hay needle : string) :
  str_includes hay needle = true <-> is_substring needle hay.
Proof.
  unfold is_substring. induction hay as [|c hay IH].
  - cbn [str_includes]. rewrite orb_false_r, prefix_app. split.
    + intros (post & H). exists EmptyString, post. exact H.
    + intros (pre & post & H). destruct pre; simpl in H; [eauto | discriminate].
  - cbn [str_includes]. rewrite orb_true_iff, IH, prefix_app. split.
    + intros [(post & H) | (pre & post & H)].
      * exists EmptyString, post. exact H.
      * exists (String c pre), post. simpl. now rewrite H.
    + intros (pre & post & H). destruct pre as [|c' pre]; simpl in H.
      * left. eauto.
      * right. exists pre, post. congruence.
Qed.

Lemma is_substring_refl (s : string) : is_substring s s.
Proof.
  exists EmptyString, EmptyString. simpl.
  induction s; simpl; congruence.
Qed.

Lemma length_append (a b : string) :
  String.length (String.append a b) = (String.length a + String.length b)%nat.
Proof. induction a; simpl; congruence. Qed.

(** Inside a one-character text only that character and the empty string
    occur. *)
Lemma is_substring_single (c : ascii) (s : string) :
  s <> EmptyString ->
  (is_substring s (String c EmptyString) <-> s = String c EmptyString).
Proof.
  intros Hne. split.
  - intros (pre & post & H).
    assert (Hlen := f_equal String.length H).
    rewrite !length_append in Hlen. simpl in Hlen.
    destruct s as [|a s]; [congruence|]. simpl in Hlen.
    destruct pre; [|simpl in Hlen; lia].
    destruct s; [|simpl in Hlen; lia].
    simpl in H. congruence.
  - intros ->. apply is_substring_refl.
Qed.

(** ** The filter engine *)

Section FilterFacts.

Variable toLowerCase : string -> string.

Lemma difficulty_reflect (f : Filters.t) (q : Question) :
  (truthy (Filters.difficulty f)
   && strict_neq (difficulty q) (Filters.difficulty f))%bool = false
  <-> difficulty_dim f q.
Proof.
  unfold difficulty_dim, strict_neq.
  rewrite andb_false_iff, truthy_false. split.
  - intros [H | H]; [now left | right].
    destruct (difficulty q) as [d|]; [|discriminate].
    apply negb_false_iff, String.eqb_eq in H. now subst.
  - intros [H | H]; [now left | right].
    rewrite H. apply negb_false_iff, String.eqb_refl.
Qed.

Lemma topics_reflect (f : Filters.t) (q : Question) :
  (negb (Nat.eqb (List.length (Filters.topics f)) 0)
   && (negb (truthy_opt (topic q))
       || negb (arr_includes (Filters.topics f) (or_empty (topic q)))))%bool
  = false
  <-> topics_dim f q.
Proof.
  unfold topics_dim. rewrite andb_false_iff, negb_false_iff, Nat.eqb_eq.
  rewrite orb_false_iff, !negb_false_iff, arr_includes_In. split.
  - intros [H | [Ht Hin]].
    + left. now apply length_zero_iff_nil.
    + right. destruct (topic q) as [t|]; [|discriminate].
      exists t. simpl in *. now rewrite <- truthy_true.
  - intros [H | (t & Ht & Hne & Hin)].
    + left. now rewrite H.
    + right. rewrite Ht. simpl. now rewrite truthy_true.
Qed.

Lemma company_reflect (f : Filters.t) (q : Question) :
  (truthy (Filters.company f)
   && negb (arr_includes (companies q) (Filters.company f)))%bool = false
  <-> company_dim f q.
Proof.
  unfold company_dim.
  now rewrite andb_false_iff, truthy_false, negb_false_iff, arr_includes_In.
Qed.

Lemma tags_reflect (f : Filters.t) (q : Question) :
  (negb (Nat.eqb (List.length (Filters.tags f)) 0)
   && negb (forallb (fun t => arr_includes (tags q) t) (Filters.tags f)))%bool
  = false
  <-> tags_dim f q.
Proof.
  unfold tags_dim.
  rewrite andb_false_iff, !negb_false_iff, Nat.eqb_eq, forallb_forall.
  split.
  - intros [H | H] t Hin.
    + apply length_zero_iff_nil in H. rewrite H in Hin. destruct Hin.
    + now apply arr_includes_In, H.
  - intros H. right. intros t Hin. now apply arr_includes_In, H.
Qed.

Lemma unsolved_reflect (f : Filters.t) (q : Question) :
  (Filters.onlyUnsolved f && is_solved q)%bool = false <-> unsolved_dim f q.
Proof.
  unfold unsolved_dim.
  destruct (Filters.onlyUnsolved f), (is_solved q); simpl; intuition congruence.
Qed.

Lemma search_reflect (f : Filters.t) (q : Question) :
  (truthy (Filters.search f)
   && negb (str_includes
              (toLowerCase
                 (haystack_of (or_empty (title q)) (or_empty (task_text q))))
              (toLowerCase (Filters.search f))))%bool = false
  <-> search_dim toLowerCase f q.
Proof.
  unfold search_dim, haystack.
  now rewrite andb_false_iff, truthy_false, negb_false_iff,
    str_includes_substring.
Qed.

(** The callback accepts exactly the questions that pass every
    dimension. *)
Lemma matchesFilters_all_dims (f : Filters.t) (q : Question) :
  matchesFilters toLowerCase f q = true <-> all_dims toLowerCase f q.
Proof.
  unfold all_dims.
  rewrite <- difficulty_reflect, <- topics_reflect, <- company_reflect,
    <- tags_reflect, <- unsolved_reflect, <- search_reflect.
  unfold matchesFilters.
  repeat match goal with
         | |- context [if ?c then false else _] => destruct c
         end; intuition congruence.
Qed.

Lemma filtered_In (qs : list Question) (f : Filters.t) (q : Question) :
  In q (filteredQuestions toLowerCase qs f) <->
  In q qs /\ all_dims toLowerCase f q.
Proof.
  unfold filteredQuestions.
  now rewrite filter_In, matchesFilters_all_dims.
Qed.

(** A stricter criteria passes no question that the laxer one
    rejects. *)
Lemma all_dims_anti (f g : Filters.t) (q : Question) :
  at_least_as_strict f g ->
  all_dims toLowerCase g q -> all_dims toLowerCase f q.
Proof.
  intros (Hd & Ht & Hc & Hg & Hu & Hs) (Gd & Gt & Gc & Gg & Gu & Gs).
  unfold all_dims. repeat split.
  - destruct Hd as [Hd | Hd]; [now left|].
    destruct Gd as [Gd | Gd].
    + left. congruence.
    + right. congruence.
  - destruct Ht as [Ht | [Hne Hincl]]; [now left|].
    destruct Gt as [Gt | (t & Gt1 & Gt2 & Gt3)]; [contradiction|].
    right. exists t. auto.
  - destruct Hc as [Hc | Hc]; [now left|].
    destruct Gc as [Gc | Gc].
    + left. congruence.
    + right. congruence.
  - intros t Hin. apply Gg, Hg, Hin.
  - intros H. apply Gu, Hu, H.
  - destruct Hs as [Hs | Hs]; [now left|].
    destruct Gs as [Gs | Gs].
    + left. congruence.
    + right. now rewrite <- Hs.
Qed.

End FilterFacts.

(** Filtering with a boolean callback keeps the order of the list. *)
Lemma filter_sublist {A} (p : A -> bool) (l : list A) :
  sublist (List.filter p l) l.
Proof.
  induction l as [|x l IH]; simpl.
  - constructor.
  - destruct (p x); now constructor.
Qed.

(** A callback that accepts less selects a sublist. *)
Lemma filter_sublist_mono {A} (p p' : A -> bool) (l : list A) :
  (forall x, p' x = true -> p x = true) ->
  sublist (List.filter p' l) (List.filter p l).
Proof.
  intros Himp. induction l as [|x l IH]; simpl.
  - constructor.
  - destruct (p' x) eqn:E'.
    + rewrite (Himp x E'). now constructor.
    + destruct (p x); [now constructor | exact IH].
Qed.

(** C2: a question is in the filtered result exactly when it is in the
    catalog and passes every dimension (difficulty, topics, company, tags,
    only-unsolved, search); the result is a sublist of the catalog, so the
    catalog's order is kept; and criteria that are at least as strict
    select a sublist of what the laxer criteria select. *)
Theorem filter_conjunction_stable_monotone
    (toLowerCase : string -> string) (qs : list Question) (f : Filters.t) :
  (forall q, In q (filteredQuestions toLowerCase qs f) <->
             In q qs /\ all_dims toLowerCase f q) /\
  sublist (filteredQuestions toLowerCase qs f) qs /\
  (forall g, at_least_as_strict f g ->
             sublist (filteredQuestions toLowerCase qs g)
                     (filteredQuestions toLowerCase qs f)).
Proof.
  split; [|split].
  - intros q. apply filtered_In.
  - apply filter_sublist.
  - intros g Hfg. apply filter_sublist_mono. intros q Hq.
    apply matchesFilters_all_dims.
    apply (all_dims_anti toLowerCase f g q Hfg).
    now apply matchesFilters_all_dims.
Qed.

Lemma filter_conjunction_stable_monotone_witness :
  at_least_as_strict defaultFilters f_easy /\
  sublist (filteredQuestions asciiToLowerCase catalog_A f_easy)
          (filteredQuestions asciiToLowerCase catalog_A defaultFilters).
Proof.
  assert (H : at_least_as_strict defaultFilters f_easy).
  { unfold at_least_as_strict; simpl.
    repeat split; auto using incl_nil_l; discriminate. }
  split; [exact H|].
  exact (proj2 (proj2 (filter_conjunction_stable_monotone
                         asciiToLowerCase catalog_A defaultFilters))
               f_easy H).
Defined.

(** C6: with the two distinct tags A and B selected, a question whose
    tags are just A is not in the result; with the topics X and Y
    selected, a question of the catalog whose topic is the label X (a
    non-empty string) is in the result as soon as it passes the five
    other dimensions. *)
Theorem tags_all_topics_any
    (toLowerCase : string -> string) (qs : list Question) (f : Filters.t)
    (q : Question) :
  (forall A B, Filters.tags f = [A; B] -> A <> B -> tags q = [A] ->
               ~ In q (filteredQuestions toLowerCase qs f)) /\
  (forall X Y, Filters.topics f = [X; Y] -> X <> EmptyString ->
               topic q = Some X -> In q qs ->
               difficulty_dim f q -> company_dim f q -> tags_dim f q ->
               unsolved_dim f q -> search_dim toLowerCase f q ->
               In q (filteredQuestions toLowerCase qs f)).
Proof.
  split.
  - intros A B Hf Hne Hq Hin.
    apply filtered_In in Hin. destruct Hin as (_ & _ & _ & _ & Ht & _).
    specialize (Ht B). rewrite Hf, Hq in Ht. simpl in Ht.
    destruct Ht as [Ht | []]; auto.
  - intros X Y Hf Hne Hq Hin Hd Hc Ht Hu Hs.
    apply filtered_In. split; [assumption|].
    repeat split; try assumption.
    right. exists X. rewrite Hf. simpl. auto.
Qed.

Lemma tags_all_topics_any_witness :
  ~ In q_dice (filteredQuestions asciiToLowerCase catalog_A f_tags_ab) /\
  In q_dice (filteredQuestions asciiToLowerCase catalog_A f_topics_prob_geo).
Proof.
  split.
  - apply (proj1 (tags_all_topics_any asciiToLowerCase catalog_A f_tags_ab
                    q_dice) "a"%string "b"%string);
      [reflexivity | discriminate | reflexivity].
  - apply (proj2 (tags_all_topics_any asciiToLowerCase catalog_A
                    f_topics_prob_geo q_dice) "prob"%string "geo"%string);
      try reflexivity; try discriminate.
    + simpl. auto.
    + left. reflexivity.
    + left. reflexivity.
    + intros t [].
    + left. reflexivity.
Defined.

(** C7, as stated, fails: the question [q_blank] has neither a title nor
    a plain-text body, the search [" "] is not empty, and the question is
    in the result. *)
Lemma blank_question_matches_space :
  Filters.search f_space <> EmptyString /\
  title q_blank = None /\ task_text q_blank = None /\
  In q_blank (filteredQuestions asciiToLowerCase [q_blank] f_space).
Proof.
  split; [discriminate|].
  split; [reflexivity|]. split; [reflexivity|].
  simpl. auto.
Qed.

(** C7, amended: for a non-empty search the search dimension keeps, of
    the questions the other dimensions keep, those whose lowered text
    (title, one space, plain-text body) contains the lowered search; for
    a question with neither title nor body that text is one space, and,
    when lowering leaves the space alone and the lowered search is not
    empty, such a question is kept exactly when the lowered search is one
    space. *)
Theorem search_over_spaced_text
    (toLowerCase : string -> string) (qs : list Question) (f : Filters.t)
    (q : Question) :
  Filters.search f <> EmptyString ->
  (In q (filteredQuestions toLowerCase qs f) <->
   In q (filteredQuestions toLowerCase qs (clear_search f)) /\
   is_substring (toLowerCase (Filters.search f)) (toLowerCase (haystack q)))
  /\
  (truthy_opt (title q) = false -> truthy_opt (task_text q) = false ->
   haystack q = String " " EmptyString /\
   (toLowerCase (String " " EmptyString) = String " " EmptyString ->
    toLowerCase (Filters.search f) <> EmptyString ->
    (In q (filteredQuestions toLowerCase qs f) <->
     In q (filteredQuestions toLowerCase qs (clear_search f)) /\
     toLowerCase (Filters.search f) = String " " EmptyString))).
Proof.
  intros Hs.
  assert (Hiff :
    In q (filteredQuestions toLowerCase qs f) <->
    In q (filteredQuestions toLowerCase qs (clear_search f)) /\
    is_substring (toLowerCase (Filters.search f)) (toLowerCase (haystack q))).
  { rewrite !filtered_In. unfold all_dims, search_dim.
    unfold difficulty_dim, topics_dim, company_dim, tags_dim, unsolved_dim.
    simpl. intuition congruence. }
  split; [exact Hiff|].
  intros Ht Hb.
  assert (Hhay : haystack q = String " " EmptyString).
  { unfold haystack, haystack_of.
    destruct (title q) as [t|]; simpl in Ht;
      [apply truthy_false in Ht; subst t|];
      (destruct (task_text q) as [b|]; simpl in Hb;
       [apply truthy_false in Hb; subst b|]); reflexivity. }
  split; [exact Hhay|].
  intros Hsp Hne. rewrite Hiff, Hhay, Hsp.
  now rewrite (is_substring_single " " _ Hne).
Qed.

Lemma search_over_spaced_text_witness :
  In q_blank (filteredQuestions asciiToLowerCase catalog_A f_space) <->
  In q_blank (filteredQuestions asciiToLowerCase catalog_A
                (clear_search f_space)) /\
  asciiToLowerCase (Filters.search f_space) = String " " EmptyString.
Proof.
  refine (proj2 (proj2 (search_over_spaced_text asciiToLowerCase catalog_A
                          f_space q_blank _) _ _) _ _);
    first [reflexivity | discriminate].
Defined.

(** ** Running the handlers *)

Lemma refresh_current_run current qs set st :
  refresh_current current qs set st
  = (Resolved tt, refreshed current qs set st, []).
Proof.
  unfold refresh_current, refreshed.
  destruct current as [c|]; [|reflexivity].
  destruct (find _ qs); reflexivity.
Qed.

Lemma reloadQuestions_run w st0 st :
  reloadQuestions w st0 st =
  match fetchQuestionsReply w with
  | Resolved qs => (Resolved tt, reloaded qs st0 st, [FetchQuestions])
  | Rejected e => (Rejected e, st, [FetchQuestions])
  end.
Proof.
  unfold reloadQuestions, reloaded, fetchQuestions, write, mbind, M_bind.
  destruct (fetchQuestionsReply w) as [qs|e]; [|reflexivity].
  now rewrite !refresh_current_run.
Qed.

Lemma reloadStats_run w st :
  reloadStats w st =
  match fetchStatsReply w with
  | Resolved s => (Resolved tt, setStats (Some s) st, [FetchStats])
  | Rejected e => (Rejected e, st, [FetchStats])
  end.
Proof.
  unfold reloadStats, fetchStats, write, mbind, M_bind.
  destruct (fetchStatsReply w); reflexivity.
Qed.

Lemma celebrate_run solved i st :
  celebrate solved i st = (Resolved tt, celebrated solved i st, []).
Proof. destruct solved; reflexivity. Qed.

(** [handleMarkSolved] past its two guards, by the replies received. *)
Lemma handleMarkSolved_run (w : World) (solved : bool) (st0 : AppState)
    (sq : Question) :
  selectedQuestion (detail st0) = Some sq ->
  (solved && is_solved sq)%bool = false ->
  let d := deltaSec (clockFirst w) (startTime (detail st0)) in
  handleMarkSolved w solved st0 =
  (match updateProgressReply w, fetchQuestionsReply w, fetchStatsReply w with
   | Rejected e, _, _ => setInfoMessage (Some (MsgSaveError e)) st0
   | Resolved _, Rejected e, _ => setInfoMessage (Some (MsgSaveError e)) st0
   | Resolved _, Resolved qs, Rejected e =>
       setInfoMessage (Some (MsgSaveError e)) (reloaded qs st0 st0)
   | Resolved _, Resolved qs, Resolved s =>
       setStartTime (Some (clockSecond w))
         (setInfoMessage
            (Some (if solved then MsgMarkedSolved d else MsgAttemptSaved d))
            (celebrated solved (id sq)
               (setStats (Some s) (reloaded qs st0 st0))))
   end,
   mark_calls w (id sq) d solved).
Proof.
  intros Hsel Hns d. unfold handleMarkSolved, mark_calls. rewrite Hsel, Hns.
  fold d.
  unfold run, try_catch, mbind, M_bind, updateProgress.
  rewrite reloadQuestions_run.
  destruct (updateProgressReply w) as [[]|e]; [|reflexivity].
  destruct (fetchQuestionsReply w) as [qs|e]; [|reflexivity].
  rewrite reloadStats_run.
  destruct (fetchStatsReply w) as [s|e]; [|reflexivity].
  rewrite celebrate_run. reflexivity.
Qed.

(** [handleTrainingMark] past its two guards, by the replies received. *)
Lemma handleTrainingMark_run (w : World) (solved : bool) (st0 : AppState)
    (tq : Question) :
  trainingQuestion (training st0) = Some tq ->
  (solved && is_solved tq)%bool = false ->
  let d := deltaSec (clockFirst w) (trainingStartTime (training st0)) in
  handleTrainingMark w solved st0 =
  (match updateProgressReply w, fetchQuestionsReply w, fetchStatsReply w with
   | Rejected e, _, _ => setTrainingInfoMessage (Some (MsgSaveError e)) st0
   | Resolved _, Rejected e, _ =>
       setTrainingInfoMessage (Some (MsgSaveError e)) st0
   | Resolved _, Resolved qs, Rejected e =>
       setTrainingInfoMessage (Some (MsgSaveError e)) (reloaded qs st0 st0)
   | Resolved _, Resolved qs, Resolved s =>
       advanced w st0
         (celebrated solved (id tq) (setStats (Some s) (reloaded qs st0 st0)))
   end,
   mark_calls w (id tq) d solved).
Proof.
  intros Hcur Hns d. unfold handleTrainingMark, mark_calls.
  rewrite Hcur, Hns. fold d.
  unfold run, try_catch, mbind, M_bind, updateProgress.
  rewrite reloadQuestions_run.
  destruct (updateProgressReply w) as [[]|e]; [|reflexivity].
  destruct (fetchQuestionsReply w) as [qs|e]; [|reflexivity].
  rewrite reloadStats_run.
  destruct (fetchStatsReply w) as [s|e]; [|reflexivity].
  rewrite celebrate_run. unfold advanced.
  destruct (pickRandomTrainingQuestion (questions st0) (randomDraw w));
    reflexivity.
Qed.

(** On a solved question, marking solved only posts the notice. *)
Lemma handleMarkSolved_solved (w : World) (st0 : AppState) (sq : Question) :
  selectedQuestion (detail st0) = Some sq -> is_solved sq = true ->
  handleMarkSolved w true st0
  = (setInfoMessage (Some MsgAlreadySolved) st0, []).
Proof. intros Hsel Hs. unfold handleMarkSolved. now rewrite Hsel, Hs. Qed.

Lemma handleTrainingMark_solved (w : World) (st0 : AppState) (tq : Question) :
  trainingQuestion (training st0) = Some tq -> is_solved tq = true ->
  handleTrainingMark w true st0
  = (setTrainingInfoMessage (Some MsgTrainingAlreadySolved) st0, []).
Proof. intros Hcur Hs. unfold handleTrainingMark. now rewrite Hcur, Hs. Qed.

Lemma mark_calls_submissions (w : World) (i d : Z) (solved : bool) :
  submissions (mark_calls w i d solved) = 1%nat.
Proof.
  unfold mark_calls, submissions.
  destruct (updateProgressReply w); [|reflexivity].
  destruct (fetchQuestionsReply w); reflexivity.
Qed.

Lemma submissions_app (c1 c2 : list Call) :
  submissions (c1 ++ c2) = (submissions c1 + submissions c2)%nat.
Proof. unfold submissions. now rewrite List.filter_app, List.length_app. Qed.

Lemma mark_calls_In (w : World) (i d : Z) (solved : bool) (j e : Z)
    (b : bool) :
  In (UpdateProgress j e b) (mark_calls w i d solved) ->
  j = i /\ e = d /\ b = solved.
Proof.
  unfold mark_calls.
  destruct (updateProgressReply w); [destruct (fetchQuestionsReply w)|];
    simpl; intuition congruence.
Qed.

(** ** Marking *)

Lemma deltaSec_floor (now : Z) (start : option Z) : 1 <= deltaSec now start.
Proof. unfold deltaSec. destruct start; lia. Qed.

Lemma deltaSec_early (now s : Z) : now <= s -> deltaSec now (Some s) = 1.
Proof.
  intros H. unfold deltaSec, round_seconds.
  assert ((now - s + 500) / 1000 <= 0).
  { apply Z.lt_succ_r. apply Z.div_lt_upper_bound; lia. }
  lia.
Qed.

Lemma handleMarkSolved_calls_cases (w : World) (solved : bool)
    (st0 : AppState) :
  snd (handleMarkSolved w solved st0) = [] \/
  exists sq, selectedQuestion (detail st0) = Some sq /\
    snd (handleMarkSolved w solved st0)
    = mark_calls w (id sq) (deltaSec (clockFirst w) (startTime (detail st0)))
                 solved.
Proof.
  destruct (selectedQuestion (detail st0)) as [sq|] eqn:Hsel.
  - destruct (solved && is_solved sq)%bool eqn:Hns.
    + left. unfold handleMarkSolved. now rewrite Hsel, Hns.
    + right. exists sq. split; [reflexivity|].
      now rewrite (handleMarkSolved_run w solved st0 sq Hsel Hns).
  - left. unfold handleMarkSolved. now rewrite Hsel.
Qed.

Lemma handleTrainingMark_calls_cases (w : World) (solved : bool)
    (st0 : AppState) :
  snd (handleTrainingMark w solved st0) = [] \/
  exists tq, trainingQuestion (training st0) = Some tq /\
    snd (handleTrainingMark w solved st0)
    = mark_calls w (id tq)
                 (deltaSec (clockFirst w) (trainingStartTime (training st0)))
                 solved.
Proof.
  destruct (trainingQuestion (training st0)) as [tq|] eqn:Hcur.
  - destruct (solved && is_solved tq)%bool eqn:Hns.
    + left. unfold handleTrainingMark. now rewrite Hcur, Hns.
    + right. exists tq. split; [reflexivity|].
      now rewrite (handleTrainingMark_run w solved st0 tq Hcur Hns).
  - left. unfold handleTrainingMark. now rewrite Hcur.
Qed.

Lemma refreshed_training_detail (current : option Question)
    (qs : list Question) (st : AppState) :
  detail (refreshed current qs setTrainingQuestion st) = detail st.
Proof.
  unfold refreshed. destruct current as [c|]; [|reflexivity].
  destruct (find _ qs); reflexivity.
Qed.

(** After a reload the detail view shows the fresh copy of its question
    when the catalog received has one. *)
Lemma reloaded_selected (qs : list Question) (st0 st : AppState)
    (c u : Question) :
  selectedQuestion (detail st0) = Some c ->
  List.find (fun q => id q =? id c) qs = Some u ->
  selectedQuestion (detail (reloaded qs st0 st)) = Some u.
Proof.
  intros Hsel Hfind. unfold reloaded.
  rewrite refreshed_training_detail. unfold refreshed.
  now rewrite Hsel, Hfind.
Qed.

(** On a solved question, marking solved posts the notice, makes no call
    and leaves everything else as it was: the question, the start time,
    the reveal flags, the other view and the catalog. *)
Lemma mark_on_solved_only_posts_notice (w : World) (st0 : AppState)
    (q : Question) :
  is_solved q = true ->
  (selectedQuestion (detail st0) = Some q ->
   let st1 := fst (handleMarkSolved w true st0) in
   snd (handleMarkSolved w true st0) = [] /\
   infoMessage (detail st1) = Some MsgAlreadySolved /\
   selectedQuestion (detail st1) = Some q /\
   startTime (detail st1) = startTime (detail st0) /\
   showHint (detail st1) = showHint (detail st0) /\
   showSolution (detail st1) = showSolution (detail st0) /\
   showAnswer (detail st1) = showAnswer (detail st0) /\
   training st1 = training st0 /\ questions st1 = questions st0) /\
  (trainingQuestion (training st0) = Some q ->
   let st1 := fst (handleTrainingMark w true st0) in
   snd (handleTrainingMark w true st0) = [] /\
   trainingInfoMessage (training st1) = Some MsgTrainingAlreadySolved /\
   trainingQuestion (training st1) = Some q /\
   trainingStartTime (training st1) = trainingStartTime (training st0) /\
   trainingModeRunning (training st1) = trainingModeRunning (training st0) /\
   trainingShowHint (training st1) = trainingShowHint (training st0) /\
   trainingShowSolution (training st1)
   = trainingShowSolution (training st0) /\
   trainingShowAnswer (training st1) = trainingShowAnswer (training st0) /\
   detail st1 = detail st0 /\ questions st1 = questions st0).
Proof.
  intros Hq. split.
  - intros Hsel st1. subst st1.
    rewrite (handleMarkSolved_solved w st0 q Hsel Hq). cbn.
    repeat split. exact Hsel.
  - intros Hcur st1. subst st1.
    rewrite (handleTrainingMark_solved w st0 q Hcur Hq). cbn.
    repeat split. exact Hcur.
Qed.

(** In the detail view a second mark as solved makes no call once the
    service accepted the first and answered the reload with a catalog in
    which the question is solved: [reloadQuestions] puts the fresh copy
    in the view. *)
Lemma detail_remark_makes_no_call (w1 w2 : World) (st0 : AppState)
    (q q' : Question) (qs : list Question) (s : Stats) :
  selectedQuestion (detail st0) = Some q -> is_solved q = false ->
  updateProgressReply w1 = Resolved tt ->
  fetchQuestionsReply w1 = Resolved qs ->
  fetchStatsReply w1 = Resolved s ->
  List.find (fun x => id x =? id q) qs = Some q' ->
  is_solved q' = true ->
  let st1 := fst (handleMarkSolved w1 true st0) in
  selectedQuestion (detail st1) = Some q' /\
  snd (handleMarkSolved w2 true st1) = [] /\
  infoMessage (detail (fst (handleMarkSolved w2 true st1)))
  = Some MsgAlreadySolved /\
  submissions
    (snd (handleMarkSolved w1 true st0) ++ snd (handleMarkSolved w2 true st1))
  = 1%nat.
Proof.
  intros Hsel Hq H1 H2 H3 Hfind Hq' st1.
  assert (Hns : (true && is_solved q)%bool = false) by now rewrite Hq.
  assert (Hsel' : selectedQuestion (detail st1) = Some q').
  { subst st1. rewrite (handleMarkSolved_run w1 true st0 q Hsel Hns).
    rewrite H1, H2, H3. cbn. now apply reloaded_selected with (c := q). }
  split; [exact Hsel'|].
  rewrite (handleMarkSolved_solved w2 st1 q' Hsel' Hq'). cbn [fst snd].
  split; [reflexivity|]. split; [reflexivity|].
  rewrite (handleMarkSolved_run w1 true st0 q Hsel Hns). cbn [snd].
  rewrite app_nil_r. apply mark_calls_submissions.
Qed.

(** C1: the catalog holds question 1, unsolved, and question 2, solved,
    and training is on question 1.  A first mark as solved is accepted
    and the reload reports question 1 solved; the selection that follows
    reads the catalog of the closure, in which question 1 is still the
    only unsolved question, and gives it again, as its old unsolved copy;
    the second mark passes the guard and submits again: two submissions
    for question 1 where one was due.  In the detail view, on the same
    replies, the first mark leaves the fresh copy in the view, the second
    posts the notice without a call, and one submission is made. *)
Theorem training_remark_submits_again :
  let first := handleTrainingMark w_mark true st_training in
  let second := handleTrainingMark w_mark_again true (fst first) in
  let dfirst := handleMarkSolved w_mark true st_selected in
  let dsecond := handleMarkSolved w_mark_again true (fst dfirst) in
  (questions st_training = [q_dice; q_blank] /\
   trainingQuestion (training st_training) = Some q_dice /\
   is_solved q_dice = false /\ is_solved q_blank = true) /\
  (snd first = [UpdateProgress 1 8 true; FetchQuestions; FetchStats] /\
   questions (fst first) = [q_dice_solved; q_blank] /\
   trainingQuestion (training (fst first)) = Some q_dice) /\
  (snd second = [UpdateProgress 1 6 true; FetchQuestions; FetchStats] /\
   submissions (snd first ++ snd second) = 2%nat) /\
  (selectedQuestion (detail st_selected) = Some q_dice /\
   snd dfirst = [UpdateProgress 1 8 true; FetchQuestions; FetchStats] /\
   selectedQuestion (detail (fst dfirst)) = Some q_dice_solved /\
   snd dsecond = [] /\
   infoMessage (detail (fst dsecond)) = Some MsgAlreadySolved /\
   submissions (snd dfirst ++ snd dsecond) = 1%nat).
Proof. repeat split. Qed.

(** C3: every progress submission sent by a mark of the detail view or of
    training carries at least 1 second, and exactly 60 when the start
    time is missing; a clock that has not moved past the start gives
    1. *)
Theorem submitted_seconds_at_least_one (w : World) (solved : bool)
    (st0 : AppState) (i d : Z) (b : bool) :
  (In (UpdateProgress i d b) (snd (handleMarkSolved w solved st0)) ->
   1 <= d /\
   (startTime (detail st0) = None -> d = 60) /\
   (forall s, startTime (detail st0) = Some s -> clockFirst w <= s -> d = 1))
  /\
  (In (UpdateProgress i d b) (snd (handleTrainingMark w solved st0)) ->
   1 <= d /\
   (trainingStartTime (training st0) = None -> d = 60) /\
   (forall s, trainingStartTime (training st0) = Some s ->
              clockFirst w <= s -> d = 1)).
Proof.
  split; intros Hin.
  - destruct (handleMarkSolved_calls_cases w solved st0)
      as [Hnil | (sq & _ & Hcalls)].
    + rewrite Hnil in Hin. destruct Hin.
    + rewrite Hcalls in Hin. apply mark_calls_In in Hin.
      destruct Hin as (_ & -> & _).
      split; [apply deltaSec_floor|]. split.
      * now intros ->.
      * intros s -> Hle. now apply deltaSec_early.
  - destruct (handleTrainingMark_calls_cases w solved st0)
      as [Hnil | (tq & _ & Hcalls)].
    + rewrite Hnil in Hin. destruct Hin.
    + rewrite Hcalls in Hin. apply mark_calls_In in Hin.
      destruct Hin as (_ & -> & _).
      split; [apply deltaSec_floor|]. split.
      * now intros ->.
      * intros s -> Hle. now apply deltaSec_early.
Qed.

Lemma submitted_seconds_at_least_one_witness :
  In (UpdateProgress 1 1 true) (snd (handleMarkSolved w_ok true st_open)) /\
  1 <= 1 /\
  In (UpdateProgress 1 3 false) (snd (handleTrainingMark w_ok false st_open)) /\
  1 <= 3.
Proof.
  assert (H1 : In (UpdateProgress 1 1 true)
                  (snd (handleMarkSolved w_ok true st_open))).
  { vm_compute. left. reflexivity. }
  assert (H2 : In (UpdateProgress 1 3 false)
                  (snd (handleTrainingMark w_ok false st_open))).
  { vm_compute. left. reflexivity. }
  split; [exact H1|]. split.
  - exact (proj1 (proj1 (submitted_seconds_at_least_one w_ok true st_open
                           1 1 true) H1)).
  - split; [exact H2|].
    exact (proj1 (proj2 (submitted_seconds_at_least_one w_ok false st_open
                           1 3 false) H2)).
Defined.

(** C5: when the service rejects the submission of a training mark, the
    handler leaves the state it found with only the error shown: the
    training question, the start timestamp, the elapsed counter and the
    running flag are as before, and no other call is made, so that a
    second mark submits for the same question with the seconds counted
    from the same start.  The mark of the detail view does the same with
    its own cells. *)
Theorem rejected_submission_stays (w : World) (solved : bool)
    (st0 : AppState) (q : Question) (e : string) :
  updateProgressReply w = Rejected e ->
  (solved && is_solved q)%bool = false ->
  (trainingQuestion (training st0) = Some q ->
   let st1 := fst (handleTrainingMark w solved st0) in
   st1 = setTrainingInfoMessage (Some (MsgSaveError e)) st0 /\
   trainingInfoMessage (training st1) = Some (MsgSaveError e) /\
   trainingQuestion (training st1) = Some q /\
   trainingStartTime (training st1) = trainingStartTime (training st0) /\
   trainingElapsedSec (training st1) = trainingElapsedSec (training st0) /\
   trainingModeRunning (training st1) = trainingModeRunning (training st0) /\
   submissions (snd (handleTrainingMark w solved st0)) = 1%nat /\
   (forall w', snd (handleTrainingMark w' solved st1)
               = mark_calls w' (id q)
                   (deltaSec (clockFirst w')
                             (trainingStartTime (training st0)))
                   solved)) /\
  (selectedQuestion (detail st0) = Some q ->
   let st1 := fst (handleMarkSolved w solved st0) in
   st1 = setInfoMessage (Some (MsgSaveError e)) st0 /\
   infoMessage (detail st1) = Some (MsgSaveError e) /\
   selectedQuestion (detail st1) = Some q /\
   startTime (detail st1) = startTime (detail st0) /\
   submissions (snd (handleMarkSolved w solved st0)) = 1%nat).
Proof.
  intros Hrej Hns. split; intros Hcur st1; subst st1.
  - rewrite (handleTrainingMark_run w solved st0 q Hcur Hns), Hrej.
    cbn [fst snd]. rewrite mark_calls_submissions.
    repeat split; try reflexivity; try exact Hcur.
    intros w'.
    now rewrite (handleTrainingMark_run w' solved
                   (setTrainingInfoMessage (Some (MsgSaveError e)) st0) q
                   Hcur Hns).
  - rewrite (handleMarkSolved_run w solved st0 q Hcur Hns), Hrej.
    cbn [fst snd]. rewrite mark_calls_submissions.
    repeat split; try reflexivity. exact Hcur.
Qed.

Lemma rejected_submission_stays_witness :
  fst (handleTrainingMark w_down true st_open)
  = setTrainingInfoMessage (Some (MsgSaveError "503"%string)) st_open /\
  fst (handleMarkSolved w_down true st_open)
  = setInfoMessage (Some (MsgSaveError "503"%string)) st_open.
Proof.
  split.
  - exact (proj1 (proj1 (rejected_submission_stays w_down true st_open q_dice
                           "503"%string eq_refl eq_refl) eq_refl)).
  - exact (proj1 (proj2 (rejected_submission_stays w_down true st_open q_dice
                           "503"%string eq_refl eq_refl) eq_refl)).
Defined.

(** C10: with [solved = false] and a current question, solved or not,
    both mark handlers send one progress submission for that question,
    with [solved = false] and the clamped seconds, as their first call;
    when it is accepted the catalog is fetched next, and when that
    succeeds the statistics. *)
Theorem attempt_always_submits (w : World) (st0 : AppState) (q : Question) :
  (selectedQuestion (detail st0) = Some q ->
   let d := deltaSec (clockFirst w) (startTime (detail st0)) in
   let calls := snd (handleMarkSolved w false st0) in
   (exists rest, calls = UpdateProgress (id q) d false :: rest) /\
   submissions calls = 1%nat /\
   (forall qs, updateProgressReply w = Resolved tt ->
               fetchQuestionsReply w = Resolved qs ->
               calls = [UpdateProgress (id q) d false; FetchQuestions;
                        FetchStats])) /\
  (trainingQuestion (training st0) = Some q ->
   let d := deltaSec (clockFirst w) (trainingStartTime (training st0)) in
   let calls := snd (handleTrainingMark w false st0) in
   (exists rest, calls = UpdateProgress (id q) d false :: rest) /\
   submissions calls = 1%nat /\
   (forall qs, updateProgressReply w = Resolved tt ->
               fetchQuestionsReply w = Resolved qs ->
               calls = [UpdateProgress (id q) d false; FetchQuestions;
                        FetchStats])).
Proof.
  split; intros Hcur d calls; subst d calls.
  - rewrite (handleMarkSolved_run w false st0 q Hcur eq_refl). cbn [snd].
    split; [unfold mark_calls; eauto|].
    split; [apply mark_calls_submissions|].
    intros qs H1 H2. unfold mark_calls. now rewrite H1, H2.
  - rewrite (handleTrainingMark_run w false st0 q Hcur eq_refl). cbn [snd].
    split; [unfold mark_calls; eauto|].
    split; [apply mark_calls_submissions|].
    intros qs H1 H2. unfold mark_calls. now rewrite H1, H2.
Qed.

Lemma attempt_always_submits_witness :
  is_solved q_blank = true /\
  snd (handleMarkSolved w_ok false st_blank)
  = [UpdateProgress 2 1 false; FetchQuestions; FetchStats] /\
  snd (handleTrainingMark w_ok false st_blank)
  = [UpdateProgress 2 3 false; FetchQuestions; FetchStats].
Proof.
  split; [reflexivity|]. split.
  - exact (proj2 (proj2 (proj1 (attempt_always_submits w_ok st_blank q_blank)
                           eq_refl))
             [q_dice_solved; q_blank] eq_refl eq_refl).
  - exact (proj2 (proj2 (proj2 (attempt_always_submits w_ok st_blank q_blank)
                           eq_refl))
             [q_dice_solved; q_blank] eq_refl eq_refl).
Defined.

(** ** The training timer *)

(** C9, as stated, fails: training runs since 1000 ms, the clock reads
    0 ms, the floor of the difference is -1 second and the counter is set
    to 0. *)
Lemma timer_before_start_shows_zero :
  trainingModeRunning (training st_open) = true /\
  trainingStartTime (training st_open) = Some 1000 /\
  floor_seconds 0 1000 = -1 /\
  trainingElapsedSec (training (timerTick 0 st_open)) = 0.
Proof. repeat split. Qed.

(** C9, amended: while training runs with a start timestamp [s] (other
    than 0, for which no ticker is installed), a tick at time [now] sets
    the counter to the floor of [(now - s) / 1000], or to 0 when that is
    negative; so the counter is the floor whenever [now] is not before
    [s], and 0 whenever it is. *)
Theorem timer_tick_floor_clamped (now s : Z) (st : AppState) :
  trainingModeRunning (training st) = true ->
  trainingStartTime (training st) = Some s ->
  s <> 0 ->
  let shown := trainingElapsedSec (training (timerTick now st)) in
  shown = Z.max 0 (floor_seconds now s) /\
  (s <= now -> shown = floor_seconds now s) /\
  (now < s -> shown = 0).
Proof.
  intros Hrun Hstart Hs shown. subst shown.
  unfold timerTick, timer_installed. rewrite Hstart, Hrun.
  apply Z.eqb_neq in Hs. rewrite Hs. cbn.
  unfold floor_seconds. split; [reflexivity|]. split; intros H.
  - assert (0 <= (now - s) / 1000) by (apply Z.div_pos; lia). lia.
  - assert ((now - s) / 1000 < 0) by (apply Z.div_lt_upper_bound; lia). lia.
Qed.

Lemma timer_tick_floor_clamped_witness :
  trainingElapsedSec (training (timerTick 4999 st_open))
  = Z.max 0 (floor_seconds 4999 1000) /\
  floor_seconds 4999 1000 = 3.
Proof.
  split; [|reflexivity].
  exact (proj1 (timer_tick_floor_clamped 4999 1000 st_open eq_refl eq_refl
                  ltac:(discriminate))).
Defined.

(** ** Reveal flags *)

(** [startTrainingSession], by the catalog of the closure and the reply
    received. *)
Lemma startTrainingSession_run (w : World) (st0 : AppState) :
  fst (startTrainingSession w st0) =
  let st := setTrainingInfoMessage None (setView ViewTraining st0) in
  match questions st0 with
  | [] =>
      match fetchQuestionsReply w with
      | Rejected _ => setTrainingInfoMessage (Some MsgLoadFailed) st
      | Resolved qs =>
          setTrainingInfoMessage (Some MsgNoQuestions)
            (setTrainingQuestion None
              (setTrainingModeRunning false (reloaded qs st0 st)))
      end
  | _ :: _ =>
      match pickRandomTrainingQuestion (questions st0) (randomDraw w) with
      | Some q => started w q st
      | None =>
          setTrainingInfoMessage (Some MsgNoQuestions)
            (setTrainingQuestion None (setTrainingModeRunning false st))
      end
  end.
Proof.
  unfold startTrainingSession, run, try_catch, write, mbind, M_bind, mret,
    M_ret.
  destruct (questions st0) as [|q0 qs0] eqn:Hqs.
  - rewrite reloadQuestions_run.
    destruct (fetchQuestionsReply w); reflexivity.
  - destruct (pickRandomTrainingQuestion (q0 :: qs0) (randomDraw w));
      reflexivity.
Qed.

Lemma find_same_id (c : Question) (qs : list Question) (u : Question) :
  List.find (fun q => id q =? id c) qs = Some u -> id u = id c.
Proof. intros H. apply find_some in H. now apply Z.eqb_eq. Qed.

Lemma refreshed_selected_training (current : option Question)
    (qs : list Question) (st : AppState) :
  training (refreshed current qs setSelectedQuestion st) = training st.
Proof.
  unfold refreshed. destruct current as [c|]; [|reflexivity].
  destruct (find _ qs); reflexivity.
Qed.

(** A reload may replace the training question by its fresh copy, never
    by another question. *)
Lemma reloaded_training_id (qs : list Question) (st0 st : AppState) :
  trainingQuestion (training st) = trainingQuestion (training st0) ->
  current_id (trainingQuestion (training (reloaded qs st0 st)))
  = current_id (trainingQuestion (training st0)).
Proof.
  intros Hsame. unfold reloaded.
  set (st' := refreshed (selectedQuestion (detail st0)) qs
                        setSelectedQuestion (setQuestions qs st)).
  assert (Hst' : trainingQuestion (training st')
                 = trainingQuestion (training st0)).
  { subst st'. now rewrite refreshed_selected_training. }
  unfold refreshed.
  destruct (trainingQuestion (training st0)) as [c|] eqn:Hc.
  - destruct (find (fun q => id q =? id c) qs) as [u|] eqn:Hu.
    + cbn. f_equal. eapply find_same_id, Hu.
    + now rewrite Hst'.
  - now rewrite Hst'.
Qed.

Lemma advanced_training (w : World) (st0 st : AppState) :
  trainingQuestion (training (advanced w st0 st))
  = pickRandomTrainingQuestion (questions st0) (randomDraw w) /\
  (trainingQuestion (training (advanced w st0 st)) <> None ->
   reveal_hidden_training (training (advanced w st0 st)) /\
   trainingStartTime (training (advanced w st0 st)) = Some (clockSecond w)).
Proof.
  unfold advanced.
  destruct (pickRandomTrainingQuestion (questions st0) (randomDraw w));
    cbn; split; try reflexivity; intros H.
  - repeat split.
  - congruence.
Qed.

(** No run of [handleTrainingMark] leaves another question with a reveal
    block shown. *)
Lemma handleTrainingMark_switch_hides (w : World) (solved : bool)
    (st0 : AppState) :
  let st1 := fst (handleTrainingMark w solved st0) in
  trainingQuestion (training st1) <> None ->
  current_id (trainingQuestion (training st1))
  <> current_id (trainingQuestion (training st0)) ->
  reveal_hidden_training (training st1).
Proof.
  intros st1 Hsome Hdiff. subst st1.
  destruct (trainingQuestion (training st0)) as [tq|] eqn:Hcur.
  - destruct (solved && is_solved tq)%bool eqn:Hns.
    + exfalso. apply Hdiff. unfold handleTrainingMark.
      rewrite Hcur, Hns. cbn. now rewrite Hcur.
    + revert Hsome Hdiff.
      rewrite (handleTrainingMark_run w solved st0 tq Hcur Hns). cbn [fst].
      destruct (updateProgressReply w) as [[]|e];
        [destruct (fetchQuestionsReply w) as [qs|e];
         [destruct (fetchStatsReply w) as [s|e]|]|].
      * intros Hsome _. now apply advanced_training.
      * intros _ Hdiff. exfalso. apply Hdiff. cbn [training on_training
          setTrainingInfoMessage trainingQuestion].
        rewrite (reloaded_training_id qs st0 st0 eq_refl). now rewrite Hcur.
      * intros _ Hdiff. exfalso. apply Hdiff. cbn. now rewrite Hcur.
      * intros _ Hdiff. exfalso. apply Hdiff. cbn. now rewrite Hcur.
  - exfalso. apply Hdiff. unfold handleTrainingMark. rewrite Hcur. cbn.
    now rewrite Hcur.
Qed.

(** Nor does a run of [startTrainingSession]. *)
Lemma startTrainingSession_switch_hides (w : World) (st0 : AppState) :
  let st1 := fst (startTrainingSession w st0) in
  trainingQuestion (training st1) <> None ->
  current_id (trainingQuestion (training st1))
  <> current_id (trainingQuestion (training st0)) ->
  reveal_hidden_training (training st1).
Proof.
  intros st1 Hsome Hdiff. subst st1. revert Hsome Hdiff.
  rewrite startTrainingSession_run. cbv zeta.
  destruct (questions st0) as [|q0 qs0].
  - destruct (fetchQuestionsReply w) as [qs|e]; cbn; intros Hsome Hdiff.
    + congruence.
    + congruence.
  - destruct (pickRandomTrainingQuestion (q0 :: qs0) (randomDraw w));
      cbn; intros Hsome Hdiff.
    + repeat split.
    + congruence.
Qed.

(** C8: a training start that picks a question and an advance after an
    accepted submission leave that question with hint, solution and
    answer hidden, and no run of the two training handlers leaves a
    question of another identifier with a block shown; selecting in the
    detail view the question that is already open (same identifier) only
    sets the start time, so the reveal flags, the message and the open
    question stay; selecting another question opens it, sets the start
    time, hides the three blocks and clears the message. *)
Theorem reveal_flags_reset (w : World) (now : Z) (solved : bool)
    (st0 : AppState) (q : Question) :
  (pickRandomTrainingQuestion (questions st0) (randomDraw w) = Some q ->
   let st1 := fst (startTrainingSession w st0) in
   trainingQuestion (training st1) = Some q /\
   trainingModeRunning (training st1) = true /\
   reveal_hidden_training (training st1)) /\
  (forall tq qs s,
     trainingQuestion (training st0) = Some tq ->
     (solved && is_solved tq)%bool = false ->
     updateProgressReply w = Resolved tt ->
     fetchQuestionsReply w = Resolved qs ->
     fetchStatsReply w = Resolved s ->
     let st1 := fst (handleTrainingMark w solved st0) in
     trainingQuestion (training st1)
     = pickRandomTrainingQuestion (questions st0) (randomDraw w) /\
     (trainingQuestion (training st1) <> None ->
      reveal_hidden_training (training st1) /\
      trainingStartTime (training st1) = Some (clockSecond w))) /\
  (forall st1,
     st1 = fst (startTrainingSession w st0) \/
     st1 = fst (handleTrainingMark w solved st0) ->
     trainingQuestion (training st1) <> None ->
     current_id (trainingQuestion (training st1))
     <> current_id (trainingQuestion (training st0)) ->
     reveal_hidden_training (training st1)) /\
  (forall sq,
     selectedQuestion (detail st0) = Some sq -> id sq = id q ->
     let st1 := handleSelectQuestion now q st0 in
     st1 = setStartTime (Some now) st0 /\
     startTime (detail st1) = Some now /\
     selectedQuestion (detail st1) = Some sq /\
     showHint (detail st1) = showHint (detail st0) /\
     showSolution (detail st1) = showSolution (detail st0) /\
     showAnswer (detail st1) = showAnswer (detail st0) /\
     infoMessage (detail st1) = infoMessage (detail st0)) /\
  ((forall sq, selectedQuestion (detail st0) = Some sq -> id sq <> id q) ->
   let st1 := handleSelectQuestion now q st0 in
   selectedQuestion (detail st1) = Some q /\
   startTime (detail st1) = Some now /\
   reveal_hidden_detail (detail st1) /\
   infoMessage (detail st1) = None).
Proof.
  split; [|split; [|split; [|split]]].
  - intros Hpick st1. subst st1. rewrite startTrainingSession_run. cbv zeta.
    destruct (questions st0) as [|q0 qs0]; [discriminate|].
    rewrite Hpick. cbn. repeat split.
  - intros tq qs s Hcur Hns H1 H2 H3 st1. subst st1.
    rewrite (handleTrainingMark_run w solved st0 tq Hcur Hns), H1, H2, H3.
    cbn [fst]. apply advanced_training.
  - intros st1 [-> | ->].
    + apply startTrainingSession_switch_hides.
    + apply handleTrainingMark_switch_hides.
  - intros sq Hsel Hid st1. subst st1. unfold handleSelectQuestion.
    rewrite Hsel, Hid, Z.eqb_refl. cbn. repeat split. exact Hsel.
  - intros Hother st1. subst st1. unfold handleSelectQuestion.
    destruct (selectedQuestion (detail st0)) as [sq|] eqn:Hsel.
    + specialize (Hother sq eq_refl). apply Z.eqb_neq in Hother.
      rewrite Hother. cbn. repeat split.
    + cbn. repeat split.
Qed.

Lemma reveal_flags_reset_witness :
  reveal_hidden_training
    (training (fst (startTrainingSession w_ok st_open))) /\
  reveal_hidden_training
    (training (fst (handleTrainingMark w_ok false st_open))) /\
  showHint (detail (handleSelectQuestion 7000 q_dice st_open)) = true /\
  reveal_hidden_detail (detail (handleSelectQuestion 7000 q_blank st_open)).
Proof.
  split; [|split; [|split]].
  - exact (proj2 (proj2 (proj1 (reveal_flags_reset w_ok 7000 false st_open
                                  q_dice) eq_refl))).
  - refine (proj1 (proj2 (proj1 (proj2 (reveal_flags_reset w_ok 7000 false
             st_open q_dice)) q_dice [q_dice_solved; q_blank] (mkStats 2 2 [])
             eq_refl eq_refl eq_refl eq_refl eq_refl) _)).
    discriminate.
  - exact (proj1 (proj2 (proj2 (proj2 (proj1 (proj2 (proj2 (proj2
             (reveal_flags_reset w_ok 7000 false st_open q_dice))))
             q_dice eq_refl eq_refl))))).
  - refine (proj1 (proj2 (proj2 (proj2 (proj2 (proj2 (proj2
             (reveal_flags_reset w_ok 7000 false st_open q_blank)))) _)))).
    intros sq Hsq. injection Hsq as <-. discriminate.
Defined.

(** ** Selection policy *)

(** *** The double product *)

Lemma pow2_pos (e : Z) : (0 < pow2 e)%Q.
Proof. apply Qpower_0_lt. reflexivity. Qed.

Lemma pow2_add (a b : Z) : (pow2 (a + b) == pow2 a * pow2 b)%Q.
Proof. apply Qpower_plus. discriminate. Qed.

Lemma pow2_Z (e : Z) : 0 <= e -> (pow2 e == inject_Z (2 ^ e))%Q.
Proof. intros He. symmetry. now apply (Zpower_Qpower 2 e). Qed.

Lemma pow2_le (a b : Z) : a <= b -> (pow2 a <= pow2 b)%Q.
Proof. intros H. apply Qpower_le_compat_l; [exact H | discriminate]. Qed.

Lemma round_half_even_close (s : Q) :
  (inject_Z (round_half_even s) <= s + (1 # 2))%Q /\
  (s - (1 # 2) <= inject_Z (round_half_even s))%Q.
Proof.
  unfold round_half_even.
  pose proof (Qfloor_le s) as Hlo. pose proof (Qlt_floor s) as Hhi.
  rewrite inject_Z_plus in Hhi. change (inject_Z 1) with 1%Q in Hhi.
  destruct (Qcompare_spec (s - inject_Z (Qfloor s)) (1 # 2)) as [E|E|E].
  - destruct (Z.even (Qfloor s)); rewrite ?inject_Z_plus;
      change (inject_Z 1) with 1%Q; lra.
  - lra.
  - rewrite inject_Z_plus. change (inject_Z 1) with 1%Q. lra.
Qed.

Lemma Qlog2_spec (x : Q) :
  (0 < x)%Q -> (pow2 (Qlog2 x) <= x)%Q /\ (x < pow2 (Qlog2 x + 1))%Q.
Proof.
  intros Hx. destruct x as [a b].
  assert (Ha : 0 < a).
  { unfold Qlt in Hx. simpl in Hx. lia. }
  unfold Qlog2. cbn [Qnum Qden].
  set (la := Z.log2 a). set (lb := Z.log2 (Z.pos b)).
  destruct (Z.log2_spec a Ha) as [Ha1 Ha2]. fold la in Ha1, Ha2.
  destruct (Z.log2_spec (Z.pos b) ltac:(lia)) as [Hb1 Hb2].
  fold lb in Hb1, Hb2.
  assert (Hla : 0 <= la) by apply Z.log2_nonneg.
  assert (Hlb : 0 <= lb) by apply Z.log2_nonneg.
  assert (Hx' : (a # b == inject_Z a / inject_Z (Z.pos b))%Q)
    by apply Qmake_Qdiv.
  rewrite <- Z.add_1_r in Ha2, Hb2.
  rewrite Zle_Qle in Ha1, Hb1. rewrite Zlt_Qlt in Ha2, Hb2.
  rewrite <- pow2_Z in Ha1, Ha2, Hb1, Hb2 by lia.
  pose proof (pow2_pos la) as Pla. pose proof (pow2_pos lb) as Plb.
  assert (Hb0 : (0 < inject_Z (Z.pos b))%Q) by reflexivity.
  assert (Hlow : (pow2 (la - lb - 1) <= a # b)%Q).
  { rewrite Hx'. apply Qle_shift_div_l; [exact Hb0|].
    assert (E : (pow2 la == pow2 (la - lb - 1) * pow2 (lb + 1))%Q).
    { rewrite <- pow2_add.
      now replace (la - lb - 1 + (lb + 1)) with la by lia. }
    pose proof (pow2_pos (la - lb - 1)) as P1.
    apply Qle_trans with (pow2 (la - lb - 1) * pow2 (lb + 1))%Q.
    - apply Qmult_le_l; [exact P1 | now apply Qlt_le_weak].
    - rewrite <- E. exact Ha1. }
  assert (Hupp : (a # b < pow2 (la - lb + 1))%Q).
  { rewrite Hx'. apply Qlt_shift_div_r; [exact Hb0|].
    assert (E : (pow2 (la + 1) == pow2 (la - lb + 1) * pow2 lb)%Q).
    { rewrite <- pow2_add.
      now replace (la - lb + 1 + lb) with (la + 1) by lia. }
    pose proof (pow2_pos (la - lb + 1)) as P1.
    apply Qlt_le_trans with (pow2 (la - lb + 1) * pow2 lb)%Q.
    - rewrite <- E. exact Ha2.
    - apply Qmult_le_l; [exact P1 | exact Hb1]. }
  destruct (Qle_bool (pow2 (la - lb)) (a # b)) eqn:T.
  - apply Qle_bool_iff in T. split; [exact T | exact Hupp].
  - split; [exact Hlow|].
    replace (la - lb - 1 + 1) with (la - lb) by lia.
    apply Qnot_le_lt. intros C. apply Qle_bool_iff in C. congruence.
Qed.

(** The rounded significand fits the 53 bits of a double (the value
    [2^53] is the first of the next binade). *)
Lemma round_double_significand (x : Q) :
  (0 < x)%Q ->
  0 <= round_half_even (x / pow2 (ulp_exponent x)) <= 2 ^ 53.
Proof.
  intros Hx. destruct (Qlog2_spec x Hx) as [_ Hupp].
  set (e := ulp_exponent x). pose proof (pow2_pos e) as Hp.
  assert (He : Qlog2 x - 52 <= e) by (unfold e, ulp_exponent; lia).
  set (s := (x / pow2 e)%Q).
  destruct (round_half_even_close s) as [Hup Hlow].
  assert (Hs0 : (0 <= s)%Q).
  { unfold s. apply Qle_shift_div_l; [exact Hp|]. lra. }
  assert (Hs : (s < inject_Z (2 ^ 53))%Q).
  { unfold s. apply Qlt_shift_div_r; [exact Hp|].
    apply Qlt_le_trans with (pow2 (Qlog2 x + 1)); [exact Hupp|].
    replace (Qlog2 x + 1) with (53 + (Qlog2 x - 52)) by lia.
    rewrite pow2_add, (pow2_Z 53) by lia.
    apply Qmult_le_l; [reflexivity | now apply pow2_le]. }
  split.
  - unfold round_half_even. fold s.
    assert (H0 : 0 <= Qfloor s).
    { change 0 with (Qfloor 0). now apply Qfloor_resp_le. }
    destruct (s - inject_Z (Qfloor s) ?= 1 # 2)%Q;
      [destruct (Z.even (Qfloor s))| |]; lia.
  - assert (H : (inject_Z (round_half_even s) < inject_Z (2 ^ 53 + 1))%Q).
    { rewrite inject_Z_plus. change (inject_Z 1) with 1%Q. lra. }
    rewrite <- Zlt_Qlt in H. lia.
Qed.

(** The nearest double is within half a unit in the last place. *)
Lemma round_double_error (x : Q) :
  (0 <= x)%Q ->
  exists err : Q,
    (0 <= err)%Q /\
    (err <= x * double_eps \/ err <= double_tiny)%Q /\
    (round_double x <= x + err)%Q /\ (x - err <= round_double x)%Q.
Proof.
  intros Hx. unfold round_double.
  destruct (Qle_bool x 0) eqn:T.
  - apply Qle_bool_iff in T. exists 0%Q.
    repeat split; try lra. right. discriminate.
  - assert (Hpos : (0 < x)%Q).
    { apply Qnot_le_lt. intros C. apply Qle_bool_iff in C. congruence. }
    set (e := ulp_exponent x). pose proof (pow2_pos e) as Hp.
    set (p := pow2 e) in *. set (s := (x / p)%Q).
    destruct (round_half_even_close s) as [Hup Hlow].
    set (m := inject_Z (round_half_even s)) in *.
    assert (Hs : (s * p == x)%Q).
    { unfold s. field. intros C. rewrite C in Hp. discriminate. }
    exists (p * (1 # 2))%Q. split; [lra|]. split; [|split].
    + destruct (Qlog2_spec x Hpos) as [Hlog _].
      unfold p, e, ulp_exponent.
      destruct (Z.max_spec (-1074) (Qlog2 x - 52)) as [[_ ->] | [_ ->]].
      * left. replace (Qlog2 x - 52) with (Qlog2 x + -52) by lia.
        rewrite pow2_add.
        assert (E : (pow2 (-52) * (1 # 2) == double_eps)%Q) by reflexivity.
        rewrite <- Qmult_assoc, E.
        apply Qmult_le_compat_r; [exact Hlog | discriminate].
      * right. assert (E : (pow2 (-1074) * (1 # 2) == double_tiny)%Q)
          by reflexivity.
        rewrite E. apply Qle_refl.
    + assert (H : (m * p <= (s + (1 # 2)) * p)%Q).
      { apply Qmult_le_compat_r; [exact Hup | now apply Qlt_le_weak]. }
      lra.
    + assert (H : ((s - (1 # 2)) * p <= m * p)%Q).
      { apply Qmult_le_compat_r; [exact Hlow | now apply Qlt_le_weak]. }
      lra.
Qed.

(** The largest double below one is [1 - 2^-53]. *)
Lemma draw_below_one (r : Q) : unit_draw r -> (r <= 1 - double_eps)%Q.
Proof.
  intros (_ & Hlt & m & e & [Hm0 Hm] & _ & Hr).
  destruct (Z_le_gt_dec (-53) e) as [He|He].
  - assert (E : (r == inject_Z (m * 2 ^ (e + 53)) * double_eps)%Q).
    { rewrite Hr, inject_Z_mult, <- pow2_Z by lia.
      replace e with (e + 53 + -53) at 1 by lia. rewrite pow2_add.
      assert (E : (pow2 (-53) == double_eps)%Q) by reflexivity.
      rewrite E. ring. }
    assert (HM : m * 2 ^ (e + 53) < 2 ^ 53).
    { rewrite Zlt_Qlt. rewrite E in Hlt.
      assert (E1 : (inject_Z (2 ^ 53) * double_eps == 1)%Q) by reflexivity.
      rewrite <- E1 in Hlt.
      apply Qmult_lt_r in Hlt; [exact Hlt | reflexivity]. }
    assert (HM' : (inject_Z (m * 2 ^ (e + 53)) <= inject_Z (2 ^ 53 - 1))%Q).
    { rewrite <- Zle_Qle. lia. }
    rewrite E.
    assert (E2 : (1 - double_eps == inject_Z (2 ^ 53 - 1) * double_eps)%Q)
      by reflexivity.
    rewrite E2. apply Qmult_le_compat_r; [exact HM' | discriminate].
  - rewrite Hr.
    assert (H1 : (inject_Z m * pow2 e <= inject_Z (2 ^ 53) * pow2 e)%Q).
    { apply Qmult_le_compat_r.
      - rewrite <- Zle_Qle. lia.
      - apply Qlt_le_weak, pow2_pos. }
    assert (H2 : (inject_Z (2 ^ 53) * pow2 e
                  <= inject_Z (2 ^ 53) * pow2 (-54))%Q).
    { apply Qmult_le_l; [reflexivity | apply pow2_le; lia]. }
    assert (E : (inject_Z (2 ^ 53) * pow2 (-54) == 1 # 2)%Q) by reflexivity.
    rewrite E in H2.
    assert (E3 : (1 # 2 <= 1 - double_eps)%Q) by discriminate.
    lra.
Qed.

Lemma half_is_draw : unit_draw (1 # 2).
Proof.
  split; [discriminate|]. split; [reflexivity|].
  exists 1, (-1). split; [split; [lia | reflexivity]|]. split; [lia|].
  reflexivity.
Qed.

Lemma pool_size_ge_one (n : nat) :
  (0 < n)%nat -> (1 <= inject_Z (Z.of_nat n))%Q.
Proof.
  intros Hn. change 1%Q with (inject_Z 1). rewrite <- Zle_Qle. lia.
Qed.

(** The rounded product is within [n * 2^-53] of the exact one, and
    below [n]. *)
Lemma rounded_product_bounds (r : Q) (n : nat) :
  unit_draw r -> (0 < n)%nat ->
  let N := inject_Z (Z.of_nat n) in
  (0 <= r * N)%Q /\
  (r * N - N * double_eps <= round_double (r * N))%Q /\
  (round_double (r * N) < r * N + N * double_eps)%Q /\
  (round_double (r * N) < N)%Q.
Proof.
  intros Hr Hn N. pose proof (pool_size_ge_one n Hn) as HN. fold N in HN.
  pose proof (draw_below_one r Hr) as Hhi. destruct Hr as (Hlo & _ & _).
  assert (Hlo' : (0 <= r * N)%Q).
  { apply Qmult_le_0_compat; [exact Hlo | lra]. }
  assert (Hhi' : (r * N <= (1 - double_eps) * N)%Q).
  { apply Qmult_le_compat_r; [exact Hhi | lra]. }
  destruct (round_double_error (r * N) Hlo') as (err & H0 & Herr & Hup & Hdn).
  assert (Ht : (double_tiny < double_eps)%Q) by reflexivity.
  change double_eps with (1 # 9007199254740992)%Q in *.
  destruct Herr as [Herr|Herr]; repeat split; lra.
Qed.

Lemma random_index_lt (r : Q) (n : nat) :
  unit_draw r -> (0 < n)%nat -> (random_index r n < n)%nat.
Proof.
  intros Hr Hn.
  destruct (rounded_product_bounds r n Hr Hn) as (_ & _ & _ & H).
  pose proof (Qfloor_le (round_double (r * inject_Z (Z.of_nat n)))) as Hf.
  assert (Hlt : (inject_Z (Qfloor (round_double (r * inject_Z (Z.of_nat n))))
                 < inject_Z (Z.of_nat n))%Q)
    by (eapply Qle_lt_trans; [exact Hf | exact H]).
  rewrite <- Zlt_Qlt in Hlt. unfold random_index. lia.
Qed.

Lemma Qfloor_between (x : Q) (i : Z) :
  Qfloor x = i <-> (inject_Z i <= x)%Q /\ (x < inject_Z (i + 1))%Q.
Proof.
  split.
  - intros <-. split; [apply Qfloor_le | apply Qlt_floor].
  - intros [Hlo Hhi].
    apply Qfloor_resp_le in Hlo. rewrite Qfloor_Z in Hlo.
    assert (Hup : (inject_Z (Qfloor x) < inject_Z (i + 1))%Q).
    { eapply Qle_lt_trans; [apply Qfloor_le | exact Hhi]. }
    rewrite <- Zlt_Qlt in Hup. lia.
Qed.

(** The draws that give the index [i]: all those whose exact product with
    [n] lies in [[i, i + 1)] shrunk by [n * 2^-53] at each end, and none
    whose product lies outside [[i, i + 1)] widened by as much. *)
Lemma random_index_interval (r : Q) (n i : nat) :
  unit_draw r -> (0 < n)%nat ->
  let N := inject_Z (Z.of_nat n) in
  let I := inject_Z (Z.of_nat i) in
  ((I + N * double_eps <= r * N)%Q /\
   (r * N + N * double_eps <= I + 1)%Q -> random_index r n = i) /\
  (random_index r n = i ->
   (I - N * double_eps <= r * N)%Q /\ (r * N < I + 1 + N * double_eps)%Q).
Proof.
  intros Hr Hn N I.
  destruct (rounded_product_bounds r n Hr Hn) as (H0 & Hlo & Hhi & _).
  fold N in H0, Hlo, Hhi. pose proof (pool_size_ge_one n Hn) as HN.
  fold N in HN. unfold random_index. fold N.
  set (y := round_double (r * N)) in *.
  assert (HI : (inject_Z (Z.of_nat i + 1) == I + 1)%Q)
    by (unfold I; now rewrite inject_Z_plus).
  split.
  - intros [H1 H2].
    assert (E : Qfloor y = Z.of_nat i).
    { apply Qfloor_between. rewrite HI. fold I. split; lra. }
    rewrite E. apply Nat2Z.id.
  - intros E.
    assert (Hi0 : (0 <= I)%Q).
    { unfold I. change 0%Q with (inject_Z 0). rewrite <- Zle_Qle. lia. }
    pose proof (Qfloor_le y) as Hf. pose proof (Qlt_floor y) as Hc.
    rewrite inject_Z_plus in Hc. change (inject_Z 1) with 1%Q in Hc.
    assert (Hfi : (inject_Z (Qfloor y) <= I)%Q).
    { unfold I. rewrite <- Zle_Qle. lia. }
    change double_eps with (1 # 9007199254740992)%Q in *.
    split; [|lra].
    destruct i as [|i'].
    + change I with 0%Q. lra.
    + assert (Hfe : Qfloor y = Z.of_nat (S i')) by lia.
      rewrite Hfe in Hf. fold I in Hf. lra.
Qed.

(** *** The pool and the question taken *)

Lemma training_pool_cases (qs : list Question) :
  (unsolved_of qs <> [] -> training_pool qs = unsolved_of qs) /\
  (unsolved_of qs = [] -> training_pool qs = qs).
Proof.
  unfold training_pool. destruct (unsolved_of qs); split; congruence.
Qed.

Lemma training_pool_nonempty (qs : list Question) :
  qs <> [] -> training_pool qs <> [].
Proof.
  intros Hqs. unfold training_pool.
  destruct (unsolved_of qs) eqn:E; [exact Hqs | discriminate].
Qed.

Lemma pick_in_pool (qs : list Question) (r : Q) :
  qs <> [] ->
  pickRandomTrainingQuestion qs r
  = nth_error (training_pool qs)
              (random_index r (List.length (training_pool qs))).
Proof.
  intros Hqs. unfold pickRandomTrainingQuestion.
  destruct qs as [|q0 qs']; [congruence|].
  destruct (training_pool (q0 :: qs')) eqn:E; [|reflexivity].
  exfalso. now apply (training_pool_nonempty (q0 :: qs')).
Qed.

Lemma unsolved_of_In (qs : list Question) (q : Question) :
  In q (unsolved_of qs) <-> In q qs /\ is_solved q = false.
Proof.
  unfold unsolved_of. rewrite filter_In.
  destruct (is_solved q); simpl; intuition congruence.
Qed.

Lemma unsolved_of_none (qs : list Question) :
  (forall u, In u qs -> is_solved u = true) -> unsolved_of qs = [].
Proof.
  intros Hall. destruct (unsolved_of qs) as [|u us] eqn:E; [reflexivity|].
  assert (Hu : In u (unsolved_of qs)) by (rewrite E; now left).
  apply unsolved_of_In in Hu. destruct Hu as [Hin Hu].
  rewrite (Hall u Hin) in Hu. discriminate.
Qed.

Lemma unsolved_of_some (qs : list Question) :
  (exists u, In u qs /\ is_solved u = false) -> unsolved_of qs <> [].
Proof.
  intros (u & Hin & Hu) E.
  assert (H : In u (unsolved_of qs)) by (apply unsolved_of_In; now split).
  rewrite E in H. destruct H.
Qed.

Lemma training_pool_In (qs : list Question) (q : Question) :
  In q (training_pool qs) -> In q qs.
Proof.
  unfold training_pool. destruct (unsolved_of qs) eqn:E; [trivial|].
  rewrite <- E. intros H. now apply unsolved_of_In in H.
Qed.

(** The draw nearest to two thirds: its exact product with three is below
    two, the double product is two, so the third question is taken. *)
Example draw_rounded_up :
  let r := (6004799503160661 # 9007199254740992)%Q in
  unit_draw r /\ (r * 3 < 2)%Q /\ random_index r 3 = 2%nat.
Proof.
  split; [|split; reflexivity].
  split; [discriminate|]. split; [reflexivity|].
  exists 6004799503160661, (-53).
  split; [split; [lia | reflexivity]|]. split; [lia | reflexivity].
Qed.

(** C4: for a draw of [Math.random()], when the catalog has a question
    whose [is_solved] is false the pool is exactly those questions, in
    catalog order, and when every question is solved the pool is the
    whole catalog; on a non-empty catalog the policy returns a question
    of the pool, hence an unsolved one whenever there is one: the question
    at the index [Math.floor(draw * size)] of the double product, an index
    of the pool; the index is [i] for every draw whose exact product with
    the size lies in [[i, i + 1)] shrunk by [size * 2^-53] at each end and
    for no draw whose product lies outside that interval widened by as
    much, so that every index is taken on an interval of draws of the
    same width up to the rounding of the product; a pool of one question
    returns that question; and no question is returned only for the empty
    catalog. *)
Theorem training_selection_policy (qs : list Question) (r : Q) :
  unit_draw r ->
  let pool := training_pool qs in
  let n := List.length pool in
  let N := inject_Z (Z.of_nat n) in
  ((exists u, In u qs /\ is_solved u = false) ->
   pool = List.filter (fun q => negb (is_solved q)) qs /\
   forall q, In q pool <-> In q qs /\ is_solved q = false) /\
  ((forall u, In u qs -> is_solved u = true) -> pool = qs) /\
  (qs <> [] ->
   exists q,
     pickRandomTrainingQuestion qs r = Some q /\ In q pool /\ In q qs /\
     ((exists u, In u qs /\ is_solved u = false) -> is_solved q = false)) /\
  (qs <> [] ->
   pickRandomTrainingQuestion qs r = nth_error pool (random_index r n) /\
   (random_index r n < n)%nat /\
   forall i, (i < n)%nat ->
     let I := inject_Z (Z.of_nat i) in
     ((I + N * double_eps <= r * N)%Q /\
      (r * N + N * double_eps <= I + 1)%Q -> random_index r n = i) /\
     (random_index r n = i ->
      (I - N * double_eps <= r * N)%Q /\
      (r * N < I + 1 + N * double_eps)%Q)) /\
  (forall x, qs <> [] -> pool = [x] ->
             pickRandomTrainingQuestion qs r = Some x) /\
  (pickRandomTrainingQuestion qs r = None <-> qs = []).
Proof.
  intros Hr pool n N.
  assert (Hpool : (exists u, In u qs /\ is_solved u = false) ->
            pool = unsolved_of qs).
  { intros Hu. apply training_pool_cases. now apply unsolved_of_some. }
  assert (Hn : qs <> [] -> (0 < n)%nat).
  { intros Hqs. subst n. destruct pool eqn:E; [|simpl; lia].
    exfalso. now apply (training_pool_nonempty qs). }
  assert (Hsome : qs <> [] ->
            exists q, pickRandomTrainingQuestion qs r = Some q /\ In q pool).
  { intros Hqs. rewrite (pick_in_pool qs r Hqs). fold pool. fold n.
    pose proof (random_index_lt r n Hr (Hn Hqs)) as Hlt.
    destruct (nth_error pool (random_index r n)) as [q|] eqn:E.
    - exists q. split; [reflexivity|]. eapply nth_error_In, E.
    - apply nth_error_None in E. subst n. lia. }
  split; [|split; [|split; [|split; [|split]]]].
  - intros Hu. split; [exact (Hpool Hu)|].
    intros q. rewrite (Hpool Hu). apply unsolved_of_In.
  - intros Hall. apply training_pool_cases. now apply unsolved_of_none.
  - intros Hqs. destruct (Hsome Hqs) as (q & Hq & Hin).
    exists q. split; [exact Hq|]. split; [exact Hin|].
    split; [now apply training_pool_In|].
    intros Hu. rewrite (Hpool Hu) in Hin. now apply unsolved_of_In in Hin.
  - intros Hqs. split; [apply pick_in_pool, Hqs|].
    split; [exact (random_index_lt r n Hr (Hn Hqs))|].
    intros i _. exact (random_index_interval r n i Hr (Hn Hqs)).
  - intros x Hqs Hx. destruct (Hsome Hqs) as (q & Hq & Hin).
    rewrite Hx in Hin. destruct Hin as [<- | []]. exact Hq.
  - split.
    + intros Hnone. destruct qs as [|q0 qs']; [reflexivity|].
      destruct Hsome as (q & Hq & _); [discriminate | congruence].
    + intros ->. reflexivity.
Qed.

(** With the draw one half: of a catalog with one unsolved question that
    question is taken, and of a catalog of two solved questions, whose
    pool is the catalog itself, the second is.  With the draw nearest to
    two thirds, whose double product with three is two, the third of
    three unsolved questions is taken. *)
Lemma training_selection_policy_witness :
  unit_draw (1 # 2) /\
  pickRandomTrainingQuestion catalog_A (1 # 2) = Some q_dice /\
  training_pool [q_blank; q_dice_solved] = [q_blank; q_dice_solved] /\
  pickRandomTrainingQuestion [q_blank; q_dice_solved] (1 # 2)
  = Some q_dice_solved /\
  pickRandomTrainingQuestion [q_tagged; q_tagged; q_dice]
    (6004799503160661 # 9007199254740992)
  = Some q_dice.
Proof.
  assert (Hr : unit_draw (1 # 2)) by exact half_is_draw.
  split; [exact Hr|]. split; [|split; [|split]]; cycle 3.
  - refine (eq_trans (proj1 (proj1 (proj2 (proj2 (proj2
              (training_selection_policy [q_tagged; q_tagged; q_dice]
                 (6004799503160661 # 9007199254740992)
                 (proj1 draw_rounded_up))))) _)) eq_refl).
    discriminate.
  - refine (proj1 (proj2 (proj2 (proj2 (proj2
              (training_selection_policy catalog_A (1 # 2) Hr)))))
              q_dice _ eq_refl).
    discriminate.
  - refine (proj1 (proj2 (training_selection_policy
              [q_blank; q_dice_solved] (1 # 2) Hr)) _).
    intros u [<- | [<- | []]]; reflexivity.
  - refine (eq_trans (proj1 (proj1 (proj2 (proj2 (proj2
              (training_selection_policy [q_blank; q_dice_solved] (1 # 2)
                 Hr)))) _)) eq_refl).
    discriminate.
Defined.

(** Whenever the question marked in training is the only unsolved one of
    the catalog on screen and the mark is accepted, the selection gives
    it again with its unsolved copy, whatever the reload reports, and a
    second mark submits again. *)
Lemma only_unsolved_is_given_again (w1 w2 : World) (st0 : AppState)
    (tq : Question) (qs : list Question) (s : Stats) :
  unit_draw (randomDraw w1) ->
  trainingQuestion (training st0) = Some tq ->
  unsolved_of (questions st0) = [tq] ->
  updateProgressReply w1 = Resolved tt ->
  fetchQuestionsReply w1 = Resolved qs ->
  fetchStatsReply w1 = Resolved s ->
  let st1 := fst (handleTrainingMark w1 true st0) in
  is_solved tq = false /\
  trainingQuestion (training st1) = Some tq /\
  submissions
    (snd (handleTrainingMark w1 true st0) ++
     snd (handleTrainingMark w2 true st1))
  = 2%nat.
Proof.
  intros Hr Hcur Hun H1 H2 H3 st1.
  assert (Hq : is_solved tq = false).
  { assert (H : In tq (unsolved_of (questions st0)))
      by (rewrite Hun; now left).
    now apply unsolved_of_In in H. }
  assert (Hns : (true && is_solved tq)%bool = false) by now rewrite Hq.
  assert (Hne : questions st0 <> []).
  { intros E. rewrite E in Hun. discriminate. }
  assert (Hpick : pickRandomTrainingQuestion (questions st0) (randomDraw w1)
                  = Some tq).
  { assert (Hpool : training_pool (questions st0) = [tq]).
    { unfold training_pool. now rewrite Hun. }
    rewrite (pick_in_pool _ _ Hne), Hpool. cbn [List.length].
    pose proof (random_index_lt (randomDraw w1) 1 Hr ltac:(lia)) as Hlt.
    destruct (random_index (randomDraw w1) 1); [reflexivity | lia]. }
  assert (Hcur' : trainingQuestion (training st1) = Some tq).
  { subst st1. rewrite (handleTrainingMark_run w1 true st0 tq Hcur Hns).
    rewrite H1, H2, H3. cbn [fst]. unfold advanced. now rewrite Hpick. }
  split; [exact Hq|]. split; [exact Hcur'|].
  rewrite submissions_app.
  rewrite (handleTrainingMark_run w1 true st0 tq Hcur Hns).
  rewrite (handleTrainingMark_run w2 true st1 tq Hcur' Hns).
  cbn [snd]. now rewrite !mark_calls_submissions.
Qed.

(** * Further properties of the component *)

(** ** Plain text to markup *)

Lemma append_assoc (a b c : string) :
  String.append (String.append a b) c = String.append a (String.append b c).
Proof. induction a; simpl; congruence. Qed.

Lemma replace_all_app (c : ascii) (by_ a b : string) :
  replace_all c by_ (String.append a b)
  = String.append (replace_all c by_ a) (replace_all c by_ b).
Proof.
  induction a as [|x a IH]; simpl; [reflexivity|].
  destruct (Ascii.eqb x c); simpl; rewrite IH; [|reflexivity].
  now rewrite append_assoc.
Qed.

(** The four replacements in sequence escape each character once. *)
Lemma formatPlainTextToHtml_each (text : string) :
  formatPlainTextToHtml text = escape_each text.
Proof.
  unfold formatPlainTextToHtml. induction text as [|c text IH].
  - reflexivity.
  - cbn [escape_each replace_all]. unfold escape_char.
    destruct (Ascii.eqb_spec c "&") as [->|H1].
    { rewrite !replace_all_app, IH. reflexivity. }
    cbn [replace_all]. destruct (Ascii.eqb_spec c "<") as [->|H2].
    { rewrite !replace_all_app, IH. reflexivity. }
    cbn [replace_all]. destruct (Ascii.eqb_spec c ">") as [->|H3].
    { rewrite !replace_all_app, IH. reflexivity. }
    cbn [replace_all]. destruct (Ascii.eqb_spec c newline) as [->|H4].
    { rewrite IH. reflexivity. }
    now rewrite IH.
Qed.

Lemma escape_char_plain (c : ascii) :
  plain_char c = true -> escape_char c = String c EmptyString.
Proof.
  unfold plain_char, escape_char. intros H.
  apply negb_true_iff in H. repeat (apply orb_false_iff in H; destruct H as [H ?]).
  now repeat match goal with E : Ascii.eqb _ _ = false |- _ => rewrite E; clear E end.
Qed.

Lemma plain_char_not (c x : ascii) :
  plain_char x = false -> plain_char c = true -> c <> x.
Proof. intros Hx Hc ->. congruence. Qed.

(** The shapes [escape_char] can take. *)
Lemma escape_char_cases (c : ascii) :
  (c = "&"%char /\ escape_char c = "&amp;"%string) \/
  (c = "<"%char /\ escape_char c = "&lt;"%string) \/
  (c = ">"%char /\ escape_char c = "&gt;"%string) \/
  (c = newline /\ escape_char c = "<br/>"%string) \/
  (plain_char c = true /\ escape_char c = String c EmptyString).
Proof.
  unfold escape_char, plain_char.
  destruct (Ascii.eqb_spec c "&"); [now left|].
  destruct (Ascii.eqb_spec c "<"); [now right; left|].
  destruct (Ascii.eqb_spec c ">"); [now right; right; left|].
  destruct (Ascii.eqb_spec c newline); [now right; right; right; left|].
  right; right; right; right. now split.
Qed.

Ltac peel_prefix H pre :=
  repeat (destruct pre as [|? pre]; simpl in H;
          [ try (exfalso; injection H; intros; congruence)
          | injection H as ? H; subst ]).

(** In the markup made of a plain text a ["<"] and a ["&"] only occur as
    the first character of an escape. *)
Lemma escape_each_inert (text pre post : string) :
  (escape_each text = String.append pre (String "<" post) ->
   exists rest, post = String.append "br/>" rest) /\
  (escape_each text = String.append pre (String "&" post) ->
   exists rest, post = String.append "amp;" rest \/
                post = String.append "lt;" rest \/
                post = String.append "gt;" rest).
Proof.
  revert pre. induction text as [|c text IH]; intros pre.
  - split; intros H; destruct pre; discriminate.
  - cbn [escape_each].
    destruct (escape_char_cases c)
      as [[-> ->] | [[-> ->] | [[-> ->] | [[-> ->] | [Hp ->]]]]].
    + split; intros H.
      * peel_prefix H pre. now apply (IH pre).
      * destruct pre as [|? pre]; simpl in H.
        { injection H as <-. eauto. }
        injection H as ? H; subst. peel_prefix H pre. now apply (IH pre).
    + split; intros H.
      * peel_prefix H pre. now apply (IH pre).
      * destruct pre as [|? pre]; simpl in H.
        { injection H as <-. eauto. }
        injection H as ? H; subst. peel_prefix H pre. now apply (IH pre).
    + split; intros H.
      * peel_prefix H pre. now apply (IH pre).
      * destruct pre as [|? pre]; simpl in H.
        { injection H as <-. eauto. }
        injection H as ? H; subst. peel_prefix H pre. now apply (IH pre).
    + split; intros H.
      * destruct pre as [|? pre]; simpl in H.
        { injection H as <-. eauto. }
        injection H as ? H; subst. peel_prefix H pre. now apply (IH pre).
      * peel_prefix H pre. now apply (IH pre).
    + split; intros H.
      * destruct pre as [|? pre]; simpl in H.
        { injection H as -> _. discriminate. }
        injection H as ? H; subst. now apply (IH pre).
      * destruct pre as [|? pre]; simpl in H.
        { injection H as -> _. discriminate. }
        injection H as ? H; subst. now apply (IH pre).
Qed.

(** X1: in the markup made of a plain text every ["<"] opens ["<br/>"]
    and every ["&"] opens one of the three entities, so the text cannot
    introduce an element or an entity of its own. *)
Theorem formatted_text_is_inert (text pre post : string) :
  (formatPlainTextToHtml text = String.append pre (String "<" post) ->
   exists rest, post = String.append "br/>" rest) /\
  (formatPlainTextToHtml text = String.append pre (String "&" post) ->
   exists rest, post = String.append "amp;" rest \/
                post = String.append "lt;" rest \/
                post = String.append "gt;" rest).
Proof.
  rewrite formatPlainTextToHtml_each.
  destruct (escape_each_inert text pre post) as [Hlt Hamp].
  split; [exact Hlt | exact Hamp].
Qed.

Lemma formatted_text_is_inert_witness :
  (exists rest, "br/>b"%string = String.append "br/>" rest) /\
  (exists rest, "lt;b<br/>"%string = String.append "amp;" rest \/
                "lt;b<br/>"%string = String.append "lt;" rest \/
                "lt;b<br/>"%string = String.append "gt;" rest).
Proof.
  split.
  - exact (proj1 (formatted_text_is_inert
                    (String "a" (String newline "b")) "a" "br/>b") eq_refl).
  - exact (proj2 (formatted_text_is_inert
                    (String "<" (String "b" (String newline EmptyString)))
                    EmptyString "lt;b<br/>") eq_refl).
Defined.

(** The escapes form a prefix code: an escape followed by anything is
    read back in one way only. *)
Lemma escape_char_prefix_free (c d : ascii) (x y : string) :
  String.append (escape_char c) x = String.append (escape_char d) y ->
  c = d /\ x = y.
Proof.
  intros H.
  destruct (escape_char_cases c)
    as [[-> Ec] | [[-> Ec] | [[-> Ec] | [[-> Ec] | [Hc Ec]]]]];
  destruct (escape_char_cases d)
    as [[-> Ed] | [[-> Ed] | [[-> Ed] | [[-> Ed] | [Hd Ed]]]]];
  rewrite ?Ec, ?Ed in H; simpl in H;
  try (injection H; intros; subst; try discriminate; try (now split);
       exfalso; congruence).
Qed.

(** X2: the formatting loses nothing: two plain texts with the same
    markup are the same text. *)
Theorem formatPlainTextToHtml_injective (a b : string) :
  formatPlainTextToHtml a = formatPlainTextToHtml b -> a = b.
Proof.
  rewrite !formatPlainTextToHtml_each. revert b.
  induction a as [|c a IH]; intros b H.
  - destruct b as [|d b]; [reflexivity|]. cbn [escape_each] in H.
    destruct (escape_char_cases d)
      as [[-> E] | [[-> E] | [[-> E] | [[-> E] | [_ E]]]]];
      rewrite E in H; discriminate.
  - destruct b as [|d b]; cbn [escape_each] in H.
    + destruct (escape_char_cases c)
        as [[-> E] | [[-> E] | [[-> E] | [[-> E] | [_ E]]]]];
        rewrite E in H; discriminate.
    + apply escape_char_prefix_free in H. destruct H as [-> H].
      f_equal. now apply IH.
Qed.

Lemma formatPlainTextToHtml_injective_witness :
  String "a" (String newline "b") = String "a" (String newline "b").
Proof.
  exact (formatPlainTextToHtml_injective
           (String "a" (String newline "b")) (String "a" (String newline "b"))
           eq_refl).
Defined.

Lemma escape_each_length (s : string) :
  (String.length s <= String.length (escape_each s))%nat.
Proof.
  induction s as [|c s IH]; simpl; [lia|].
  rewrite length_append.
  destruct (escape_char_cases c)
    as [[-> E] | [[-> E] | [[-> E] | [[-> E] | [_ E]]]]];
    rewrite E; simpl; lia.
Qed.

(** X3: the formatting returns the text unchanged exactly when the text
    has none of [&], [<], [>] and the line feed. *)
Theorem formatPlainTextToHtml_fixpoint (text : string) :
  formatPlainTextToHtml text = text <-> plain_text text = true.
Proof.
  rewrite formatPlainTextToHtml_each. induction text as [|c text IH].
  - simpl. tauto.
  - cbn [escape_each plain_text]. rewrite andb_true_iff, <- IH. split.
    + intros H.
      destruct (escape_char_cases c)
        as [[-> E] | [[-> E] | [[-> E] | [[-> E] | [Hp E]]]]];
        rewrite E in H; simpl in H.
      * injection H as H. exfalso.
        assert (L := f_equal String.length H). simpl in L.
        pose proof (escape_each_length text). lia.
      * discriminate.
      * discriminate.
      * discriminate.
      * injection H as H. auto.
    + intros [Hp H]. rewrite (escape_char_plain c Hp), H. reflexivity.
Qed.

(** X4: [QuestionText] shows the markup verbatim whenever there is some;
    without markup its content is the formatted plain text, in which
    every ["<"] opens ["<br/>"]; with neither it is empty. *)
Theorem questionContent_sources (html text : option string) :
  (truthy_opt html = true -> questionContent html text = or_empty html) /\
  (truthy_opt html = false ->
   questionContent html text
   = (if truthy_opt text then formatPlainTextToHtml (or_empty text)
      else EmptyString) /\
   forall pre post,
     questionContent html text = String.append pre (String "<" post) ->
     exists rest, post = String.append "br/>" rest).
Proof.
  split.
  - destruct html as [h|]; simpl; [|discriminate]. now intros ->.
  - intros Hh.
    assert (E : questionContent html text
                = (if truthy_opt text then formatPlainTextToHtml (or_empty text)
                   else EmptyString)).
    { destruct html as [h|]; simpl in *; [rewrite Hh|];
        destruct text as [t|]; simpl; reflexivity. }
    split; [exact E|]. intros pre post. rewrite E.
    destruct (truthy_opt text).
    + rewrite formatPlainTextToHtml_each. apply escape_each_inert.
    + intros H. destruct pre; discriminate.
Qed.

Lemma questionContent_sources_witness :
  questionContent (Some "<b>x</b>"%string) (Some "y"%string)
  = "<b>x</b>"%string /\
  questionContent None (Some "1<2"%string) = "1&lt;2"%string.
Proof.
  split.
  - exact (proj1 (questionContent_sources (Some "<b>x</b>"%string)
                    (Some "y"%string)) eq_refl).
  - exact (proj1 (proj2 (questionContent_sources None (Some "1<2"%string))
                    eq_refl)).
Defined.

(** ** Facets *)

Lemma set_add_In (seen : list string) (x y : string) :
  In y (set_add seen x) <-> In y seen \/ y = x.
Proof.
  unfold set_add. destruct (arr_includes seen x) eqn:E.
  - apply arr_includes_In in E. split; [tauto|].
    intros [H | ->]; assumption.
  - rewrite in_app_iff. simpl. intuition.
Qed.

Lemma set_add_NoDup (seen : list string) (x : string) :
  List.NoDup seen -> List.NoDup (set_add seen x).
Proof.
  intros Hnd. unfold set_add. destruct (arr_includes seen x) eqn:E.
  - exact Hnd.
  - apply arr_includes_false in E. apply List.NoDup_app.
    + exact Hnd.
    + constructor; [intros [] | constructor].
    + intros a Ha [<- | []]. contradiction.
Qed.

Lemma fold_set_add (xs seen : list string) :
  List.NoDup seen ->
  List.NoDup (fold_left set_add xs seen) /\
  forall y, In y (fold_left set_add xs seen) <-> In y seen \/ In y xs.
Proof.
  revert seen. induction xs as [|x xs IH]; intros seen Hnd; simpl.
  - split; [exact Hnd | intros y; tauto].
  - destruct (IH (set_add seen x) (set_add_NoDup seen x Hnd)) as [H1 H2].
    split; [exact H1|]. intros y. rewrite H2, set_add_In.
    intuition.
Qed.

(** A set made from a list has each value of the list once. *)
Lemma set_from_spec (xs : list string) :
  List.NoDup (set_from xs) /\ forall y, In y (set_from xs) <-> In y xs.
Proof.
  unfold set_from.
  destruct (fold_set_add xs [] (List.NoDup_nil string)) as [H1 H2].
  split; [exact H1|]. intros y. rewrite H2. simpl. tauto.
Qed.

Lemma truthy_values_In (xs : list (option string)) (s : string) :
  In s (truthy_values xs) <-> s <> EmptyString /\ In (Some s) xs.
Proof.
  induction xs as [|[t|] xs IH]; simpl.
  - tauto.
  - destruct (truthy t) eqn:E; simpl; rewrite IH.
    + apply truthy_true in E. split.
      * intros [-> | [H1 H2]]; auto.
      * intros [H1 [H2 | H2]]; [left; congruence | auto].
    + apply truthy_false in E. subst t. split.
      * intros [H1 H2]; auto.
      * intros [H1 [H2 | H2]]; [congruence | auto].
  - rewrite IH. split.
    + intros [H1 H2]; auto.
    + intros [H1 [H2 | H2]]; [discriminate | auto].
Qed.

Section FacetOrder.

Variable codeUnitLeb : string -> string -> bool.

Lemma sort_insert_perm (x : string) (l : list string) :
  Permutation (sort_insert codeUnitLeb x l) (x :: l).
Proof.
  induction l as [|y l IH]; simpl; [reflexivity|].
  destruct (codeUnitLeb x y); [reflexivity|].
  rewrite IH. apply perm_swap.
Qed.

Lemma js_sort_perm (l : list string) :
  Permutation (js_sort codeUnitLeb l) l.
Proof.
  induction l as [|x l IH]; simpl; [reflexivity|].
  rewrite sort_insert_perm. now constructor.
Qed.

Lemma js_sort_In (l : list string) (y : string) :
  In y (js_sort codeUnitLeb l) <-> In y l.
Proof.
  split; apply Permutation_in;
    [apply js_sort_perm | symmetry; apply js_sort_perm].
Qed.

Lemma sort_insert_sorted (x : string) (l : list string) :
  order_total codeUnitLeb ->
  Sorted (fun a b => codeUnitLeb a b = true) l ->
  Sorted (fun a b => codeUnitLeb a b = true) (sort_insert codeUnitLeb x l).
Proof.
  intros Htot.
  assert (Hflip : forall a b, codeUnitLeb a b = false ->
                              codeUnitLeb b a = true).
  { intros a b H. destruct (Htot a b); congruence. }
  induction 1 as [|y l Hs IH Hd]; simpl.
  - repeat constructor.
  - destruct (codeUnitLeb x y) eqn:E.
    + constructor; [now constructor | now constructor].
    + constructor; [exact IH|].
      destruct l as [|z l]; simpl.
      * constructor. now apply Hflip.
      * destruct (codeUnitLeb x z); constructor.
        -- now apply Hflip.
        -- now inversion Hd.
Qed.

Lemma js_sort_sorted (l : list string) :
  order_total codeUnitLeb ->
  Sorted (fun a b => codeUnitLeb a b = true) (js_sort codeUnitLeb l).
Proof.
  intros Htot. induction l as [|x l IH]; simpl; [constructor|].
  now apply sort_insert_sorted.
Qed.

(** Sorting a list without repetition gives a strictly ascending list. *)
Lemma js_sort_ascending (l : list string) :
  order_total codeUnitLeb -> List.NoDup l ->
  ascending codeUnitLeb (js_sort codeUnitLeb l).
Proof.
  intros Htot Hnd.
  assert (Hnd' : List.NoDup (js_sort codeUnitLeb l)).
  { eapply Permutation_NoDup; [symmetry; apply js_sort_perm | exact Hnd]. }
  pose proof (js_sort_sorted l Htot) as Hs. unfold ascending.
  induction Hs as [|a k Hs IH Hd]; [constructor|].
  apply NoDup_cons_iff in Hnd'. destruct Hnd' as [Hnotin Hnd'].
  constructor; [now apply IH|].
  destruct Hd as [|b k Hab]; constructor.
  split; [exact Hab|]. intros ->. apply Hnotin. now left.
Qed.

(** In a strictly ascending list every value comes before all the later
    ones. *)
Lemma ascending_head (a : string) (l : list string) :
  order_transitive codeUnitLeb -> order_antisymmetric codeUnitLeb ->
  ascending codeUnitLeb (a :: l) ->
  forall y, In y l -> codeUnitLeb a y = true /\ a <> y.
Proof.
  intros Htr Has. revert a.
  induction l as [|b l IH]; intros a Hs y Hy; [destruct Hy|].
  apply Sorted_inv in Hs. destruct Hs as [Hs Hd].
  apply HdRel_inv in Hd. destruct Hd as [Hab Hne].
  destruct Hy as [<- | Hy]; [now split|].
  destruct (IH b Hs y Hy) as [Hby Hbne]. split.
  - now apply (Htr a b y).
  - intros <-. apply Hne. now apply Has.
Qed.

(** The ascending arrangement of a set of values is unique. *)
Lemma ascending_unique (l k : list string) :
  order_transitive codeUnitLeb -> order_antisymmetric codeUnitLeb ->
  ascending codeUnitLeb l -> ascending codeUnitLeb k ->
  (forall y, In y l <-> In y k) -> l = k.
Proof.
  intros Htr Has. revert k.
  induction l as [|a l IH]; intros k Hl Hk Hsame.
  - destruct k as [|b k]; [reflexivity|].
    destruct (proj2 (Hsame b) (or_introl eq_refl)).
  - destruct k as [|b k].
    { destruct (proj1 (Hsame a) (or_introl eq_refl)). }
    pose proof (ascending_head a l Htr Has Hl) as Ha.
    pose proof (ascending_head b k Htr Has Hk) as Hb.
    assert (Hab : a = b).
    { destruct (proj1 (Hsame a) (or_introl eq_refl)) as [E | Hin];
        [now symmetry|].
      destruct (proj2 (Hsame b) (or_introl eq_refl)) as [E | Hin'];
        [exact E|].
      destruct (Ha b Hin') as [H1 _]. destruct (Hb a Hin) as [H2 _].
      now apply Has. }
    subst b. f_equal.
    apply IH.
    + now apply Sorted_inv in Hl.
    + now apply Sorted_inv in Hk.
    + intros y. split; intros Hy.
      * destruct (proj1 (Hsame y) (or_intror Hy)) as [E | Hin]; [|exact Hin].
        destruct (Ha y Hy) as [_ Hne]. contradiction.
      * destruct (proj2 (Hsame y) (or_intror Hy)) as [E | Hin]; [|exact Hin].
        destruct (Hb y Hy) as [_ Hne]. contradiction.
Qed.

End FacetOrder.

Lemma uniqueDifficulties_In (questions : list Question) (d : string) :
  In d (uniqueDifficulties questions) <->
  d <> EmptyString /\ exists q, In q questions /\ difficulty q = Some d.
Proof.
  unfold uniqueDifficulties.
  rewrite (proj2 (set_from_spec _)), truthy_values_In, in_map_iff.
  firstorder.
Qed.

Lemma uniqueTopics_In (codeUnitLeb : string -> string -> bool)
    (questions : list Question) (t : string) :
  In t (uniqueTopics codeUnitLeb questions) <->
  t <> EmptyString /\ exists q, In q questions /\ topic q = Some t.
Proof.
  unfold uniqueTopics.
  rewrite js_sort_In.
  rewrite (proj2 (set_from_spec _)), truthy_values_In, in_map_iff.
  firstorder.
Qed.

Lemma uniqueTags_In (codeUnitLeb : string -> string -> bool)
    (questions : list Question) (t : string) :
  In t (uniqueTags codeUnitLeb questions) <->
  t <> EmptyString /\ exists q, In q questions /\ In t (tags q).
Proof.
  unfold uniqueTags.
  rewrite js_sort_In.
  rewrite (proj2 (set_from_spec _)), filter_In, in_flat_map, truthy_true.
  firstorder.
Qed.

(** X5: the difficulty facet lists each non-empty difficulty of the
    catalog once, and nothing else. *)
Theorem uniqueDifficulties_spec (questions : list Question) :
  List.NoDup (uniqueDifficulties questions) /\
  forall d, In d (uniqueDifficulties questions) <->
            d <> EmptyString /\
            exists q, In q questions /\ difficulty q = Some d.
Proof.
  split.
  - unfold uniqueDifficulties. apply set_from_spec.
  - intros d. apply uniqueDifficulties_In.
Qed.

(** X6: in whichever total order [sort] compares strings, the topic
    facet is strictly ascending, holds no value twice and lists exactly
    the non-empty topics of the catalog; when the order is also
    transitive and antisymmetric it is the only ascending list of those
    topics. *)
Theorem uniqueTopics_spec (codeUnitLeb : string -> string -> bool)
    (questions : list Question) :
  order_total codeUnitLeb ->
  let facet := uniqueTopics codeUnitLeb questions in
  ascending codeUnitLeb facet /\
  List.NoDup facet /\
  (forall t, In t facet <->
     t <> EmptyString /\ exists q, In q questions /\ topic q = Some t) /\
  (order_transitive codeUnitLeb -> order_antisymmetric codeUnitLeb ->
   forall l, ascending codeUnitLeb l ->
     (forall t, In t l <->
        t <> EmptyString /\ exists q, In q questions /\ topic q = Some t) ->
     l = facet).
Proof.
  intros Htot facet.
  assert (Hasc : ascending codeUnitLeb facet).
  { apply js_sort_ascending; [exact Htot | apply set_from_spec]. }
  split; [exact Hasc|]. split; [|split].
  - eapply Permutation_NoDup; [symmetry; apply js_sort_perm|].
    apply set_from_spec.
  - intros t. apply uniqueTopics_In.
  - intros Htr Has l Hl Hsame.
    apply (ascending_unique codeUnitLeb l facet Htr Has Hl Hasc).
    intros y. rewrite Hsame. symmetry. apply uniqueTopics_In.
Qed.

Lemma uniqueTopics_spec_witness :
  order_total String.leb /\
  ascending String.leb
    (uniqueTopics String.leb [q_dice; q_blank; q_dice_solved]) /\
  uniqueTopics String.leb [q_dice; q_blank; q_dice_solved] = ["prob"%string].
Proof.
  split; [exact String.leb_total|]. split; [|reflexivity].
  exact (proj1 (uniqueTopics_spec String.leb [q_dice; q_blank; q_dice_solved]
                  String.leb_total)).
Defined.

(** X7: in whichever total order [sort] compares strings, the tag facet
    is strictly ascending, holds no value twice and lists exactly the
    non-empty tags carried by some question; when the order is also
    transitive and antisymmetric it is the only ascending list of those
    tags. *)
Theorem uniqueTags_spec (codeUnitLeb : string -> string -> bool)
    (questions : list Question) :
  order_total codeUnitLeb ->
  let facet := uniqueTags codeUnitLeb questions in
  ascending codeUnitLeb facet /\
  List.NoDup facet /\
  (forall t, In t facet <->
     t <> EmptyString /\ exists q, In q questions /\ In t (tags q)) /\
  (order_transitive codeUnitLeb -> order_antisymmetric codeUnitLeb ->
   forall l, ascending codeUnitLeb l ->
     (forall t, In t l <->
        t <> EmptyString /\ exists q, In q questions /\ In t (tags q)) ->
     l = facet).
Proof.
  intros Htot facet.
  assert (Hasc : ascending codeUnitLeb facet).
  { apply js_sort_ascending; [exact Htot | apply set_from_spec]. }
  split; [exact Hasc|]. split; [|split].
  - eapply Permutation_NoDup; [symmetry; apply js_sort_perm|].
    apply set_from_spec.
  - intros t. apply uniqueTags_In.
  - intros Htr Has l Hl Hsame.
    apply (ascending_unique codeUnitLeb l facet Htr Has Hl Hasc).
    intros y. rewrite Hsame. symmetry. apply uniqueTags_In.
Qed.

Lemma uniqueTags_spec_witness :
  order_total String.leb /\
  ascending String.leb (uniqueTags String.leb [q_tagged; q_dice]) /\
  uniqueTags String.leb [q_tagged; q_dice]
  = ["JS"%string; "Optiver"%string; "a"%string; "puzzle"%string].
Proof.
  split; [exact String.leb_total|]. split; [|reflexivity].
  exact (proj1 (uniqueTags_spec String.leb [q_tagged; q_dice]
                  String.leb_total)).
Defined.

Lemma nonempty_In {A} (l : list A) : l <> [] <-> exists x, In x l.
Proof.
  destruct l as [|x l]; split.
  - congruence.
  - intros (x & []).
  - intros _. exists x. now left.
  - discriminate.
Qed.

(** X8: a non-empty label is offered by a facet exactly when choosing it
    alone shows at least one question. *)
Theorem facet_offers_what_matches (codeUnitLeb : string -> string -> bool)
    (toLowerCase : string -> string)
    (questions : list Question) (x : string) :
  x <> EmptyString ->
  (In x (uniqueDifficulties questions) <->
   filteredQuestions toLowerCase questions (only_difficulty x) <> []) /\
  (In x (uniqueTopics codeUnitLeb questions) <->
   filteredQuestions toLowerCase questions (only_topic x) <> []) /\
  (In x (uniqueTags codeUnitLeb questions) <->
   filteredQuestions toLowerCase questions (only_tag x) <> []).
Proof.
  intros Hx. split; [|split].
  - rewrite uniqueDifficulties_In, nonempty_In.
    split.
    + intros (_ & q & Hq & Hd). exists q. apply filtered_In.
      split; [exact Hq|]. unfold all_dims, difficulty_dim, topics_dim,
        company_dim, tags_dim, unsolved_dim, search_dim. simpl.
      repeat split; auto; try (intros t []); discriminate.
    + intros (q & Hq). apply filtered_In in Hq.
      destruct Hq as (Hq & [Hd | Hd] & _); simpl in Hd; [contradiction|].
      eauto.
  - rewrite uniqueTopics_In, nonempty_In.
    split.
    + intros (_ & q & Hq & Ht). exists q. apply filtered_In.
      split; [exact Hq|]. unfold all_dims, difficulty_dim, topics_dim,
        company_dim, tags_dim, unsolved_dim, search_dim. simpl.
      repeat split; auto; try (intros t []); try discriminate.
      right. exists x. simpl. auto.
    + intros (q & Hq). apply filtered_In in Hq.
      destruct Hq as (Hq & _ & [Ht | (t & Ht & _ & [<- | []])] & _);
        simpl in Ht; [discriminate|]. eauto.
  - rewrite uniqueTags_In, nonempty_In.
    split.
    + intros (_ & q & Hq & Ht). exists q. apply filtered_In.
      split; [exact Hq|]. unfold all_dims, difficulty_dim, topics_dim,
        company_dim, tags_dim, unsolved_dim, search_dim. simpl.
      repeat split; auto; try discriminate.
      intros t [<- | []]. exact Ht.
    + intros (q & Hq). apply filtered_In in Hq.
      destruct Hq as (Hq & _ & _ & _ & Ht & _).
      split; [exact Hx|]. exists q. split; [exact Hq|].
      apply Ht. simpl. now left.
Qed.

Lemma facet_offers_what_matches_witness :
  In "easy"%string (uniqueDifficulties catalog_A) <->
  filteredQuestions asciiToLowerCase catalog_A (only_difficulty "easy") <> [].
Proof.
  exact (proj1 (facet_offers_what_matches String.leb asciiToLowerCase catalog_A
                  "easy"%string ltac:(discriminate))).
Defined.

Lemma filter_all (A : Type) (p : A -> bool) (l : list A) :
  (forall x, In x l -> p x = true) -> List.filter p l = l.
Proof.
  induction l as [|x l IH]; intros H; simpl; [reflexivity|].
  rewrite (H x (or_introl eq_refl)). f_equal. apply IH.
  intros y Hy. apply H. now right.
Qed.

(** X9: no filter is active exactly for the default criteria, and then
    the filtered list is the whole catalog. *)
Theorem no_active_filter_shows_all (toLowerCase : string -> string)
    (questions : list Question) (f : Filters.t) :
  (hasActiveFilters f = false <-> f = defaultFilters) /\
  (hasActiveFilters f = false ->
   filteredQuestions toLowerCase questions f = questions).
Proof.
  assert (Hiff : hasActiveFilters f = false <-> f = defaultFilters).
  { unfold hasActiveFilters, defaultFilters. destruct f as [d c ts gs s u].
    simpl. rewrite !orb_false_iff, !truthy_false, !negb_false_iff,
      !Nat.eqb_eq, !length_zero_iff_nil.
    split.
    - intros (((((-> & ->) & ->) & ->) & ->) & ->). reflexivity.
    - intros H. injection H as -> -> -> -> -> ->. repeat split. }
  split; [exact Hiff|].
  intros H. apply Hiff in H. subst f.
  unfold filteredQuestions. apply filter_all. intros q _. reflexivity.
Qed.

Lemma no_active_filter_shows_all_witness :
  filteredQuestions asciiToLowerCase catalog_A
    (updateFilters ResetFilters f_tags_ab) = catalog_A.
Proof.
  exact (proj2 (no_active_filter_shows_all asciiToLowerCase catalog_A
                  (updateFilters ResetFilters f_tags_ab)) eq_refl).
Defined.

(** ** Filter controls *)

Lemma without_In (t y : string) (xs : list string) :
  In y (without t xs) <-> In y xs /\ y <> t.
Proof.
  unfold without. rewrite filter_In, negb_true_iff, String.eqb_neq. tauto.
Qed.

Lemma without_absent (t : string) (xs : list string) :
  ~ In t xs -> without t xs = xs.
Proof.
  intros H. unfold without. apply filter_all. intros x Hx.
  apply negb_true_iff, String.eqb_neq. intros ->. contradiction.
Qed.

Lemma without_NoDup (t : string) (xs : list string) :
  List.NoDup xs -> List.NoDup (without t xs).
Proof. apply List.NoDup_filter. Qed.

Lemma snoc_NoDup (t : string) (xs : list string) :
  List.NoDup xs -> ~ In t xs -> List.NoDup (xs ++ [t]).
Proof.
  intros Hnd Hin. apply List.NoDup_app.
  - exact Hnd.
  - constructor; [intros [] | constructor].
  - intros a Ha [<- | []]. contradiction.
Qed.

Lemma toggle_in_NoDup (t : string) (xs : list string) :
  List.NoDup xs -> List.NoDup (toggle_in t xs).
Proof.
  intros Hnd. unfold toggle_in. destruct (arr_includes xs t) eqn:E.
  - now apply without_NoDup.
  - apply snoc_NoDup; [exact Hnd | now apply arr_includes_false].
Qed.

Lemma toggle_in_In (t y : string) (xs : list string) :
  In y (toggle_in t xs) <->
  (In t xs /\ In y xs /\ y <> t) \/ (~ In t xs /\ (In y xs \/ y = t)).
Proof.
  unfold toggle_in. destruct (arr_includes xs t) eqn:E.
  - apply arr_includes_In in E. rewrite without_In. tauto.
  - apply arr_includes_false in E. rewrite in_app_iff. simpl. intuition.
Qed.

Lemma updateFilters_tidy (codeUnitLeb : string -> string -> bool)
    (questions : list Question) (a : FilterAction) (f : Filters.t) :
  offered codeUnitLeb questions a -> tidy f -> tidy (updateFilters a f).
Proof.
  intros Hoff (Ht & Hg & He). unfold tidy.
  destruct a; simpl in *; try (now repeat split).
  - repeat split; [now apply without_NoDup | exact Hg |].
    rewrite without_In. tauto.
  - repeat split; [now apply toggle_in_NoDup | exact Hg |].
    rewrite toggle_in_In.
    apply uniqueTopics_In in Hoff. destruct Hoff as [Hne _].
    intros [(_ & H & _) | (_ & [H | H])]; [contradiction | contradiction |].
    now apply Hne.
  - destruct (arr_includes (Filters.topics f) (or_empty qt)) eqn:E.
    + destruct qt as [t|]; [|now repeat split].
      repeat split; [now apply without_NoDup | exact Hg |].
      rewrite without_In. tauto.
    + destruct (truthy_opt qt) eqn:Etr; [|now repeat split].
      apply arr_includes_false in E.
      repeat split; [now apply snoc_NoDup | exact Hg |].
      rewrite in_app_iff. simpl. intros [H | [H | []]]; [contradiction|].
      destruct qt as [t|]; simpl in *; [|discriminate].
      apply truthy_true in Etr. congruence.
  - repeat split; [exact Ht | now apply without_NoDup | exact He].
  - repeat split; [exact Ht | now apply toggle_in_NoDup | exact He].
  - repeat split; [constructor | constructor | intros []].
Qed.

(** X10: however the controls are used, starting from the default
    criteria, the selected topics and the selected tags never hold a
    value twice and the selected topics never hold the empty string. *)
Theorem filters_stay_tidy (codeUnitLeb : string -> string -> bool)
    (questions : list Question) (actions : list FilterAction) :
  Forall (offered codeUnitLeb questions) actions ->
  List.NoDup (Filters.topics (filters_after actions)) /\
  List.NoDup (Filters.tags (filters_after actions)) /\
  ~ In EmptyString (Filters.topics (filters_after actions)).
Proof.
  intros Hall. unfold filters_after.
  assert (H0 : tidy defaultFilters).
  { repeat split; simpl; [constructor | constructor | intros []]. }
  revert H0. generalize defaultFilters.
  induction Hall as [|a actions Ha Hall IH]; intros f Hf; simpl.
  - exact Hf.
  - apply IH. now apply (updateFilters_tidy codeUnitLeb questions).
Qed.

Lemma filters_stay_tidy_witness :
  List.NoDup
    (Filters.topics
       (filters_after [CheckTopic "prob"%string; RowTopic (Some "prob"%string);
                       RowTopic (Some ""%string); CheckTopic "prob"%string])).
Proof.
  refine (proj1 (filters_stay_tidy String.leb catalog_A
                   [CheckTopic "prob"%string; RowTopic (Some "prob"%string);
                    RowTopic (Some ""%string); CheckTopic "prob"%string] _)).
  repeat constructor; simpl; auto.
Defined.

(** Criteria at least as strict show a sublist. *)
Lemma stricter_shows_sublist (toLowerCase : string -> string)
    (questions : list Question) (f g : Filters.t) :
  at_least_as_strict f g ->
  sublist (filteredQuestions toLowerCase questions g)
          (filteredQuestions toLowerCase questions f).
Proof.
  intros Hfg. apply filter_sublist_mono. intros q Hq.
  apply matchesFilters_all_dims.
  apply (all_dims_anti toLowerCase f g q Hfg).
  now apply matchesFilters_all_dims.
Qed.

(** X11: checking a tag that was not selected can only shorten the list
    and unchecking one can only lengthen it; checking a first topic can
    only shorten the list, while checking a further topic can only
    lengthen it; the order of the rows is kept each time. *)
Theorem checking_narrows_or_widens (toLowerCase : string -> string)
    (questions : list Question) (f : Filters.t) (t : string) :
  let shown g := filteredQuestions toLowerCase questions g in
  (~ In t (Filters.tags f) ->
   sublist (shown (updateFilters (CheckTag t) f)) (shown f)) /\
  (In t (Filters.tags f) ->
   sublist (shown f) (shown (updateFilters (CheckTag t) f))) /\
  (Filters.topics f = [] ->
   sublist (shown (updateFilters (CheckTopic t) f)) (shown f)) /\
  (Filters.topics f <> [] -> ~ In t (Filters.topics f) ->
   sublist (shown f) (shown (updateFilters (CheckTopic t) f))).
Proof.
  intros shown. subst shown. cbv beta.
  split; [|split; [|split]]; intros H.
  - apply stricter_shows_sublist. unfold at_least_as_strict. simpl.
    repeat split; auto.
    + destruct (Filters.topics f) eqn:E; [now left | right].
      split; [discriminate | apply incl_refl].
    + intros y Hy. apply toggle_in_In. tauto.
  - apply stricter_shows_sublist. unfold at_least_as_strict. simpl.
    repeat split; auto.
    + destruct (Filters.topics f) eqn:E; [now left | right].
      split; [discriminate | apply incl_refl].
    + intros y Hy. apply toggle_in_In in Hy. tauto.
  - apply stricter_shows_sublist. unfold at_least_as_strict. simpl.
    repeat split; auto. apply incl_refl.
  - intros Hnew. apply stricter_shows_sublist.
    unfold at_least_as_strict. simpl.
    repeat split; auto; [|apply incl_refl].
    right. split; [exact H|].
    intros y Hy. apply toggle_in_In. tauto.
Qed.

Lemma checking_narrows_or_widens_witness :
  sublist
    (filteredQuestions asciiToLowerCase catalog_A
       (updateFilters (CheckTag "b"%string) f_easy))
    (filteredQuestions asciiToLowerCase catalog_A f_easy) /\
  sublist
    (filteredQuestions asciiToLowerCase catalog_A f_topics_prob_geo)
    (filteredQuestions asciiToLowerCase catalog_A
       (updateFilters (CheckTopic "x"%string) f_topics_prob_geo)).
Proof.
  split.
  - refine (proj1 (checking_narrows_or_widens asciiToLowerCase catalog_A
                     f_easy "b"%string) _).
    simpl. tauto.
  - refine (proj2 (proj2 (proj2 (checking_narrows_or_widens asciiToLowerCase
              catalog_A f_topics_prob_geo "x"%string))) _ _).
    + discriminate.
    + simpl. intros [H | [H | []]]; discriminate.
Defined.

(** Criteria that pass the same questions show the same list. *)
Lemma same_dims_same_list (toLowerCase : string -> string)
    (questions : list Question) (f g : Filters.t) :
  (forall q, all_dims toLowerCase f q <-> all_dims toLowerCase g q) ->
  filteredQuestions toLowerCase questions f
  = filteredQuestions toLowerCase questions g.
Proof.
  intros H. unfold filteredQuestions. apply List.filter_ext. intros q.
  specialize (H q). rewrite <- !matchesFilters_all_dims in H.
  destruct (matchesFilters toLowerCase f q),
           (matchesFilters toLowerCase g q); intuition congruence.
Qed.

Lemma toggle_twice_absent (t : string) (xs : list string) :
  ~ In t xs -> toggle_in t (toggle_in t xs) = xs.
Proof.
  intros H. unfold toggle_in at 2.
  rewrite (proj2 (arr_includes_false xs t) H).
  unfold toggle_in.
  assert (Hin : arr_includes (xs ++ [t]) t = true).
  { apply arr_includes_In, in_app_iff. right. now left. }
  rewrite Hin. unfold without. rewrite List.filter_app. simpl.
  rewrite String.eqb_refl. simpl. rewrite app_nil_r.
  now apply without_absent.
Qed.

Lemma toggle_twice_In (t y : string) (xs : list string) :
  In y (toggle_in t (toggle_in t xs)) <-> In y xs.
Proof.
  destruct (in_dec string_dec t xs) as [Hin | Hout].
  - unfold toggle_in at 2.
    rewrite (proj2 (arr_includes_In xs t) Hin).
    unfold toggle_in.
    assert (Hno : arr_includes (without t xs) t = false).
    { apply arr_includes_false. rewrite without_In. tauto. }
    rewrite Hno, in_app_iff, without_In. simpl.
    destruct (string_dec y t) as [-> | Hne]; intuition congruence.
  - now rewrite toggle_twice_absent.
Qed.

(** X12: checking the same box of the tag picker or of the topic picker
    twice shows the same list as before; when the value was not selected
    the criteria themselves are back as they were. *)
Theorem checking_twice_restores (toLowerCase : string -> string)
    (questions : list Question) (f : Filters.t) (t : string) :
  let shown g := filteredQuestions toLowerCase questions g in
  shown (updateFilters (CheckTag t) (updateFilters (CheckTag t) f)) = shown f
  /\
  shown (updateFilters (CheckTopic t) (updateFilters (CheckTopic t) f))
  = shown f /\
  (~ In t (Filters.tags f) ->
   updateFilters (CheckTag t) (updateFilters (CheckTag t) f) = f) /\
  (~ In t (Filters.topics f) ->
   updateFilters (CheckTopic t) (updateFilters (CheckTopic t) f) = f).
Proof.
  intros shown. subst shown. cbv beta. split; [|split; [|split]].
  - apply same_dims_same_list. intros q. unfold all_dims, tags_dim. simpl.
    assert (Hiff : (forall y, In y (toggle_in t (toggle_in t (Filters.tags f)))
                              -> In y (tags q))
                   <-> (forall y, In y (Filters.tags f) -> In y (tags q))).
    { split; intros H y Hy; apply H;
        [rewrite toggle_twice_In | rewrite toggle_twice_In in Hy]; exact Hy. }
    unfold difficulty_dim, topics_dim, company_dim, unsolved_dim, search_dim.
    simpl. tauto.
  - apply same_dims_same_list. intros q. unfold all_dims, topics_dim. simpl.
    assert (Hiff :
      (toggle_in t (toggle_in t (Filters.topics f)) = [] \/
       exists x, topic q = Some x /\ x <> EmptyString /\
                 In x (toggle_in t (toggle_in t (Filters.topics f))))
      <-> (Filters.topics f = [] \/
           exists x, topic q = Some x /\ x <> EmptyString /\
                     In x (Filters.topics f))).
    { split.
      - intros [H | (x & H1 & H2 & H3)].
        + left. destruct (Filters.topics f) as [|y ys] eqn:E; [reflexivity|].
          exfalso. assert (Hy : In y (toggle_in t (toggle_in t (y :: ys)))).
          { apply toggle_twice_In. now left. }
          rewrite H in Hy. destruct Hy.
        + right. exists x. rewrite toggle_twice_In in H3. auto.
      - intros [H | (x & H1 & H2 & H3)].
        + left. rewrite H. unfold toggle_in. simpl.
          now rewrite String.eqb_refl.
        + right. exists x. rewrite toggle_twice_In. auto. }
    unfold difficulty_dim, company_dim, tags_dim, unsolved_dim, search_dim.
    simpl. tauto.
  - intros H. destruct f as [d c ts gs s u]. simpl in *.
    now rewrite toggle_twice_absent.
  - intros H. destruct f as [d c ts gs s u]. simpl in *.
    now rewrite toggle_twice_absent.
Qed.

Lemma checking_twice_restores_witness :
  updateFilters (CheckTag "b"%string)
    (updateFilters (CheckTag "b"%string) f_easy) = f_easy.
Proof.
  refine (proj1 (proj2 (proj2 (checking_twice_restores asciiToLowerCase
            catalog_A f_easy "b"%string))) _).
  simpl. tauto.
Defined.

(** ** The sessions as a whole *)

Lemma refreshed_selected_detail (current : option Question)
    (qs : list Question) (st : AppState) :
  startTime (detail (refreshed current qs setSelectedQuestion st))
  = startTime (detail st) /\
  (selectedQuestion (detail (refreshed current qs setSelectedQuestion st))
   <> None ->
   current <> None \/ selectedQuestion (detail st) <> None).
Proof.
  unfold refreshed. destruct current as [c|]; [|auto].
  destruct (find _ qs); cbn; split; auto; intros _; left; discriminate.
Qed.

Lemma refreshed_training_training (current : option Question)
    (qs : list Question) (st : AppState) :
  trainingStartTime
    (training (refreshed current qs setTrainingQuestion st))
  = trainingStartTime (training st) /\
  trainingModeRunning
    (training (refreshed current qs setTrainingQuestion st))
  = trainingModeRunning (training st) /\
  trainingElapsedSec
    (training (refreshed current qs setTrainingQuestion st))
  = trainingElapsedSec (training st) /\
  (trainingQuestion (training st) <> None ->
   trainingQuestion (training (refreshed current qs setTrainingQuestion st))
   <> None) /\
  (trainingQuestion (training (refreshed current qs setTrainingQuestion st))
   <> None ->
   current <> None \/ trainingQuestion (training st) <> None).
Proof.
  unfold refreshed. destruct current as [c|]; [|tauto].
  destruct (find _ qs); cbn; repeat split; auto; try discriminate;
    intros _; left; discriminate.
Qed.

(** What a reload leaves of the two sessions. *)
Lemma reloaded_sessions (qs : list Question) (st0 st : AppState) :
  startTime (detail (reloaded qs st0 st)) = startTime (detail st) /\
  trainingStartTime (training (reloaded qs st0 st))
  = trainingStartTime (training st) /\
  trainingModeRunning (training (reloaded qs st0 st))
  = trainingModeRunning (training st) /\
  trainingElapsedSec (training (reloaded qs st0 st))
  = trainingElapsedSec (training st) /\
  (selectedQuestion (detail (reloaded qs st0 st)) <> None ->
   selectedQuestion (detail st0) <> None \/
   selectedQuestion (detail st) <> None) /\
  (trainingQuestion (training st) <> None ->
   trainingQuestion (training (reloaded qs st0 st)) <> None) /\
  (trainingQuestion (training (reloaded qs st0 st)) <> None ->
   trainingQuestion (training st0) <> None \/
   trainingQuestion (training st) <> None).
Proof.
  unfold reloaded.
  set (st' := refreshed (selectedQuestion (detail st0)) qs
                        setSelectedQuestion (setQuestions qs st)).
  assert (Ht : training st' = training st).
  { subst st'. now rewrite refreshed_selected_training. }
  destruct (refreshed_selected_detail (selectedQuestion (detail st0)) qs
              (setQuestions qs st)) as [D1 D2].
  fold st' in D1, D2.
  destruct (refreshed_training_training (trainingQuestion (training st0)) qs
              st') as (T1 & T2 & T3 & T4 & T5).
  rewrite refreshed_training_detail, Ht in *.
  repeat split; auto.
Qed.

Lemma loadCatalog_run (w : World) (st0 : AppState) :
  loadCatalog w st0 =
  match fetchQuestionsReply w with
  | Rejected _ => (st0, [FetchQuestions])
  | Resolved qs =>
      match fetchStatsReply w with
      | Rejected _ => (reloaded qs st0 st0, [FetchQuestions; FetchStats])
      | Resolved s =>
          (setStats (Some s) (reloaded qs st0 st0),
           [FetchQuestions; FetchStats])
      end
  end.
Proof.
  unfold loadCatalog, run, try_catch, skip, mbind, M_bind, mret, M_ret.
  rewrite reloadQuestions_run.
  destruct (fetchQuestionsReply w) as [qs|e]; [|reflexivity].
  rewrite reloadStats_run.
  destruct (fetchStatsReply w); reflexivity.
Qed.

(** [handleResetProgress], by the answers received. *)
Lemma handleResetProgress_run (reply : Outcome unit) (w : World)
    (st0 : AppState) :
  let cleared :=
    setTrainingQuestion None
      (setTrainingModeRunning false (setSelectedQuestion None st0)) in
  handleResetProgress true reply w st0 =
  match reply with
  | Rejected e => mkResetRun st0 true [] (Some e)
  | Resolved _ =>
      match fetchQuestionsReply w with
      | Rejected e => mkResetRun cleared true [FetchQuestions] (Some e)
      | Resolved qs =>
          match fetchStatsReply w with
          | Rejected e =>
              mkResetRun (reloaded qs st0 cleared) true
                         [FetchQuestions; FetchStats] (Some e)
          | Resolved s =>
              mkResetRun (setStats (Some s) (reloaded qs st0 cleared)) true
                         [FetchQuestions; FetchStats] None
          end
      end
  end.
Proof.
  intros cleared. unfold handleResetProgress.
  destruct reply as [[]|e]; [|reflexivity].
  unfold write, mbind, M_bind. rewrite reloadQuestions_run.
  destruct (fetchQuestionsReply w) as [qs|e]; [|reflexivity].
  rewrite reloadStats_run.
  destruct (fetchStatsReply w); reflexivity.
Qed.

(** ** The component between awaits *)








Lemma stretches_trans (st1 st2 st3 : AppState) :
  stretches st1 st2 -> stretches st2 st3 -> stretches st1 st3.
Proof.
  induction 1 as [|a b c Hab _ IH]; [trivial|].
  intros H. eapply stretches_more; [exact Hab | now apply IH].
Qed.

Lemma stretches_one (st st' : AppState) : stretch st st' -> stretches st st'.
Proof. intros H. eapply stretches_more; [exact H | apply stretches_none]. Qed.

Lemma interleaved_stretches (st st' : AppState) :
  stretches st st' -> interleaved st -> interleaved st'.
Proof.
  induction 1 as [|a b c Hab _ IH]; [trivial|].
  intros H. apply IH. eapply interleaved_stretch; [exact H | exact Hab].
Qed.

(** Peels the stretches off the final state, outermost write first. *)
Ltac stretching :=
  first
    [ apply stretches_none
    | eapply stretches_trans;
      [ | apply stretches_one;
          first [ apply stretch_reloaded | apply stretch_stats
                | apply stretch_mark_done | apply stretch_mark_failed
                | apply stretch_training_next | apply stretch_training_failed
                | apply stretch_reset | apply stretch_start_failed ] ];
      stretching ].

(** A handler run to its end without interruption is a sequence of
    stretches: the events of [step] are among the interleavings. *)
Lemma step_stretches (e : AppEvent) (st : AppState) :
  stretches st (step e st).
Proof.
  destruct e as [w | a | now q | k | w solved | v | w | | k | w solved | now
                | | | confirmed reply w | ]; cbn [step].
  - (* load *)
    rewrite loadCatalog_run.
    destruct (fetchQuestionsReply w) as [qs|e]; [|apply stretches_none].
    destruct (fetchStatsReply w); cbn [fst]; stretching.
  - apply stretches_one, stretch_filter.
  - apply stretches_one, stretch_select.
  - apply stretches_one, stretch_reveal.
  - (* mark *)
    destruct (selectedQuestion (detail st)) as [sq|] eqn:Hsel.
    + destruct (solved && is_solved sq)%bool eqn:Hns.
      * unfold handleMarkSolved. rewrite Hsel, Hns. cbn [fst].
        apply andb_prop in Hns. destruct Hns as [_ Hs].
        apply stretches_one. now apply (stretch_mark_notice sq).
      * rewrite (handleMarkSolved_run w solved st sq Hsel Hns). cbn [fst].
        destruct (updateProgressReply w) as [[]|e];
          [destruct (fetchQuestionsReply w) as [qs|e];
           [destruct (fetchStatsReply w) as [s|e]|]|]; stretching.
    + unfold handleMarkSolved. rewrite Hsel. apply stretches_none.
  - apply stretches_one, stretch_open_view.
  - (* start *)
    rewrite startTrainingSession_run. cbv zeta.
    destruct (questions st) as [|q0 qs0] eqn:Hqs.
    + eapply stretches_more; [now apply stretch_start_wait|].
      destruct (fetchQuestionsReply w) as [qs|e].
      * eapply stretches_more; [apply (stretch_reloaded qs st)|].
        apply stretches_one.
        pose proof (stretch_start_loaded w st
                      (reloaded qs st
                         (setTrainingInfoMessage None
                            (setView ViewTraining st))) Hqs) as H.
        rewrite Hqs in H. exact H.
      * stretching.
    + apply stretches_one.
      pose proof (stretch_start w st) as H. rewrite Hqs in H.
      apply H. discriminate.
  - apply stretches_one, stretch_stop.
  - apply stretches_one, stretch_training_reveal.
  - (* training mark *)
    destruct (trainingQuestion (training st)) as [tq|] eqn:Hcur.
    + destruct (solved && is_solved tq)%bool eqn:Hns.
      * unfold handleTrainingMark. rewrite Hcur, Hns. cbn [fst].
        apply andb_prop in Hns. destruct Hns as [_ Hs].
        apply stretches_one. now apply (stretch_training_notice tq).
      * rewrite (handleTrainingMark_run w solved st tq Hcur Hns). cbn [fst].
        destruct (updateProgressReply w) as [[]|e];
          [destruct (fetchQuestionsReply w) as [qs|e];
           [destruct (fetchStatsReply w) as [s|e]|]|]; stretching.
    + unfold handleTrainingMark. rewrite Hcur. apply stretches_none.
  - (* tick *)
    unfold timerTick.
    destruct (trainingStartTime (training st)) as [s|];
      [|apply stretches_none].
    destruct (timer_installed st); [|apply stretches_none].
    apply stretches_one, stretch_tick.
  - apply stretches_one, stretch_pulse_ends.
  - apply stretches_one, stretch_confetti_ends.
  - (* reset *)
    destruct confirmed; [|apply stretches_none].
    rewrite handleResetProgress_run. cbv zeta.
    destruct reply as [[]|e]; [|apply stretches_none].
    fold (reset_cleared st).
    destruct (fetchQuestionsReply w) as [qs|e]; cbn [resetState];
      [destruct (fetchStatsReply w); cbn [resetState]|]; stretching.
  - apply stretches_one, stretch_logout.
Qed.

Lemma interleaved_step (e : AppEvent) (st : AppState) :
  interleaved st -> interleaved (step e st).
Proof. apply interleaved_stretches, step_stretches. Qed.

Lemma st_training_interleaved : interleaved st_training.
Proof.
  unfold st_training, st_loaded.
  apply (interleaved_step (EvStartTraining w_ok)).
  apply (interleaved_step (EvLoad w_load)).
  apply interleaved_initial.
Qed.

(** Training is stopped while a mark awaits its reloads; the reload of
    the catalog then puts the question back, and the reload of the
    statistics fails. *)
Lemma st_stopped_mid_mark_interleaved : interleaved st_stopped_mid_mark.
Proof.
  unfold st_stopped_mid_mark.
  eapply interleaved_stretch; [|apply stretch_training_failed].
  eapply interleaved_stretch; [|apply stretch_reloaded].
  eapply interleaved_stretch; [|apply stretch_stop].
  exact st_training_interleaved.
Qed.





(** Once training was stopped in the middle of a mark, the question that
    the pending reload puts back has no start time, and marking it sends
    the default. *)
Example stopped_mid_mark_sends_default :
  interleaved st_stopped_mid_mark /\
  trainingQuestion (training st_stopped_mid_mark) = Some q_dice_solved /\
  trainingStartTime (training st_stopped_mid_mark) = None /\
  snd (handleTrainingMark w_mark false st_stopped_mid_mark)
  = [UpdateProgress 1 60 false; FetchQuestions; FetchStats].
Proof.
  split; [exact st_stopped_mid_mark_interleaved|]. repeat split.
Qed.

(** Stopping training puts the training cells back to their initial
    values and touches nothing else of the sessions; stopping twice is
    stopping once; and after a stop the ticks of the timer change
    nothing. *)
Lemma stop_training_resets (st : AppState) (now : Z) :
  training (stopTrainingSession st) = training initialState /\
  detail (stopTrainingSession st) = detail st /\
  questions (stopTrainingSession st) = questions st /\
  filters (stopTrainingSession st) = filters st /\
  view (stopTrainingSession st) = view st /\
  stopTrainingSession (stopTrainingSession st) = stopTrainingSession st /\
  timerTick now (stopTrainingSession st) = stopTrainingSession st.
Proof. repeat split. Qed.

Lemma floor_seconds_mono (now later s : Z) :
  now <= later -> floor_seconds now s <= floor_seconds later s.
Proof. intros H. unfold floor_seconds. apply Z.div_le_mono; lia. Qed.

(** X15: a tick of the timer writes the elapsed counter and nothing
    else; it writes nothing when training is not running or has no start
    time; the value shown does not decrease as the clock advances; and a
    later tick overrides an earlier one. *)
Theorem timer_tick_only_counts (now later : Z) (st : AppState) :
  timerTick now st
  = setTrainingElapsedSec (trainingElapsedSec (training (timerTick now st))) st
  /\
  (timer_installed st = false -> timerTick now st = st) /\
  (timer_installed st = true -> now <= later ->
   trainingElapsedSec (training (timerTick now st))
   <= trainingElapsedSec (training (timerTick later st))) /\
  timerTick later (timerTick now st) = timerTick later st.
Proof.
  unfold timerTick, timer_installed.
  destruct st as [qs sts f v d [tq run start el h so an msg] r c]. cbn.
  destruct start as [s|]; cbn.
  - destruct run; cbn; [destruct (s =? 0) eqn:E; cbn; rewrite ?E; cbn|];
      repeat split; try discriminate.
    intros _ H. pose proof (floor_seconds_mono now later s H). lia.
  - rewrite andb_false_r. repeat split. discriminate.
Qed.

Lemma timer_tick_only_counts_witness :
  trainingElapsedSec (training (timerTick 4000 st_open))
  <= trainingElapsedSec (training (timerTick 9000 st_open)).
Proof.
  refine (proj1 (proj2 (proj2 (timer_tick_only_counts 4000 9000 st_open)))
            eq_refl _).
  discriminate.
Defined.

(** X16: after a logout the catalog, the statistics, both current
    questions, the attempt clock and the criteria are cleared and
    training is not running, so that every filtered list is empty, both
    mark handlers do nothing and call nothing, and the timer does not
    tick; the view, the reveal flags, the two messages and the training
    start time and counter are left as they were. *)
Theorem logout_clears (st : AppState) :
  let st1 := handleLogout st in
  (questions st1 = [] /\ stats st1 = None /\ filters st1 = defaultFilters /\
   selectedQuestion (detail st1) = None /\ startTime (detail st1) = None /\
   trainingQuestion (training st1) = None /\
   trainingModeRunning (training st1) = false) /\
  (forall toLowerCase f,
     filteredQuestions toLowerCase (questions st1) f = []) /\
  (forall w solved,
     handleMarkSolved w solved st1 = (st1, []) /\
     handleTrainingMark w solved st1 = (st1, [])) /\
  (forall now, timerTick now st1 = st1) /\
  (view st1 = view st /\
   showHint (detail st1) = showHint (detail st) /\
   showSolution (detail st1) = showSolution (detail st) /\
   showAnswer (detail st1) = showAnswer (detail st) /\
   infoMessage (detail st1) = infoMessage (detail st) /\
   trainingStartTime (training st1) = trainingStartTime (training st) /\
   trainingElapsedSec (training st1) = trainingElapsedSec (training st) /\
   trainingShowHint (training st1) = trainingShowHint (training st) /\
   trainingShowSolution (training st1) = trainingShowSolution (training st) /\
   trainingShowAnswer (training st1) = trainingShowAnswer (training st) /\
   trainingInfoMessage (training st1) = trainingInfoMessage (training st)).
Proof.
  cbv zeta. split; [repeat split|]. split; [reflexivity|].
  split; [intros w solved; split; reflexivity|].
  split; [|repeat split].
  intros now. unfold timerTick, timer_installed. cbn.
  destruct (trainingStartTime (training st)); reflexivity.
Qed.

(** X17: a reset that is not confirmed sends nothing and changes
    nothing; a reset that the service rejects changes nothing, fetches
    nothing and raises the alert; a reset that is accepted and followed
    by successful reloads installs the catalog and the statistics
    received, leaves training not running and raises no alert, and each
    view then holds the fresh copy of the question it had, when the new
    catalog has one of that identifier, and no question otherwise. *)
Theorem reset_progress_outcomes (reply : Outcome unit) (w : World)
    (st0 : AppState) :
  handleResetProgress false reply w st0 = mkResetRun st0 false [] None /\
  (forall e, reply = Rejected e ->
     handleResetProgress true reply w st0 = mkResetRun st0 true [] (Some e)) /\
  (forall qs s,
     reply = Resolved tt -> fetchQuestionsReply w = Resolved qs ->
     fetchStatsReply w = Resolved s ->
     let r := handleResetProgress true reply w st0 in
     resetSent r = true /\ resetAlert r = None /\
     resetCalls r = [FetchQuestions; FetchStats] /\
     questions (resetState r) = qs /\ stats (resetState r) = Some s /\
     trainingModeRunning (training (resetState r)) = false /\
     selectedQuestion (detail (resetState r))
     = match selectedQuestion (detail st0) with
       | Some c => List.find (fun q => id q =? id c) qs
       | None => None
       end /\
     trainingQuestion (training (resetState r))
     = match trainingQuestion (training st0) with
       | Some c => List.find (fun q => id q =? id c) qs
       | None => None
       end).
Proof.
  split; [reflexivity|]. split.
  - intros e ->. reflexivity.
  - intros qs s -> Hq Hs r. subst r.
    rewrite handleResetProgress_run. cbv zeta. rewrite Hq, Hs. cbn.
    unfold reloaded, refreshed. cbn.
    destruct (selectedQuestion (detail st0)) as [c|];
      [destruct (find (fun q => id q =? id c) qs)|];
      (destruct (trainingQuestion (training st0)) as [c'|];
       [destruct (find (fun q => id q =? id c') qs)|]);
      cbn; repeat split.
Qed.

Lemma reset_progress_outcomes_witness :
  selectedQuestion
    (detail (resetState (handleResetProgress true (Resolved tt) w_ok st_open)))
  = List.find (fun q => id q =? id q_dice) [q_dice_solved; q_blank] /\
  handleResetProgress true (Rejected "no"%string) w_ok st_open
  = mkResetRun st_open true [] (Some "no"%string).
Proof.
  split.
  - exact (proj1 (proj2 (proj2 (proj2 (proj2 (proj2 (proj2
             (proj2 (proj2 (reset_progress_outcomes (Resolved tt) w_ok
                              st_open))
                [q_dice_solved; q_blank] (mkStats 2 2 []) eq_refl eq_refl
                eq_refl)))))))).
  - exact (proj1 (proj2 (reset_progress_outcomes (Rejected "no"%string) w_ok
                           st_open)) "no"%string eq_refl).
Defined.




(** X20: when the service accepts a mark of the detail view and both
    reloads succeed, the catalog and the statistics are the ones
    received, the attempt clock restarts at the second reading of the
    clock, the message quotes the very seconds that were submitted, and
    the solved pulse is set for the question exactly when it was marked
    solved. *)
Theorem accepted_mark_reconciles (w : World) (solved : bool)
    (st0 : AppState) (sq : Question) (qs : list Question) (s : Stats) :
  selectedQuestion (detail st0) = Some sq ->
  (solved && is_solved sq)%bool = false ->
  updateProgressReply w = Resolved tt ->
  fetchQuestionsReply w = Resolved qs ->
  fetchStatsReply w = Resolved s ->
  let st1 := fst (handleMarkSolved w solved st0) in
  exists d,
    snd (handleMarkSolved w solved st0)
    = [UpdateProgress (id sq) d solved; FetchQuestions; FetchStats] /\
    infoMessage (detail st1)
    = Some (if solved then MsgMarkedSolved d else MsgAttemptSaved d) /\
    questions st1 = qs /\ stats st1 = Some s /\
    startTime (detail st1) = Some (clockSecond w) /\
    recentSolvedId st1
    = (if solved then Some (id sq) else recentSolvedId st0).
Proof.
  intros Hsel Hns H1 H2 H3 st1. subst st1.
  exists (deltaSec (clockFirst w) (startTime (detail st0))).
  rewrite (handleMarkSolved_run w solved st0 sq Hsel Hns).
  unfold mark_calls. rewrite H1, H2, H3. cbn [fst snd].
  unfold reloaded, refreshed.
  destruct (selectedQuestion (detail st0)) as [c|];
    [destruct (find (fun q => id q =? id c) qs)|];
    (destruct (trainingQuestion (training st0)) as [c'|];
     [destruct (find (fun q => id q =? id c') qs)|]);
    destruct solved; cbn; repeat split.
Qed.

Lemma accepted_mark_reconciles_witness :
  exists d,
    snd (handleMarkSolved w_ok true st_open)
    = [UpdateProgress (id q_dice) d true; FetchQuestions; FetchStats] /\
    infoMessage (detail (fst (handleMarkSolved w_ok true st_open)))
    = Some (MsgMarkedSolved d) /\
    questions (fst (handleMarkSolved w_ok true st_open))
    = [q_dice_solved; q_blank] /\
    stats (fst (handleMarkSolved w_ok true st_open)) = Some (mkStats 2 2 []) /\
    startTime (detail (fst (handleMarkSolved w_ok true st_open))) = Some 9000 /\
    recentSolvedId (fst (handleMarkSolved w_ok true st_open)) = Some 1.
Proof.
  exact (accepted_mark_reconciles w_ok true st_open q_dice
           [q_dice_solved; q_blank] (mkStats 2 2 [])
           eq_refl eq_refl eq_refl eq_refl eq_refl).
Defined.

(** On a catalog that is not empty every draw picks a question of the
    pool. *)
Lemma pick_some (qs : list Question) (r : Q) :
  unit_draw r -> qs <> [] ->
  exists q, pickRandomTrainingQuestion qs r = Some q /\
            In q (training_pool qs).
Proof.
  intros Hr Hqs. rewrite (pick_in_pool qs r Hqs).
  assert (Hn : (0 < List.length (training_pool qs))%nat).
  { destruct (training_pool qs) eqn:E; [|simpl; lia].
    exfalso. now apply (training_pool_nonempty qs). }
  pose proof (random_index_lt r _ Hr Hn) as Hlt.
  destruct (nth_error (training_pool qs)
              (random_index r (List.length (training_pool qs))))
    as [q|] eqn:E.
  - exists q. split; [reflexivity|]. eapply nth_error_In, E.
  - apply nth_error_None in E. lia.
Qed.

(** A reload installs the catalog and keeps the view, the statistics
    and the criteria. *)
Lemma reloaded_outer (qs : list Question) (st0 st : AppState) :
  questions (reloaded qs st0 st) = qs /\
  view (reloaded qs st0 st) = view st /\
  stats (reloaded qs st0 st) = stats st /\
  filters (reloaded qs st0 st) = filters st.
Proof.
  unfold reloaded, refreshed.
  destruct (selectedQuestion (detail st0)) as [c|];
    [destruct (find (fun q => id q =? id c) qs)|];
    (destruct (trainingQuestion (training st0)) as [c'|];
     [destruct (find (fun q => id q =? id c') qs)|]); repeat split.
Qed.

(** A start on a catalog that is not empty makes no call. *)
Lemma startTrainingSession_quiet (w : World) (st0 : AppState) :
  questions st0 <> [] -> snd (startTrainingSession w st0) = [].
Proof.
  intros Hqs.
  unfold startTrainingSession, run, try_catch, write, mbind, M_bind,
    mret, M_ret.
  destruct (questions st0) as [|q0 qs0] eqn:E; [congruence|].
  destruct (pickRandomTrainingQuestion (q0 :: qs0) (randomDraw w));
    reflexivity.
Qed.

Lemma startTrainingSession_picks (w : World) (st0 : AppState)
    (q : Question) :
  pickRandomTrainingQuestion (questions st0) (randomDraw w) = Some q ->
  fst (startTrainingSession w st0)
  = started w q (setTrainingInfoMessage None (setView ViewTraining st0)).
Proof.
  intros Hpick. rewrite startTrainingSession_run. cbv zeta.
  destruct (questions st0) as [|q0 qs0] eqn:E; [discriminate|].
  now rewrite Hpick.
Qed.

(** X21: with a catalog that is not empty, training never stalls:
    starting makes no call and leaves training running, since the first
    reading of the clock, on a question of the pool; and a mark that the
    service accepts, followed by successful reloads, leaves a question
    of the pool with the timer restarted at the second reading of the
    clock, the counter at 0 and no message. *)
Theorem training_never_stalls (w : World) (solved : bool) (st0 : AppState) :
  unit_draw (randomDraw w) ->
  questions st0 <> [] ->
  (exists q,
     In q (training_pool (questions st0)) /\
     snd (startTrainingSession w st0) = [] /\
     let st1 := fst (startTrainingSession w st0) in
     trainingQuestion (training st1) = Some q /\
     trainingModeRunning (training st1) = true /\
     trainingStartTime (training st1) = Some (clockFirst w) /\
     trainingElapsedSec (training st1) = 0 /\
     view st1 = ViewTraining) /\
  (forall tq qs s,
     trainingQuestion (training st0) = Some tq ->
     (solved && is_solved tq)%bool = false ->
     updateProgressReply w = Resolved tt ->
     fetchQuestionsReply w = Resolved qs ->
     fetchStatsReply w = Resolved s ->
     exists q,
       In q (training_pool (questions st0)) /\
       let st1 := fst (handleTrainingMark w solved st0) in
       trainingQuestion (training st1) = Some q /\
       trainingStartTime (training st1) = Some (clockSecond w) /\
       trainingElapsedSec (training st1) = 0 /\
       trainingInfoMessage (training st1) = None).
Proof.
  intros Hr Hqs.
  destruct (pick_some (questions st0) (randomDraw w) Hr Hqs)
    as (q & Hpick & Hin).
  split.
  - exists q. split; [exact Hin|].
    split; [now apply startTrainingSession_quiet|].
    cbv zeta. rewrite (startTrainingSession_picks w st0 q Hpick).
    cbn. repeat split.
  - intros tq qs s Hcur Hns H1 H2 H3. exists q. split; [exact Hin|].
    cbv zeta.
    rewrite (handleTrainingMark_run w solved st0 tq Hcur Hns), H1, H2, H3.
    cbn [fst]. unfold advanced. rewrite Hpick. cbn. repeat split.
Qed.

Lemma training_never_stalls_witness :
  exists q,
    In q (training_pool (questions st_open)) /\
    snd (startTrainingSession w_ok st_open) = [] /\
    trainingQuestion (training (fst (startTrainingSession w_ok st_open)))
    = Some q /\
    trainingModeRunning (training (fst (startTrainingSession w_ok st_open)))
    = true /\
    trainingStartTime (training (fst (startTrainingSession w_ok st_open)))
    = Some (clockFirst w_ok) /\
    trainingElapsedSec (training (fst (startTrainingSession w_ok st_open)))
    = 0 /\
    view (fst (startTrainingSession w_ok st_open)) = ViewTraining.
Proof.
  refine (proj1 (training_never_stalls w_ok true st_open _ _)).
  - exact half_is_draw.
  - discriminate.
Defined.

(** X22: started on an empty catalog, training fetches the catalog once
    and does not start in that run, whatever comes back: a failed fetch
    leaves the could-not-load message and the training cells as they
    were; a successful one installs the catalog received, leaves no
    training question, training not running and the nothing-to-train-on
    message.  Started again, on the catalog now installed, training
    runs without a further fetch. *)
Theorem start_on_empty_catalog (w w' : World) (st0 : AppState) :
  questions st0 = [] ->
  let st1 := fst (startTrainingSession w st0) in
  snd (startTrainingSession w st0) = [FetchQuestions] /\
  view st1 = ViewTraining /\
  (forall e, fetchQuestionsReply w = Rejected e ->
     st1 = setTrainingInfoMessage (Some MsgLoadFailed)
             (setTrainingInfoMessage None (setView ViewTraining st0))) /\
  (forall qs, fetchQuestionsReply w = Resolved qs ->
     questions st1 = qs /\
     trainingQuestion (training st1) = None /\
     trainingModeRunning (training st1) = false /\
     trainingInfoMessage (training st1) = Some MsgNoQuestions /\
     (qs <> [] -> unit_draw (randomDraw w') ->
      trainingModeRunning (training (fst (startTrainingSession w' st1)))
      = true /\
      snd (startTrainingSession w' st1) = [])).
Proof.
  intros Hqs st1. subst st1. split.
  - unfold startTrainingSession, run, try_catch, write, mbind, M_bind,
      mret, M_ret. rewrite Hqs. rewrite reloadQuestions_run.
    destruct (fetchQuestionsReply w); reflexivity.
  - rewrite startTrainingSession_run. cbv zeta. rewrite Hqs. split.
    + destruct (fetchQuestionsReply w) as [qs|e]; [|reflexivity].
      cbn. now rewrite (proj1 (proj2 (reloaded_outer qs st0 _))).
    + split.
      * intros e ->. reflexivity.
      * intros qs ->.
        set (st1 := setTrainingInfoMessage (Some MsgNoQuestions)
                      (setTrainingQuestion None
                         (setTrainingModeRunning false
                            (reloaded qs st0
                               (setTrainingInfoMessage None
                                  (setView ViewTraining st0)))))).
        assert (Hq1 : questions st1 = qs).
        { subst st1. cbn. apply reloaded_outer. }
        split; [exact Hq1|]. repeat split.
        -- assert (Hne : questions st1 <> []) by now rewrite Hq1.
           destruct (pick_some (questions st1) (randomDraw w') H0 Hne)
             as (q & Hpick & _).
           now rewrite (startTrainingSession_picks w' st1 q Hpick).
        -- apply startTrainingSession_quiet. now rewrite Hq1.
Qed.

Lemma start_on_empty_catalog_witness :
  snd (startTrainingSession w_ok initialState) = [FetchQuestions] /\
  trainingModeRunning
    (training (fst (startTrainingSession w_ok initialState))) = false /\
  trainingModeRunning
    (training (fst (startTrainingSession w_ok
                      (fst (startTrainingSession w_ok initialState))))) = true.
Proof.
  pose proof (start_on_empty_catalog w_ok w_ok initialState eq_refl) as H.
  cbv zeta in H. destruct H as (H1 & _ & _ & H4).
  destruct (H4 [q_dice_solved; q_blank] eq_refl) as (_ & _ & H5 & _ & H6).
  split; [exact H1|]. split; [exact H5|].
  refine (proj1 (H6 _ _)).
  - discriminate.
  - exact half_is_draw.
Defined.

(** X23: opening a question restarts the attempt clock: a mark made
    after a question was selected at time [now], the same one again or
    another, submits for that question the seconds counted from [now]. *)
Theorem select_then_mark_counts_from_selection (w : World) (now : Z)
    (q : Question) (st0 : AppState) :
  exists rest,
    snd (handleMarkSolved w false (handleSelectQuestion now q st0))
    = UpdateProgress (id q) (Z.max 1 (round_seconds (clockFirst w) now)) false
      :: rest.
Proof.
  unfold handleSelectQuestion.
  destruct (selectedQuestion (detail st0)) as [sq|] eqn:Hsel.
  - destruct (id sq =? id q) eqn:E.
    + apply Z.eqb_eq in E.
      rewrite (handleMarkSolved_run w false _ sq) by (cbn; auto).
      cbn [snd]. unfold mark_calls. rewrite E. cbn. eauto.
    + rewrite (handleMarkSolved_run w false _ q) by (cbn; auto).
      cbn [snd]. unfold mark_calls. cbn. eauto.
  - rewrite (handleMarkSolved_run w false _ q) by (cbn; auto).
    cbn [snd]. unfold mark_calls. cbn. eauto.
Qed.

(** ** The credential *)

(** X24: a non-empty token that is stored is read back and sent as
    [Bearer] credential; storing no token or the empty token removes the
    entry, as a logout does, and then no [Authorization] header is sent;
    the entry read back is never the empty string; of two writes the
    last one counts; and no other key of the storage is touched. *)
Theorem token_round_trip (token earlier : option string) (st : Storage) :
  (forall t, token = Some t -> t <> EmptyString ->
     getToken (setToken token st) = Some t /\
     authorization (setToken token st) = Some (String.append "Bearer " t)) /\
  (token = None \/ token = Some EmptyString ->
   getToken (setToken token st) = None /\
   authorization (setToken token st) = None) /\
  getToken (logout st) = None /\ authorization (logout st) = None /\
  getToken (setToken token st) <> Some EmptyString /\
  getToken (setToken token (setToken earlier st)) = getToken (setToken token st)
  /\
  (forall k, k <> "token"%string ->
     getItem k (setToken token st) = getItem k st).
Proof.
  split; [|split; [|split; [|split; [|split; [|split]]]]].
  - intros t -> Ht. apply truthy_true in Ht.
    unfold authorization, getToken, setToken, getItem, setItem.
    rewrite Ht. cbn. now rewrite Ht.
  - intros [-> | ->]; split; reflexivity.
  - reflexivity.
  - reflexivity.
  - unfold getToken, setToken, getItem, setItem, removeItem.
    destruct token as [t|]; [destruct (truthy t) eqn:E|]; cbn;
      try discriminate.
    apply truthy_true in E. congruence.
  - unfold getToken, setToken, getItem, setItem, removeItem.
    destruct token as [t|]; [destruct (truthy t)|]; reflexivity.
  - intros k Hk. apply String.eqb_neq in Hk.
    unfold setToken, getItem, setItem, removeItem.
    destruct token as [t|]; [destruct (truthy t)|]; now rewrite Hk.
Qed.

Lemma token_round_trip_witness :
  getToken (setToken (Some "abc"%string) (fun _ => None)) = Some "abc"%string
  /\
  authorization (setToken (Some ""%string)
                   (setToken (Some "abc"%string) (fun _ => None))) = None.
Proof.
  split.
  - refine (proj1 (proj1 (token_round_trip (Some "abc"%string) None
                            (fun _ => None)) "abc"%string eq_refl _)).
    discriminate.
  - refine (proj2 (proj1 (proj2 (token_round_trip (Some ""%string) None
              (setToken (Some "abc"%string) (fun _ => None)))) _)).
    now right.
Defined.

(** ** The timer display *)

Lemma js_number_string_value (n : Z) :
  decimal_value (js_number_string n) = Some n.
Proof.
  unfold decimal_value, js_number_string.
  rewrite NilEmpty.isi. simpl. now rewrite DecimalZ.of_to.
Qed.

Lemma zero_prefixed_value (n : Z) :
  0 <= n -> decimal_value (String "0" (js_number_string n)) = Some n.
Proof.
  intros Hn. unfold decimal_value, js_number_string.
  assert (E : exists d, Z.to_int n = Decimal.Pos d).
  { destruct n; simpl; eauto. lia. }
  destruct E as (d & E). rewrite E. cbn [NilEmpty.string_of_int].
  unfold NilEmpty.int_of_string. cbn [Ascii.eqb Bool.eqb].
  cbn [NilEmpty.uint_of_string]. rewrite NilEmpty.usu. cbn.
  f_equal. change (Z.of_int (Decimal.Pos d) = n).
  rewrite <- E. apply DecimalZ.of_to.
Qed.

Lemma pad2_value (n : Z) : 0 <= n -> decimal_value (pad2 n) = Some n.
Proof.
  intros Hn. unfold pad2. destruct (n <? 10).
  - now apply zero_prefixed_value.
  - apply js_number_string_value.
Qed.

(** A check that holds for the first [k] naturals holds below [k]. *)
Lemma checked_below (P : Z -> bool) (k : nat) :
  forallb (fun i => P (Z.of_nat i)) (seq 0 k) = true ->
  forall z, 0 <= z < Z.of_nat k -> P z = true.
Proof.
  intros H z Hz. rewrite forallb_forall in H.
  specialize (H (Z.to_nat z)). rewrite Z2Nat.id in H by lia.
  apply H. apply in_seq. lia.
Qed.

Lemma pad2_length (n : Z) :
  0 <= n < 100 -> String.length (pad2 n) = 2%nat.
Proof.
  intros Hn. apply Nat.eqb_eq.
  apply (checked_below (fun z => Nat.eqb (String.length (pad2 z)) 2) 100);
    [vm_compute; reflexivity | exact Hn].
Qed.

Lemma append_split_by_length (a b c d : string) :
  String.length b = String.length d ->
  String.append a b = String.append c d -> a = c /\ b = d.
Proof.
  revert c. induction a as [|x a IH]; intros c Hlen H.
  - destruct c as [|y c]; simpl in H; [auto|].
    exfalso. assert (L := f_equal String.length H). simpl in L.
    rewrite length_append in L. lia.
  - destruct c as [|y c]; simpl in H.
    + exfalso. assert (L := f_equal String.length H). simpl in L.
      rewrite length_append in L. lia.
    + injection H as -> H. destruct (IH c Hlen H) as [-> ->]. auto.
Qed.

(** X25: for a counter that is not negative the display is the minutes
    and the seconds below 60, each written with at least two digits and
    separated by a colon; it takes five characters up to 99 minutes and
    59 seconds; and two different counters are never displayed alike. *)
Theorem formatTime_display (sec : Z) :
  0 <= sec ->
  formatTime sec
  = String.append (pad2 (sec / 60)) (String ":" (pad2 (sec mod 60))) /\
  decimal_value (pad2 (sec / 60)) = Some (sec / 60) /\
  decimal_value (pad2 (sec mod 60)) = Some (sec mod 60) /\
  String.length (pad2 (sec mod 60)) = 2%nat /\
  (sec < 6000 -> String.length (formatTime sec) = 5%nat) /\
  (forall other, 0 <= other -> formatTime sec = formatTime other ->
                 sec = other).
Proof.
  intros Hsec.
  assert (Hrem : forall z, 0 <= z -> Z.rem z 60 = z mod 60).
  { intros z Hz. apply Z.rem_mod_nonneg; lia. }
  assert (Hshape : forall z, 0 <= z ->
            formatTime z
            = String.append (pad2 (z / 60)) (String ":" (pad2 (z mod 60)))).
  { intros z Hz. unfold formatTime. cbv zeta. now rewrite Hrem. }
  assert (Hlen : forall z, String.length (pad2 (z mod 60)) = 2%nat).
  { intros z. apply pad2_length.
    pose proof (Z.mod_pos_bound z 60 ltac:(lia)). lia. }
  split; [now apply Hshape|].
  split; [apply pad2_value; apply Z.div_pos; lia|].
  split; [apply pad2_value; apply Z.mod_pos_bound; lia|].
  split; [apply Hlen|]. split.
  - intros Hlt. rewrite (Hshape sec Hsec), length_append. simpl.
    rewrite Hlen, pad2_length; [reflexivity|].
    split; [apply Z.div_pos; lia | apply Z.div_lt_upper_bound; lia].
  - intros other Hother H.
    rewrite (Hshape sec Hsec), (Hshape other Hother) in H.
    apply append_split_by_length in H; [|simpl; now rewrite !Hlen].
    destruct H as [Hm Hs]. injection Hs as Hs.
    assert (Vm := f_equal decimal_value Hm).
    assert (Vs := f_equal decimal_value Hs).
    rewrite !pad2_value in Vm, Vs
      by (try (apply Z.div_pos; lia); apply Z.mod_pos_bound; lia).
    injection Vm as Vm. injection Vs as Vs.
    rewrite (Z.div_mod sec 60), (Z.div_mod other 60) by lia.
    now rewrite Vm, Vs.
Qed.

Lemma formatTime_display_witness :
  formatTime 75 = "01:15"%string /\ String.length (formatTime 75) = 5%nat.
Proof.
  destruct (formatTime_display 75 ltac:(lia)) as (H1 & _ & _ & _ & H5 & _).
  split; [exact H1 | apply H5; lia].
Defined.

(** ** Loading *)

(** X26: the loading that follows a login makes the catalog request
    first and the statistics request only when the catalog arrived; a
    failed catalog request leaves every cell as it was; a failed
    statistics request leaves the statistics as they were beside the new
    catalog; and in each view the question shown afterwards is the first
    entry of the new catalog with the same identifier, or the copy held
    before when the new catalog has none. *)
Theorem load_keeps_or_refreshes (w : World) (st0 : AppState) :
  (forall e, fetchQuestionsReply w = Rejected e ->
     loadCatalog w st0 = (st0, [FetchQuestions])) /\
  (forall qs, fetchQuestionsReply w = Resolved qs ->
     let st1 := fst (loadCatalog w st0) in
     snd (loadCatalog w st0) = [FetchQuestions; FetchStats] /\
     questions st1 = qs /\
     stats st1 = match fetchStatsReply w with
                 | Resolved s => Some s
                 | Rejected _ => stats st0
                 end /\
     selectedQuestion (detail st1)
     = match selectedQuestion (detail st0) with
       | Some c =>
           match List.find (fun q => id q =? id c) qs with
           | Some u => Some u
           | None => Some c
           end
       | None => None
       end /\
     trainingQuestion (training st1)
     = match trainingQuestion (training st0) with
       | Some c =>
           match List.find (fun q => id q =? id c) qs with
           | Some u => Some u
           | None => Some c
           end
       | None => None
       end).
Proof.
  split.
  - intros e H. now rewrite loadCatalog_run, H.
  - intros qs H st1. subst st1. rewrite loadCatalog_run, H.
    unfold reloaded, refreshed.
    destruct (fetchStatsReply w) as [s|e]; cbn [fst snd];
      (destruct (selectedQuestion (detail st0)) as [c|] eqn:Hc;
       [destruct (find (fun q => id q =? id c) qs)|];
       (destruct (trainingQuestion (training st0)) as [c'|] eqn:Hc';
        [destruct (find (fun q => id q =? id c') qs)|]);
       cbn; rewrite ?Hc, ?Hc'; repeat split).
Qed.

Lemma load_keeps_or_refreshes_witness :
  loadCatalog w_ok st_open
  = (fst (loadCatalog w_ok st_open), [FetchQuestions; FetchStats]) /\
  selectedQuestion (detail (fst (loadCatalog w_ok st_open)))
  = Some q_dice_solved.
Proof.
  destruct (proj2 (load_keeps_or_refreshes w_ok st_open)
              [q_dice_solved; q_blank] eq_refl) as (H1 & _ & _ & H4 & _).
  split; [|exact H4].
  rewrite <- H1. now destruct (loadCatalog w_ok st_open).
Defined.

Lemma reloaded_running (qs : list Question) (st0 st : AppState) :
  trainingModeRunning (training (reloaded qs st0 st))
  = trainingModeRunning (training st).
Proof. apply reloaded_sessions. Qed.

Lemma handleMarkSolved_running (w : World) (solved : bool) (st : AppState) :
  trainingModeRunning (training (fst (handleMarkSolved w solved st)))
  = trainingModeRunning (training st).
Proof.
  destruct (selectedQuestion (detail st)) as [sq|] eqn:Hsel.
  - destruct (solved && is_solved sq)%bool eqn:Hns.
    + unfold handleMarkSolved. now rewrite Hsel, Hns.
    + rewrite (handleMarkSolved_run w solved st sq Hsel Hns). cbn [fst].
      destruct (updateProgressReply w) as [[]|e];
        [destruct (fetchQuestionsReply w) as [qs|e];
         [destruct (fetchStatsReply w) as [s|e]|]|];
        try reflexivity.
      * destruct solved; cbn; now rewrite reloaded_running.
      * cbn. now rewrite reloaded_running.
  - unfold handleMarkSolved. now rewrite Hsel.
Qed.

Lemma handleTrainingMark_not_running (w : World) (solved : bool)
    (st : AppState) :
  trainingModeRunning (training st) = false ->
  trainingModeRunning (training (fst (handleTrainingMark w solved st)))
  = false.
Proof.
  intros Hrun.
  destruct (trainingQuestion (training st)) as [tq|] eqn:Hcur.
  - destruct (solved && is_solved tq)%bool eqn:Hns.
    + unfold handleTrainingMark. now rewrite Hcur, Hns.
    + rewrite (handleTrainingMark_run w solved st tq Hcur Hns). cbn [fst].
      destruct (updateProgressReply w) as [[]|e];
        [destruct (fetchQuestionsReply w) as [qs|e];
         [destruct (fetchStatsReply w) as [s|e]|]|];
        try exact Hrun.
      * unfold advanced.
        destruct (pickRandomTrainingQuestion (questions st) (randomDraw w));
          [|reflexivity].
        destruct solved; cbn; now rewrite reloaded_running.
      * cbn. now rewrite reloaded_running.
  - unfold handleTrainingMark. now rewrite Hcur.
Qed.

Lemma not_running_not_installed (st : AppState) :
  trainingModeRunning (training st) = false -> timer_installed st = false.
Proof. intros H. unfold timer_installed. now rewrite H. Qed.

(** X27: only a start of training sets the timer going: when the timer
    is not installed because training is not running, it is still not
    installed after any other event. *)
Theorem only_start_runs_timer (e : AppEvent) (st : AppState) :
  trainingModeRunning (training st) = false ->
  timer_installed (step e st) = true ->
  exists w, e = EvStartTraining w.
Proof.
  intros Hrun Hinst.
  destruct e as [w | a | now q | k | w solved | v | w | | k | w solved | now
                | | | confirmed reply w | ];
    try (exists w; reflexivity); exfalso;
    rewrite not_running_not_installed in Hinst; try discriminate;
    cbn [step];
    try reflexivity; try exact Hrun; try (destruct k; exact Hrun).
  - rewrite loadCatalog_run.
    destruct (fetchQuestionsReply w) as [qs|err]; [|exact Hrun].
    destruct (fetchStatsReply w); cbn; now rewrite reloaded_running.
  - unfold handleSelectQuestion.
    destruct (selectedQuestion (detail st)) as [sq|];
      [destruct (id sq =? id q)|]; exact Hrun.
  - now rewrite handleMarkSolved_running.
  - now apply handleTrainingMark_not_running.
  - unfold timerTick.
    destruct (trainingStartTime (training st)); [|exact Hrun].
    destruct (timer_installed st); exact Hrun.
  - destruct confirmed; [|exact Hrun].
    rewrite handleResetProgress_run. cbv zeta.
    destruct reply as [[]|err]; [|exact Hrun].
    destruct (fetchQuestionsReply w) as [qs|err]; [|reflexivity].
    destruct (fetchStatsReply w); cbn; now rewrite reloaded_running.
Qed.

Lemma only_start_runs_timer_witness :
  exists w, EvStartTraining w_ok = EvStartTraining w.
Proof.
  exact (only_start_runs_timer (EvStartTraining w_ok)
           (fst (loadCatalog w_ok initialState)) eq_refl eq_refl).
Defined.
